(** * ETL loader (etl.py): embedding and verified properties

    The development follows the layout of [etl.py]:
    - Python values, strings and the few builtins the loader uses;
    - the tabular data ([DataFrame]) and the table-specific normalisation
      of [load_data_from_csv] (lines 152-167);
    - the construction of the insert statement (lines 179-199);
    - the connection, the audit table and the effectful functions
      ([execute_sql], [log_etl_start], [log_etl_end],
      [read_csv_with_encoding_tries], [load_data_from_csv], [main]),
      written in a state-and-exception monad whose state survives a raise,
      as the effects of a Python call do. *)

From Stdlib Require Import String Ascii List ZArith Lia Bool Arith.
Import ListNotations.
Local Open Scope string_scope.
Local Open Scope list_scope.

(** ** Python strings and builtins *)

Module Py.

(** A Python [str] is a Rocq [string], one [ascii] per character: text
    outside the one-byte range is outside the model. *)

Definition dquote : string := String "034"%char EmptyString.
Definition newline : string := String "010"%char EmptyString.

(** [sep.join(items)] *)
Definition join (sep : string) (items : list string) : string :=
  String.concat sep items.

(** [x in xs] for a list of strings. *)
Fixpoint mem (x : string) (xs : list string) : bool :=
  match xs with
  | [] => false
  | y :: ys => if String.eqb x y then true else mem x ys
  end.

(** [s[:n]] *)
Fixpoint take (n : nat) (s : string) : string :=
  match n, s with
  | O, _ => EmptyString
  | S _, EmptyString => EmptyString
  | S k, String c r => String c (take k r)
  end.

(** [repr] of a list of plain strings: ['a', 'b']. *)
Definition repr_str (s : string) : string := "'" ++ s ++ "'".
Definition repr_list (l : list string) : string :=
  "[" ++ join ", " (map repr_str l) ++ "]".

(** [c.isspace()] on the one-byte range: the controls 9-13 and 28-31, the
    space, NEL (133) and the no-break space (160). *)
Definition is_space (c : ascii) : bool :=
  let n := nat_of_ascii c in
  (((9 <=? n) && (n <=? 13)) || ((28 <=? n) && (n <=? 32))
   || (n =? 133) || (n =? 160))%nat.

Fixpoint lstrip (s : string) : string :=
  match s with
  | String c r => if is_space c then lstrip r else s
  | EmptyString => EmptyString
  end.

Fixpoint rev_string (s acc : string) : string :=
  match s with
  | EmptyString => acc
  | String c r => rev_string r (String c acc)
  end.

(** [s.strip()] *)
Definition strip (s : string) : string :=
  rev_string (lstrip (rev_string (lstrip s) EmptyString)) EmptyString.

(** [c.lower()] on the one-byte range: A-Z, and the capital letters
    192-222 of Latin-1 apart from the multiplication sign (215). *)
Definition lower_char (c : ascii) : ascii :=
  let n := nat_of_ascii c in
  if (((65 <=? n) && (n <=? 90))
      || ((192 <=? n) && (n <=? 222) && negb (n =? 215)))%nat
  then ascii_of_nat (n + 32) else c.

(** [s.lower()] *)
Fixpoint lower (s : string) : string :=
  match s with
  | EmptyString => EmptyString
  | String c r => String (lower_char c) (lower r)
  end.

Definition is_digit (c : ascii) : bool :=
  let n := nat_of_ascii c in ((48 <=? n) && (n <=? 57))%nat.

Definition digit_char (d : nat) : ascii := ascii_of_nat (48 + d).

(** Decimal text of a natural number, most significant digit first;
    [fuel] bounds the number of digits. *)
Fixpoint nat_digits (fuel n : nat) (acc : string) : string :=
  match fuel with
  | O => acc
  | S f =>
      let acc' := String (digit_char (n mod 10)) acc in
      if (n / 10 =? 0)%nat then acc' else nat_digits f (n / 10) acc'
  end.

Definition str_nat (n : nat) : string := nat_digits (S n) n EmptyString.

(** [str(z)] for an integer. *)
Definition str_int (z : Z) : string :=
  match z with
  | Z0 => "0"
  | Zpos p => str_nat (Pos.to_nat p)
  | Zneg p => "-" ++ str_nat (Pos.to_nat p)
  end.

(** A dict with string keys, in insertion order (iteration order of
    [.items()]). *)
Definition dict (V : Type) := list (string * V).

Fixpoint lookup {V} (d : dict V) (k : string) : option V :=
  match d with
  | [] => None
  | (k', v) :: r => if String.eqb k k' then Some v else lookup r k
  end.

End Py.

(** ** Cell values *)

(** A float that is not NaN: one the parser read, with an opaque payload,
    or the float64 that a conversion makes of an integer.  The text of a
    float is given by the [float_str] function the development is
    parameterised by. *)
Inductive Float :=
| FPayload (payload : Z)
| FOfInt (z : Z).

(** What a cell of a parsed frame, or a statement parameter, can hold. *)
Inductive Value :=
| VStr (s : string)
| VInt (z : Z)
| VFloat (x : Float)
| VNaN
| VNone.

(** [pd.isna(x)] on a scalar. *)
Definition pd_isna (x : Value) : bool :=
  match x with
  | VNaN | VNone => true
  | _ => false
  end.

(** ** Frames *)

(** The dtype of a column, as far as the program depends on it: the two
    numeric dtypes the parser infers, and [object] for text and for every
    column the normalisation has assigned. *)
Inductive Dtype := int64 | float64 | object.

(** A parsed table: column labels, the dtype of each column, and rows of
    cells.  The parser gives pairwise distinct labels; line 153 can make
    two of them equal. *)
Record DataFrame := mkDataFrame {
  columns : list string;
  dtypes : list Dtype;
  rows : list (list Value)
}.

Definition is_numeric (d : Dtype) : bool :=
  match d with
  | object => false
  | _ => true
  end.

Definition is_float64 (d : Dtype) : bool :=
  match d with
  | float64 => true
  | _ => false
  end.

(** Whether the common dtype of the columns is float64: every column is
    numeric and one of them is float64. *)
Definition upcasts (df : DataFrame) : bool :=
  forallb is_numeric (dtypes df) && existsb is_float64 (dtypes df).

(** An integer cell in a float64 array. *)
Definition as_float64 (x : Value) : Value :=
  match x with
  | VInt z => VFloat (FOfInt z)
  | _ => x
  end.

(** [df.to_numpy()]: one array of the common dtype of the columns.  With
    an object column the cells are kept; with numeric columns only, one of
    them float64, every integer is converted to float64. *)
Definition to_numpy (df : DataFrame) : list (list Value) :=
  if upcasts df then map (map as_float64) (rows df) else rows df.

(** Line 176: [[tuple(None if pd.isna(x) else x for x in row)
               for row in df.to_numpy()]] *)
Definition data_tuples (df : DataFrame) : list (list Value) :=
  map (fun row => map (fun x => if pd_isna x then VNone else x) row)
      (to_numpy df).

(** ** Configuration (lines 46-63) *)

Module Config.

(** [os.path.join(DATA_DIR, name)]; the module defines DATA_DIR under
    Windows only, hence the separator. *)
Definition path_join (dir name : string) : string := dir ++ "\" ++ name.

Definition TABLE_FILE_MAPPING (DATA_DIR : string) : Py.dict string :=
  [ ("ds.ft_balance_f", path_join DATA_DIR "ft_balance_f.csv");
    ("ds.ft_posting_f", path_join DATA_DIR "ft_posting_f.csv");
    ("ds.md_account_d", path_join DATA_DIR "md_account_d.csv");
    ("ds.md_currency_d", path_join DATA_DIR "md_currency_d.csv");
    ("ds.md_exchange_rate_d", path_join DATA_DIR "md_exchange_rate_d.csv");
    ("ds.md_ledger_account_s", path_join DATA_DIR "md_ledger_account_s.csv") ].

(** The values are a list of key columns or [None]. *)
Definition PRIMARY_KEYS : Py.dict (option (list string)) :=
  [ ("ds.ft_balance_f", Some ["on_date"; "account_rk"]);
    ("ds.ft_posting_f", None);
    ("ds.md_account_d", Some ["data_actual_date"; "account_rk"]);
    ("ds.md_currency_d", Some ["currency_rk"; "data_actual_date"]);
    ("ds.md_exchange_rate_d", Some ["data_actual_date"; "currency_rk"]);
    ("ds.md_ledger_account_s", Some ["ledger_account"; "start_date"]) ].

End Config.

(** ** The insert statement (lines 179-199) *)

Section Planner.

(** The key table the statement is built from; [Config.PRIMARY_KEYS] in
    the program. *)
Variable PRIMARY_KEYS : Py.dict (option (list string)).

(** [PRIMARY_KEYS.get(table_name)]: [None] for a missing table and for a
    table mapped to [None]. *)
Definition PRIMARY_KEYS_get (table_name : string) : option (list string) :=
  match Py.lookup PRIMARY_KEYS table_name with
  | Some v => v
  | None => None
  end.

(** Truth value of what [.get] returned: [None] and [[]] are false. *)
Definition truthy (v : option (list string)) : bool :=
  match v with
  | Some (_ :: _) => true
  | _ => false
  end.

(** [PRIMARY_KEYS[table_name]], read only where [.get] was true. *)
Definition PRIMARY_KEYS_item (table_name : string) : list string :=
  match PRIMARY_KEYS_get table_name with
  | Some l => l
  | None => []
  end.

Definition quoted (col : string) : string := Py.dquote ++ col ++ Py.dquote.

Definition columns_str (cols : list string) : string :=
  Py.join ", " (map quoted cols).

Definition placeholders (cols : list string) : string :=
  Py.join ", " (repeat "%s" (length cols)).

Definition excluded_assignment (col : string) : string :=
  quoted col ++ " = EXCLUDED." ++ quoted col.

(** Lines 184-187. *)
Definition base_insert (table_name : string) (cols : list string) : string :=
  Py.newline
  ++ "        INSERT INTO " ++ table_name ++ " (" ++ columns_str cols ++ ")"
  ++ Py.newline
  ++ "        VALUES (" ++ placeholders cols ++ ")"
  ++ Py.newline
  ++ "        ".

(** Lines 184-199: the statement [load_data_from_csv] executes. *)
Definition insert_query (table_name : string) (cols : list string) : string :=
  let q := base_insert table_name cols in
  if truthy (PRIMARY_KEYS_get table_name) then
    let conflict_columns :=
      Py.join ", " (map quoted (PRIMARY_KEYS_item table_name)) in
    let update_columns :=
      Py.join ", "
        (map excluded_assignment
           (filter (fun col => negb (Py.mem col (PRIMARY_KEYS_item table_name)))
                   cols)) in
    q ++ (Py.newline
          ++ "            ON CONFLICT (" ++ conflict_columns ++ ") "
          ++ Py.newline
          ++ "            DO UPDATE SET " ++ update_columns
          ++ Py.newline
          ++ "            ")
  else q.

End Planner.

(** The planned statement as the specification describes it: the column
    list, one placeholder per column, and an optional conflict clause made
    of the key columns and the columns to overwrite.  Its text is spelled
    out here on its own, without the functions of the program. *)
Module PlanSpec.

Definition double_quote : string := String "034"%char EmptyString.

(** A column name between double quotes. *)
Definition quoted_name (c : string) : string :=
  double_quote ++ c ++ double_quote.

(** The assignment of the incoming value to a column. *)
Definition overwrite (c : string) : string :=
  double_quote ++ c ++ double_quote ++ " = EXCLUDED."
  ++ double_quote ++ c ++ double_quote.

Record ConflictClause := {
  conflict_keys : list string;
  update_targets : list string
}.

Record PlannedStatement := {
  target : string;
  insert_columns : list string;
  parameter_count : nat;
  on_conflict : option ConflictClause
}.

(** Non-empty key list: conflict clause on those keys overwriting every
    other column; no key: plain insert. *)
Definition plan (keys : option (list string)) (table_name : string)
                (cols : list string) : PlannedStatement :=
  {| target := table_name;
     insert_columns := cols;
     parameter_count := length cols;
     on_conflict :=
       match keys with
       | Some (k :: ks) =>
           Some {| conflict_keys := k :: ks;
                   update_targets :=
                     filter (fun c => negb (Py.mem c (k :: ks))) cols |}
       | _ => None
       end |}.

Definition render_conflict (c : ConflictClause) : string :=
  Py.newline
  ++ "            ON CONFLICT ("
  ++ Py.join ", " (map quoted_name (conflict_keys c)) ++ ") "
  ++ Py.newline
  ++ "            DO UPDATE SET "
  ++ Py.join ", " (map overwrite (update_targets c))
  ++ Py.newline
  ++ "            ".

Definition render (p : PlannedStatement) : string :=
  Py.newline
  ++ "        INSERT INTO " ++ target p
  ++ " (" ++ Py.join ", " (map quoted_name (insert_columns p)) ++ ")"
  ++ Py.newline
  ++ "        VALUES (" ++ Py.join ", " (repeat "%s" (parameter_count p)) ++ ")"
  ++ Py.newline
  ++ "        "
  ++ match on_conflict p with
     | Some c => render_conflict c
     | None => EmptyString
     end.

End PlanSpec.

(** ** Exceptions and results *)

(** A raised exception: its class and the text [str(e)] yields.  Every
    exception of the model derives from [Exception]. *)
Record Exn := mkExn {
  exn_class : string;
  exn_str : string
}.

Inductive result (A : Type) :=
| Ok (a : A)
| Raise (e : Exn).
Arguments Ok {A} a.
Arguments Raise {A} e.

Definition KeyError (key : string) : Exn :=
  mkExn "KeyError" (Py.repr_str key).
Definition ValueError (msg : string) : Exn := mkExn "ValueError" msg.
Definition TypeError (msg : string) : Exn := mkExn "TypeError" msg.

(** ** Dates: [pd.to_datetime(..., format='%d.%m.%Y', errors='coerce')]
       followed by [.dt.strftime('%Y-%m-%d')] *)

Module Dates.

Record Date := mkDate { year : nat; month : nat; day : nat }.

Definition value_of_digit (c : ascii) : nat := nat_of_ascii c - 48.

Fixpoint number_of (s : string) (acc : nat) : nat :=
  match s with
  | EmptyString => acc
  | String c r => number_of r (10 * acc + value_of_digit c)
  end.

Definition is_nonzero_digit (c : ascii) : bool :=
  Py.is_digit c && negb (Ascii.eqb c "0").

(** The directive %d: 3[0-1] | [1-2]\d | 0[1-9] | [1-9] | space[1-9] *)
Definition match_d (s : string) : option nat :=
  match s with
  | String a (String b EmptyString) =>
      if (Ascii.eqb a "3" && (Ascii.eqb b "0" || Ascii.eqb b "1"))
         || ((Ascii.eqb a "1" || Ascii.eqb a "2") && Py.is_digit b)
         || (Ascii.eqb a "0" && is_nonzero_digit b)
      then Some (number_of s 0)
      else if Ascii.eqb a " " && is_nonzero_digit b
      then Some (value_of_digit b)
      else None
  | String a EmptyString =>
      if is_nonzero_digit a then Some (value_of_digit a) else None
  | _ => None
  end.

(** The directive %m: 1[0-2] | 0[1-9] | [1-9] *)
Definition match_m (s : string) : option nat :=
  match s with
  | String a (String b EmptyString) =>
      if (Ascii.eqb a "1" && (Ascii.eqb b "0" || Ascii.eqb b "1" || Ascii.eqb b "2"))
         || (Ascii.eqb a "0" && is_nonzero_digit b)
      then Some (number_of s 0)
      else None
  | String a EmptyString =>
      if is_nonzero_digit a then Some (value_of_digit a) else None
  | _ => None
  end.

(** The directive %Y: four digits. *)
Definition match_Y (s : string) : option nat :=
  match s with
  | String a (String b (String c (String d EmptyString))) =>
      if Py.is_digit a && Py.is_digit b && Py.is_digit c && Py.is_digit d
      then Some (number_of s 0)
      else None
  | _ => None
  end.

(** The text before the first full stop, and the text after it. *)
Fixpoint split_dot (s : string) : option (string * string) :=
  match s with
  | EmptyString => None
  | String c r =>
      if Ascii.eqb c "."
      then Some (EmptyString, r)
      else match split_dot r with
           | Some (a, b) => Some (String c a, b)
           | None => None
           end
  end.

Definition is_leap (y : nat) : bool :=
  (y mod 4 =? 0)%nat && (negb (y mod 100 =? 0)%nat || (y mod 400 =? 0)%nat).

Definition days_in_month (y m : nat) : nat :=
  match m with
  | 1 | 3 | 5 | 7 | 8 | 10 | 12 => 31
  | 4 | 6 | 9 | 11 => 30
  | 2 => if is_leap y then 29 else 28
  | _ => 0
  end.

(** Midnights a nanosecond timestamp can hold:
    1677-09-22 .. 2262-04-11.  Which dates a timestamp can hold depends on
    the version of pandas; the parser below takes the bounds as a
    parameter, and this is the instance for nanoseconds. *)
Definition on_or_after (d : Date) (y m dd : nat) : bool :=
  ((y <? year d)
   || ((year d =? y) && ((m <? month d) || ((month d =? m) && (dd <=? day d)))))%nat.

Definition on_or_before (d : Date) (y m dd : nat) : bool :=
  ((year d <? y)
   || ((year d =? y) && ((month d <? m) || ((month d =? m) && (day d <=? dd)))))%nat.

Definition in_bounds (d : Date) : bool :=
  on_or_after d 1677 9 22 && on_or_before d 2262 4 11.

Definition valid (bounds : Date -> bool) (d : Date) : bool :=
  ((1 <=? month d) && (month d <=? 12) && (1 <=? day d)
   && (day d <=? days_in_month (year d) (month d)))%nat
  && bounds d.

(** Whole-string match of day.month.year, then the calendar and range
    checks; [None] is NaT. *)
Definition strptime_dmY (bounds : Date -> bool) (s : string) : option Date :=
  match split_dot s with
  | Some (ds, rest) =>
      match split_dot rest with
      | Some (ms, ys) =>
          match match_d ds, match_m ms, match_Y ys with
          | Some d, Some m, Some y =>
              let date := mkDate y m d in
              if valid bounds date then Some date else None
          | _, _, _ => None
          end
      | None => None
      end
  | None => None
  end.

Definition two_digits (n : nat) : string :=
  String (Py.digit_char (n / 10 mod 10))
    (String (Py.digit_char (n mod 10)) EmptyString).

Definition four_digits (n : nat) : string :=
  String (Py.digit_char (n / 1000 mod 10))
    (String (Py.digit_char (n / 100 mod 10)) (two_digits n)).

(** [strftime('%Y-%m-%d')] *)
Definition strftime_Ymd (d : Date) : string :=
  four_digits (year d) ++ "-" ++ two_digits (month d) ++ "-" ++ two_digits (day d).

(** Text of the shape dddd-dd-dd. *)
Definition is_iso (s : string) : bool :=
  match s with
  | String y1 (String y2 (String y3 (String y4 (String h1
      (String m1 (String m2 (String h2 (String d1 (String d2 EmptyString))))))))) =>
      Py.is_digit y1 && Py.is_digit y2 && Py.is_digit y3 && Py.is_digit y4
      && Ascii.eqb h1 "-"
      && Py.is_digit m1 && Py.is_digit m2
      && Ascii.eqb h2 "-"
      && Py.is_digit d1 && Py.is_digit d2
  | _ => false
  end.

End Dates.

(** ** Table-specific normalisation (lines 152-167) *)

Section Normalizer.

(** [str(x)] for a float that is not NaN. *)
Variable float_str : Float -> string.

(** The dates a timestamp of the pandas in use can hold. *)
Variable timestamp_bounds : Dates.Date -> bool.

(** [str(x)], which [astype(str)] applies to every cell. *)
Definition py_str (x : Value) : string :=
  match x with
  | VStr s => s
  | VInt z => Py.str_int z
  | VFloat p => float_str p
  | VNaN => "nan"
  | VNone => "None"
  end.

(** One cell through [pd.to_datetime(..., errors='coerce')]: missing
    cells are NaT, the others are parsed from their text. *)
Definition to_datetime_coerce (x : Value) : option Dates.Date :=
  if pd_isna x then None else Dates.strptime_dmY timestamp_bounds (py_str x).

(** [.dt.strftime('%Y-%m-%d')]: NaT gives NaN. *)
Definition dt_strftime (d : option Dates.Date) : Value :=
  match d with
  | Some d => VStr (Dates.strftime_Ymd d)
  | None => VNaN
  end.

(** Line 157, on one cell. *)
Definition reformat_on_date (x : Value) : Value :=
  dt_strftime (to_datetime_coerce x).

Definition sentinels : list string := ["nan"; "None"; "<NA>"].

(** Line 165, on one cell: [astype(str)] then
    [replace(['nan', 'None', '<NA>'], None)]. *)
Definition astype_str_replace (x : Value) : Value :=
  let s := py_str x in
  if Py.mem s sentinels then VNone else VStr s.

(** Line 167, on one cell. *)
Definition truncate3 (x : Value) : Value :=
  match x with
  | VStr s => VStr (Py.take 3 s)
  | _ => x
  end.

(** Apply [f] to the elements of [row] that stand under the label [col],
    every time the label occurs. *)
Fixpoint map_labelled {A} (col : string) (f : A -> A)
                      (labels : list string) (row : list A) : list A :=
  match labels, row with
  | l :: ls, x :: xs =>
      (if String.eqb l col then f x else x) :: map_labelled col f ls xs
  | _, _ => row
  end.

(** [df[col] = f(df[col])] for an element-wise [f] whose result is a
    column of text and missing values: the cells under the label are
    rewritten and the column is an object column afterwards. *)
Definition map_column (col : string) (f : Value -> Value) (df : DataFrame)
  : DataFrame :=
  {| columns := columns df;
     dtypes := map_labelled col (fun _ => object) (columns df) (dtypes df);
     rows := map (map_labelled col f (columns df)) (rows df) |}.

(** Line 153: [df.columns = df.columns.str.strip().str.lower()] *)
Definition normalize_columns (df : DataFrame) : DataFrame :=
  {| columns := map (fun c => Py.lower (Py.strip c)) (columns df);
     dtypes := dtypes df;
     rows := rows df |}.

(** How often a label occurs. *)
Definition occurrences (col : string) (labels : list string) : nat :=
  length (filter (String.eqb col) labels).

(** Line 157.  [df['on_date']] raises [KeyError] without the label and is
    a column when the label occurs once.  When the label occurs several
    times it is a frame, and [pd.to_datetime] of a frame with repeated
    labels raises [ValueError]. *)
Definition reformat_dates (df : DataFrame) : result DataFrame :=
  match occurrences "on_date" (columns df) with
  | 0 => Raise (KeyError "on_date")
  | 1 => Ok (map_column "on_date" reformat_on_date df)
  | _ => Raise (ValueError "cannot assemble with duplicate keys")
  end.

Definition str_cols : list string := ["currency_code"; "code_iso_char"].

(** Lines 162-167 for one designated column.  Line 165 is element-wise
    on a column and on a frame alike.  On line 167 [apply] hands the
    function the cells of a column; when the label occurs several times
    [df[col]] is a frame, [apply] hands it whole columns, which are not
    [str], and nothing is cut. *)
Definition clean_str_col (df : DataFrame) (col : string) : DataFrame :=
  match occurrences col (columns df) with
  | 0 => df
  | 1 => map_column col truncate3 (map_column col astype_str_replace df)
  | _ => map_column col astype_str_replace df
  end.

(** Lines 153-167 of [load_data_from_csv]. *)
Definition normalize_frame (table_name : string) (df : DataFrame)
  : result DataFrame :=
  let df := normalize_columns df in
  match (if String.eqb table_name "ds.ft_balance_f"
         then reformat_dates df
         else Ok df) with
  | Raise e => Raise e
  | Ok df =>
      Ok (if String.eqb table_name "ds.md_currency_d"
          then fold_left clean_str_col str_cols df
          else df)
  end.

End Normalizer.

(** ** The connection, the audit table and the trace *)

(** A statement parameter: a cell value or a [datetime]. *)
Inductive Param :=
| PValue (v : Value)
| PTime (t : Z).

(** The calls the program makes on the connection and its cursors. *)
Inductive DbOp :=
| connect
| cursor
| execute (query : string) (params : list Param)
| execute_batch (query : string) (argslist : list (list Value)) (page_size : nat)
| fetchone
| commit
| rollback
| close.

(** Calls of the program's own functions; they are recorded in the trace
    so that theorems can speak of how often a function is entered. *)
Inductive Call :=
| call_load_data_from_csv (table_name file_path : string)
| call_log_etl_start (table_name : string)
| call_log_etl_end (log_id : Value) (table_name status : string)
                   (records_processed : Z) (error_msg : option string)
| call_execute_sql (query : string) (params : list Param)
| call_read_csv_with_encoding_tries (file_path : string).

Inductive Level := INFO | WARNING | ERROR.

(** The records handed to [logger], with the values their f-strings
    interpolate. *)
Inductive Message :=
| msg_connected                                              (* line 70 *)
| msg_connect_failed (e : string)                            (* line 73 *)
| msg_query_failed (e query : string)                        (* line 85 *)
| msg_log_start_failed (e : string)                          (* line 104 *)
| msg_file_read (file_path encoding : string)                (* line 132 *)
| msg_encoding_failed (encoding e : string)                  (* line 135 *)
| msg_load_begin (table_name file_path : string)             (* line 142 *)
| msg_truncated (table_name : string)                        (* line 173 *)
| msg_loaded (records_processed : Z) (table_name : string)   (* line 215 *)
| msg_insert_failed (error_msg : string)                     (* line 220 *)
| msg_samples                                                (* line 223 *)
| msg_sample (sample : DataFrame)                            (* line 225 *)
| msg_load_failed (table_name error_msg : string)            (* line 230 *)
| msg_file_missing (file_path : string)                      (* line 245 *)
| msg_files_missing (missing_files : list string)            (* line 248 *)
| msg_etl_begin                                              (* line 256 *)
| msg_delay                                                  (* line 266 *)
| msg_table_aborted (table_name e : string)                  (* line 274 *)
| msg_etl_done                                               (* line 277 *)
| msg_critical (e : string)                                  (* line 280 *)
| msg_closed.                                                (* line 284 *)

Inductive Event :=
| Enter (c : Call)
| Db (op : DbOp) (raised : option Exn)
| Logged (level : Level) (message : Message).

(** A row of [logs.etl_logs]. *)
Record RunRecord := mkRunRecord {
  rr_log_id : Z;
  rr_table_name : string;
  rr_start_time : Z;
  rr_end_time : option Z;
  rr_status : string;
  rr_records_processed : Z;
  rr_error_message : Value
}.

(** What a committed statement did to the warehouse tables; the SQL itself
    is not evaluated. *)
Inductive Effect :=
| Truncated
| Batch (query : string) (argslist : list (list Value)).

Record Store := mkStore {
  etl_logs : list RunRecord;
  journal : list Effect
}.

(** The state the program acts on: the database as committed and as seen
    inside the open transaction, the [log_id] sequence, the result the
    cursor holds, the trace of events, and the variables that handlers and
    [finally] clauses read after a raise ([conn] of [main]; [error_msg]
    and [records_processed] of [load_data_from_csv]). *)
Record State := mkState {
  committed : Store;
  working : Store;
  next_log_id : Z;
  cursor_row : option (list Value);
  trace : list Event;
  conn_is_set : bool;
  error_msg : option string;
  records_processed : Z
}.

(** Lines 90-95. *)
Definition log_start_query : string :=
  Py.newline ++ "    INSERT INTO logs.etl_logs "
  ++ Py.newline ++ "    (table_name, start_time, status, records_processed) "
  ++ Py.newline ++ "    VALUES (%s, %s, %s, %s)"
  ++ Py.newline ++ "    RETURNING log_id;"
  ++ Py.newline ++ "    ".

(** Lines 109-113. *)
Definition log_end_query : string :=
  Py.newline ++ "    UPDATE logs.etl_logs "
  ++ Py.newline
  ++ "    SET end_time = %s, status = %s, records_processed = %s, error_message = %s"
  ++ Py.newline ++ "    WHERE log_id = %s;"
  ++ Py.newline ++ "    ".

(** Line 171. *)
Definition truncate_query : string := "TRUNCATE TABLE ds.ft_posting_f;".

Definition update_record (t : Z) (status : string) (n : Z) (err : Value)
                         (id : Z) (r : RunRecord) : RunRecord :=
  if Z.eqb (rr_log_id r) id
  then mkRunRecord (rr_log_id r) (rr_table_name r) (rr_start_time r)
                   (Some t) status n err
  else r.

(** What the database does with a statement that it accepts: the two audit
    statements act on [logs.etl_logs], TRUNCATE is journalled, anything
    else leaves the modelled tables alone.  The second component is the
    row the statement returns. *)
Definition run_statement (query : string) (params : list Param) (next_id : Z)
                         (s : Store) : Store * option (list Value) :=
  if String.eqb query log_start_query then
    match params with
    | [PValue (VStr table); PTime t; PValue (VStr status); PValue (VInt n)] =>
        (mkStore (etl_logs s
                  ++ [mkRunRecord next_id table t None status n VNone])
                 (journal s),
         Some [VInt next_id])
    | _ => (s, None)
    end
  else if String.eqb query log_end_query then
    match params with
    | [PTime t; PValue (VStr status); PValue (VInt n); PValue err;
       PValue (VInt id)] =>
        (mkStore (map (update_record t status n err id) (etl_logs s))
                 (journal s),
         None)
    | _ => (s, None)
    end
  else if String.eqb query truncate_query then
    (mkStore (etl_logs s) (journal s ++ [Truncated]), None)
  else (s, None).

(** ** The environment *)

(** Everything the program does not decide: the text of floats, the dates
    a timestamp can hold, the text of the [KeyError] of a selection (from
    the labels asked for and the labels missing), the files and the parser,
    the moments when a database call raises, the clock. *)
Record World := mkWorld {
  float_str : Float -> string;
  timestamp_bounds : Dates.Date -> bool;
  key_error_text : list string -> list string -> string;
  pd_read_csv : string -> string -> string -> result DataFrame;
  open_rb_read : string -> result (list Byte.byte);
  decode_utf_16_le : list Byte.byte -> result string;
  pd_read_csv_text : string -> string -> result DataFrame;
  os_path_exists : string -> bool;
  db_raises : list Event -> DbOp -> option Exn;
  datetime_now : list Event -> Z
}.

(** ** Programs *)

Definition M (A : Type) : Type := State -> result A * State.

Definition ret {A} (a : A) : M A := fun st => (Ok a, st).

Definition bind {A B} (m : M A) (k : A -> M B) : M B :=
  fun st =>
    match m st with
    | (Ok a, st') => k a st'
    | (Raise e, st') => (Raise e, st')
    end.

Definition raise {A} (e : Exn) : M A := fun st => (Raise e, st).

(** [try: body  except Exception as e: handler e] *)
Definition try_except {A} (body : M A) (handler : Exn -> M A) : M A :=
  fun st =>
    match body st with
    | (Ok a, st') => (Ok a, st')
    | (Raise e, st') => handler e st'
    end.

(** [try: body  finally: final]: an exception of [final] replaces the
    outcome of [body]. *)
Definition try_finally {A} (body : M A) (final : M unit) : M A :=
  fun st =>
    match body st with
    | (r, st') =>
        match final st' with
        | (Ok _, st'') => (r, st'')
        | (Raise e, st'') => (Raise e, st'')
        end
    end.

Definition lift {A} (r : result A) : M A := fun st => (r, st).

Declare Scope prog_scope.
Delimit Scope prog_scope with prog.
Notation "x <- m ;; k" := (bind m (fun x => k))
  (at level 61, m at next level, right associativity) : prog_scope.
Notation "m ;; k" := (bind m (fun _ => k))
  (at level 61, right associativity) : prog_scope.
Local Open Scope prog_scope.

Definition emit (ev : Event) : M unit :=
  fun st =>
    (Ok tt,
     mkState (committed st) (working st) (next_log_id st) (cursor_row st)
             (trace st ++ [ev]) (conn_is_set st) (error_msg st)
             (records_processed st)).

Definition enter (c : Call) : M unit := emit (Enter c).
Definition logger (level : Level) (m : Message) : M unit := emit (Logged level m).

Definition set_error_msg (v : option string) : M unit :=
  fun st =>
    (Ok tt,
     mkState (committed st) (working st) (next_log_id st) (cursor_row st)
             (trace st) (conn_is_set st) v (records_processed st)).

Definition set_records_processed (n : Z) : M unit :=
  fun st =>
    (Ok tt,
     mkState (committed st) (working st) (next_log_id st) (cursor_row st)
             (trace st) (conn_is_set st) (error_msg st) n).

Definition set_conn (b : bool) : M unit :=
  fun st =>
    (Ok tt,
     mkState (committed st) (working st) (next_log_id st) (cursor_row st)
             (trace st) b (error_msg st) (records_processed st)).

Definition get_state : M State := fun st => (Ok st, st).

(** The database side of a call that returned. *)
Definition db_effect (op : DbOp) (st : State) : State :=
  match op with
  | execute query params =>
      let '(w, row) := run_statement query params (next_log_id st) (working st) in
      mkState (committed st) w
              (if String.eqb query log_start_query
               then (next_log_id st + 1)%Z else next_log_id st)
              row (trace st) (conn_is_set st) (error_msg st)
              (records_processed st)
  | execute_batch query argslist _ =>
      mkState (committed st)
              (mkStore (etl_logs (working st))
                       (journal (working st) ++ [Batch query argslist]))
              (next_log_id st) None (trace st) (conn_is_set st) (error_msg st)
              (records_processed st)
  | commit =>
      mkState (working st) (working st) (next_log_id st) (cursor_row st)
              (trace st) (conn_is_set st) (error_msg st) (records_processed st)
  | rollback =>
      mkState (committed st) (committed st) (next_log_id st) (cursor_row st)
              (trace st) (conn_is_set st) (error_msg st) (records_processed st)
  | connect | cursor | fetchone | close => st
  end.

(** The database side of a call that raised: a transaction whose commit or
    rollback raised is lost; other calls change nothing. *)
Definition db_failure (op : DbOp) (st : State) : State :=
  match op with
  | commit | rollback =>
      mkState (committed st) (committed st) (next_log_id st) (cursor_row st)
              (trace st) (conn_is_set st) (error_msg st) (records_processed st)
  | _ => st
  end.

Definition record (ev : Event) (st : State) : State :=
  mkState (committed st) (working st) (next_log_id st) (cursor_row st)
          (trace st ++ [ev]) (conn_is_set st) (error_msg st)
          (records_processed st).

Section Program.

Variable TABLE_FILE_MAPPING : Py.dict string.
Variable PRIMARY_KEYS : Py.dict (option (list string)).
Variable W : World.

(** One call on the connection or a cursor. *)
Definition db (op : DbOp) : M unit :=
  fun st =>
    match db_raises W (trace st) op with
    | Some e => (Raise e, record (Db op (Some e)) (db_failure op st))
    | None => (Ok tt, record (Db op None) (db_effect op st))
    end.

(** [datetime.now()] *)
Definition now : M Z := fun st => (Ok (datetime_now W (trace st)), st).

(** [cursor.fetchone()[0]] *)
Definition fetchone_item0 : M Value :=
  db fetchone ;;
  st <- get_state ;;
  match cursor_row st with
  | None => raise (TypeError "'NoneType' object is not subscriptable")
  | Some [] => raise (mkExn "IndexError" "tuple index out of range")
  | Some (v :: _) => ret v
  end.

(** Lines 76-86. *)
Definition execute_sql (query : string) (params : list Param) : M bool :=
  enter (call_execute_sql query params) ;;
  db cursor ;;
  try_except
    (db (execute query params) ;;
     db commit ;;
     ret true)
    (fun e =>
       db rollback ;;
       logger ERROR (msg_query_failed (exn_str e) query) ;;
       raise e).

(** Lines 88-105. *)
Definition log_etl_start (table_name : string) : M Value :=
  enter (call_log_etl_start table_name) ;;
  db cursor ;;
  try_except
    (t <- now ;;
     db (execute log_start_query
           [PValue (VStr table_name); PTime t; PValue (VStr "started");
            PValue (VInt 0)]) ;;
     log_id <- fetchone_item0 ;;
     db commit ;;
     ret log_id)
    (fun e =>
       db rollback ;;
       logger ERROR (msg_log_start_failed (exn_str e)) ;;
       raise e).

Definition param_of_error (error_msg : option string) : Param :=
  match error_msg with
  | Some m => PValue (VStr m)
  | None => PValue VNone
  end.

(** Lines 107-114. *)
Definition log_etl_end (log_id : Value) (table_name status : string)
                       (records_processed : Z) (error_msg : option string)
  : M unit :=
  enter (call_log_etl_end log_id table_name status records_processed error_msg) ;;
  t <- now ;;
  execute_sql log_end_query
    [PTime t; PValue (VStr status); PValue (VInt records_processed);
     param_of_error error_msg; PValue log_id] ;;
  ret tt.

(** Line 118. *)
Definition encodings : list string :=
  ["utf-8-sig"; "cp1251"; "latin1"; "utf-16-le"].

(** [content.startswith(b'\xff\xfe')] *)
Definition starts_with_bom (content : list Byte.byte) : bool :=
  match content with
  | Byte.xff :: Byte.xfe :: _ => true
  | _ => false
  end.

(** Lines 122-130: one attempt, without its logging. *)
Definition read_with (file_path encoding : string) : result DataFrame :=
  if String.eqb encoding "utf-16-le" then
    match open_rb_read W file_path with
    | Raise e => Raise e
    | Ok content =>
        let content :=
          if starts_with_bom content then skipn 2 content else content in
        match decode_utf_16_le W content with
        | Raise e => Raise e
        | Ok decoded => pd_read_csv_text W decoded ";"
        end
    end
  else pd_read_csv W file_path ";" encoding.

(** Line 138. *)
Definition unreadable (file_path : string) : Exn :=
  ValueError ("Не удалось прочитать файл " ++ file_path
              ++ " ни с одной из кодировок: " ++ Py.repr_list encodings).

(** Lines 120-138: the loop over the remaining encodings. *)
Fixpoint try_encodings (file_path : string) (remaining : list string)
  : M DataFrame :=
  match remaining with
  | [] => raise (unreadable file_path)
  | encoding :: rest =>
      match read_with file_path encoding with
      | Ok df =>
          logger INFO (msg_file_read file_path encoding) ;;
          ret df
      | Raise e =>
          logger WARNING (msg_encoding_failed encoding (exn_str e)) ;;
          try_encodings file_path rest
      end
  end.

(** Lines 116-138. *)
Definition read_csv_with_encoding_tries (file_path : string) : M DataFrame :=
  enter (call_read_csv_with_encoding_tries file_path) ;;
  try_encodings file_path encodings.

(** [df[cols].head(5)] *)
Definition cell_under (labels : list string) (row : list Value) (col : string)
  : Value :=
  match Py.lookup (combine labels row) col with
  | Some v => v
  | None => VNaN
  end.

Definition dtype_under (df : DataFrame) (col : string) : Dtype :=
  match Py.lookup (combine (columns df) (dtypes df)) col with
  | Some d => d
  | None => object
  end.

Definition sample_of (df : DataFrame) (cols : list string) : result DataFrame :=
  match filter (fun c => negb (Py.mem c (columns df))) cols with
  | [] =>
      Ok {| columns := cols;
            dtypes := map (dtype_under df) cols;
            rows := firstn 5 (map (fun row => map (cell_under (columns df) row) cols)
                                  (rows df)) |}
  | missing =>
      Raise (mkExn "KeyError" (key_error_text W cols missing))
  end.

(** Lines 202-226: the batch insert in its transaction. *)
Definition insert_batch (table_name : string) (df : DataFrame)
                        (query : string) (tuples : list (list Value)) : M unit :=
  db cursor ;;
  db (execute "BEGIN;" []) ;;
  try_except
    (db (execute_batch query tuples 1000) ;;
     set_records_processed (Z.of_nat (length tuples)) ;;
     db commit ;;
     logger INFO (msg_loaded (Z.of_nat (length tuples)) table_name))
    (fun e =>
       db rollback ;;
       set_error_msg (Some (exn_str e)) ;;
       logger ERROR (msg_insert_failed (exn_str e)) ;;
       (if String.eqb table_name "ds.md_currency_d"
        then logger INFO msg_samples ;;
             sample <- lift (sample_of df ["currency_code"; "code_iso_char"]) ;;
             logger INFO (msg_sample sample)
        else ret tt) ;;
       raise e).

(** Lines 149-226: the body of the outer [try]. *)
Definition load_body (table_name file_path : string) : M unit :=
  df <- read_csv_with_encoding_tries file_path ;;
  df <- lift (normalize_frame (float_str W) (timestamp_bounds W) table_name df) ;;
  (if String.eqb table_name "ds.ft_posting_f"
   then execute_sql truncate_query [] ;;
        logger INFO (msg_truncated table_name)
   else ret tt) ;;
  let tuples := data_tuples df in
  let query := insert_query PRIMARY_KEYS table_name (columns df) in
  insert_batch table_name df query tuples.

(** Lines 233-235. *)
Definition load_finally (log_id : Value) (table_name : string) : M unit :=
  st <- get_state ;;
  let status :=
    match error_msg st with
    | None => "completed"
    | Some _ => "failed"
    end in
  log_etl_end log_id table_name status (records_processed st) (error_msg st).

(** Lines 140-237. *)
Definition load_data_from_csv (table_name file_path : string) : M Z :=
  enter (call_load_data_from_csv table_name file_path) ;;
  logger INFO (msg_load_begin table_name file_path) ;;
  log_id <- log_etl_start table_name ;;
  set_error_msg None ;;
  set_records_processed 0 ;;
  try_finally
    (try_except
       (load_body table_name file_path)
       (fun e =>
          set_error_msg (Some (exn_str e)) ;;
          logger ERROR (msg_load_failed table_name (exn_str e)) ;;
          raise e))
    (load_finally log_id table_name) ;;
  st <- get_state ;;
  ret (records_processed st).

(** Lines 239-250. *)
Definition check_files_exist : M bool :=
  let missing_files :=
    filter (fun file_path => negb (os_path_exists W file_path))
           (map snd TABLE_FILE_MAPPING) in
  fold_right (fun file_path k => logger WARNING (msg_file_missing file_path) ;; k)
             (ret tt) missing_files ;;
  match missing_files with
  | [] => ret true
  | _ => logger ERROR (msg_files_missing missing_files) ;; ret false
  end.

(** Lines 65-74. *)
Definition create_connection : M unit :=
  try_except
    (db connect ;;
     logger INFO msg_connected)
    (fun e =>
       logger ERROR (msg_connect_failed (exn_str e)) ;;
       raise e).

(** Lines 270-275: the loop over the configured tables. *)
Fixpoint load_tables (items : list (string * string)) : M unit :=
  match items with
  | [] => ret tt
  | (table_name, file_path) :: rest =>
      try_except
        (load_data_from_csv table_name file_path ;; ret tt)
        (fun e => logger ERROR (msg_table_aborted table_name (exn_str e))) ;;
      load_tables rest
  end.

(** Lines 252-284. *)
Definition main : M unit :=
  set_conn false ;;
  try_finally
    (try_except
       (logger INFO msg_etl_begin ;;
        ok <- check_files_exist ;;
        if ok : bool then
          create_connection ;;
          set_conn true ;;
          logger INFO msg_delay ;;
          load_tables TABLE_FILE_MAPPING ;;
          logger INFO msg_etl_done
        else ret tt)
       (fun e => logger ERROR (msg_critical (exn_str e))))
    (st <- get_state ;;
     if conn_is_set st
     then db close ;; logger INFO msg_closed
     else ret tt).

End Program.

(** ** Observations the properties are stated with *)

(** The text lines 196-199 append for the key columns [keys] and the
    columns [targets] to overwrite. *)
Definition conflict_text (keys targets : list string) : string :=
  Py.newline
  ++ "            ON CONFLICT (" ++ Py.join ", " (map quoted keys) ++ ") "
  ++ Py.newline
  ++ "            DO UPDATE SET " ++ Py.join ", " (map excluded_assignment targets)
  ++ Py.newline
  ++ "            ".

(** Whether the label at position [j] is [col]. *)
Definition label_is (labels : list string) (j : nat) (col : string) : bool :=
  match nth_error labels j with
  | Some l => String.eqb l col
  | None => false
  end.

(** What lines 165 and 167 make of one cell. *)
Definition clean_cell (float_str : Float -> string) (x : Value) : Value :=
  truncate3 (astype_str_replace float_str x).

(** A text for floats, for the concrete runs below: the floats there are
    whole numbers. *)
Definition decimal_float_str (x : Float) : string :=
  match x with
  | FPayload p => Py.str_int p ++ ".0"
  | FOfInt z => Py.str_int z ++ ".0"
  end.

(** The text pandas gives the [KeyError] of a selection when some of the
    labels are missing, for the concrete runs below. *)
Definition missing_labels_text (asked missing : list string) : string :=
  Py.dquote ++ Py.repr_list missing ++ " not in index" ++ Py.dquote.

(** Frames for the concrete runs below. *)
Definition balance_sample : DataFrame :=
  {| columns := [" ON_DATE"; "ACCOUNT_RK"; "BALANCE_OUT"];
     dtypes := [object; int64; float64];
     rows := [ [VStr "15.01.2018"; VInt 36237725; VFloat (FPayload 38318)];
               [VStr "31.02.2018"; VInt 24656; VFloat (FPayload 80533)];
               [VNaN; VInt 18849846; VNaN] ] |}.

Definition currency_sample : DataFrame :=
  {| columns := ["CURRENCY_RK"; "CURRENCY_CODE"; "CODE_ISO_CHAR"];
     dtypes := [int64; float64; object];
     rows := [ [VInt 34; VFloat (FPayload 643); VStr "RUB"];
               [VInt 44; VNaN; VStr "nano"];
               [VInt 50; VFloat (FPayload 840); VStr "USDX"] ] |}.

(** The loads entered, in order. *)
Fixpoint load_calls (evs : list Event) : list (string * string) :=
  match evs with
  | [] => []
  | Enter (call_load_data_from_csv table_name file_path) :: rest =>
      (table_name, file_path) :: load_calls rest
  | _ :: rest => load_calls rest
  end.

Definition is_load_call (ev : Event) : bool :=
  match ev with
  | Enter (call_load_data_from_csv _ _) => true
  | _ => false
  end.

Definition is_end_call (ev : Event) : bool :=
  match ev with
  | Enter (call_log_etl_end _ _ _ _ _) => true
  | _ => false
  end.

(** A call of [execute_sql] with the TRUNCATE statement, or that statement
    on a cursor. *)
Definition is_truncate (ev : Event) : bool :=
  match ev with
  | Enter (call_execute_sql query _) => String.eqb query truncate_query
  | Db (execute query _) _ => String.eqb query truncate_query
  | _ => false
  end.

(** The calls of lines 203-211: BEGIN and the batch. *)
Definition in_batch_transaction (ev : Event) : bool :=
  match ev with
  | Db (execute query _) _ => String.eqb query "BEGIN;"
  | Db (execute_batch _ _ _) _ => true
  | _ => false
  end.

(** A batch that returned. *)
Definition is_batch_done (ev : Event) : bool :=
  match ev with
  | Db (execute_batch _ _ _) None => true
  | _ => false
  end.

Definition raised (ev : Event) : bool :=
  match ev with
  | Db _ (Some _) => true
  | _ => false
  end.

Definition nan_free : list (list Value) -> Prop :=
  Forall (Forall (fun y => y <> VNaN)).

Definition nan_free_batch (ev : Event) : Prop :=
  match ev with
  | Db (execute_batch _ argslist _) _ => nan_free argslist
  | _ => True
  end.

(** The events of a call of [execute_sql] that returns (lines 78-82). *)
Definition executed (query : string) (params : list Param) : list Event :=
  [ Enter (call_execute_sql query params);
    Db cursor None;
    Db (execute query params) None;
    Db commit None ].

(** TRUNCATE run and committed by [execute_sql]. *)
Definition committed_truncate : list Event := executed truncate_query [].

(** The events of a batch insert that commits (lines 202-215). *)
Definition committed_batch (table_name query : string)
    (tuples : list (list Value)) : list Event :=
  [ Db cursor None;
    Db (execute "BEGIN;" []) None;
    Db (execute_batch query tuples 1000) None;
    Db commit None;
    Logged INFO (msg_loaded (Z.of_nat (length tuples)) table_name) ].

(** The first encoding of [remaining] that parses the file: the encodings
    that failed before it, the encoding, and the frame. *)
Fixpoint first_success (W : World) (file_path : string) (remaining : list string)
  : option (list string * string * DataFrame) :=
  match remaining with
  | [] => None
  | encoding :: rest =>
      match read_with W file_path encoding with
      | Ok df => Some ([], encoding, df)
      | Raise _ =>
          match first_success W file_path rest with
          | Some (failed, enc, df) => Some (encoding :: failed, enc, df)
          | None => None
          end
      end
  end.

(** Whether some encoding of the list parses the file. *)
Definition readable (W : World) (file_path : string) : bool :=
  match first_success W file_path encodings with
  | Some _ => true
  | None => false
  end.

(** What an encoding failed with. *)
Definition failure_text (W : World) (file_path encoding : string) : string :=
  match read_with W file_path encoding with
  | Raise e => exn_str e
  | Ok _ => EmptyString
  end.

(** The warnings of line 135 for the encodings [failed]. *)
Definition attempt_log (W : World) (file_path : string) (failed : list string)
  : list Event :=
  map (fun encoding =>
         Logged WARNING
           (msg_encoding_failed encoding (failure_text W file_path encoding)))
      failed.

(** A state with further events on its trace. *)
Definition record_all (evs : list Event) (st : State) : State :=
  mkState (committed st) (working st) (next_log_id st) (cursor_row st)
          (trace st ++ evs) (conn_is_set st) (error_msg st)
          (records_processed st).

Definition fails (W : World) (file_path encoding : string) : Prop :=
  exists e, read_with W file_path encoding = Raise e.

(** Events of the three stages of a load: opening the audit record,
    the body of the [try], closing the audit record. *)
Definition opening_event (ev : Event) : bool :=
  match ev with
  | Enter (call_load_data_from_csv _ _) | Enter (call_log_etl_start _) => true
  | Logged _ _ => true
  | Db cursor _ | Db fetchone _ | Db commit _ | Db rollback _ => true
  | Db (execute query _) _ => String.eqb query log_start_query
  | _ => false
  end.

Definition body_event (posting : bool) (ev : Event) : bool :=
  match ev with
  | Enter (call_read_csv_with_encoding_tries _) => true
  | Enter (call_execute_sql query _) => posting && String.eqb query truncate_query
  | Logged _ _ => true
  | Db cursor _ | Db commit _ | Db rollback _ => true
  | Db (execute query _) _ =>
      (posting && String.eqb query truncate_query) || String.eqb query "BEGIN;"
  | Db (execute_batch _ _ _) _ => true
  | _ => false
  end.

Definition closing_event (ev : Event) : bool :=
  match ev with
  | Enter (call_execute_sql query _) => String.eqb query log_end_query
  | Logged _ _ => true
  | Db cursor _ | Db commit _ | Db rollback _ => true
  | Db (execute query _) _ => String.eqb query log_end_query
  | _ => false
  end.

(** ** Invariants of programs *)

(** [m] keeps [I], however it ends. *)
Definition preserves {A} (I : State -> Prop) (m : M A) : Prop :=
  forall st r st', I st -> m st = (r, st') -> I st'.

(** Since the trace was [base], only events satisfying [Q] were added. *)
Definition emits_only (Q : Event -> Prop) (base : list Event) (st : State) : Prop :=
  exists evs, trace st = base ++ evs /\ Forall Q evs.

(** [Q] admits the log records and the calls every function makes. *)
Definition quiet (Q : Event -> Prop) : Prop :=
  (forall level m, Q (Logged level m))
  /\ (forall e, Q (Db cursor e))
  /\ (forall e, Q (Db commit e))
  /\ (forall e, Q (Db rollback e)).

(** The two variables of [load_data_from_csv] as they stand in a state. *)
Definition locals (st : State) : option string * Z :=
  (error_msg st, records_processed st).

(** The status line 234 computes. *)
Definition status_of (error_msg : option string) : string :=
  match error_msg with
  | None => "completed"
  | Some _ => "failed"
  end.

(** Lines 145-146. *)
Definition reset_locals (st : State) : State :=
  mkState (committed st) (working st) (next_log_id st) (cursor_row st)
          (trace st) (conn_is_set st) None 0%Z.

(** Lines 148-231: the outer [try] with its handler. *)
Definition load_guarded (PRIMARY_KEYS : Py.dict (option (list string)))
    (W : World) (table_name file_path : string) : M unit :=
  try_except
    (load_body PRIMARY_KEYS W table_name file_path)
    (fun e =>
       set_error_msg (Some (exn_str e)) ;;
       logger ERROR (msg_load_failed table_name (exn_str e)) ;;
       raise e).

(** ** Worlds for the concrete runs *)

Definition accounts_frame : DataFrame :=
  {| columns := ["ACCOUNT_RK"; " Currency_Code "];
     dtypes := [int64; object];
     rows := [ [VInt 36237725; VNaN]; [VInt 24656; VStr "810"] ] |}.

Definition decode_error : Exn :=
  mkExn "UnicodeDecodeError" "invalid start byte".

(** A world whose files parse as [parse] says, whose UTF-16 decoding
    always fails, whose database raises where [faults] says, and whose
    clock counts the events so far. *)
Definition world_of (parse : string -> string -> result DataFrame)
    (faults : list Event -> DbOp -> option Exn) : World :=
  {| float_str := decimal_float_str;
     timestamp_bounds := Dates.in_bounds;
     key_error_text := missing_labels_text;
     pd_read_csv := fun file_path _ encoding => parse file_path encoding;
     open_rb_read := fun _ => Ok [Byte.xff; Byte.xfe; Byte.x41; Byte.x00];
     decode_utf_16_le := fun _ => Raise decode_error;
     pd_read_csv_text := fun _ _ => Raise decode_error;
     os_path_exists := fun _ => true;
     db_raises := faults;
     datetime_now := fun tr => Z.of_nat (length tr) |}.

(** Every file parses as Latin-1 only. *)
Definition latin1_only (file_path encoding : string) : result DataFrame :=
  if String.eqb encoding "latin1" then Ok accounts_frame else Raise decode_error.

(** No file parses. *)
Definition unparseable (file_path encoding : string) : result DataFrame :=
  Raise decode_error.

Definition no_faults (tr : list Event) (op : DbOp) : option Exn := None.

Definition empty_store : Store := mkStore [] [].

Definition initial_state : State :=
  mkState empty_store empty_store 1%Z None [] false None 0%Z.

(** Events outside the batch transaction. *)
Definition calm (ev : Event) : Prop :=
  is_batch_done ev = false /\ in_batch_transaction ev = false.

Definition not_done (ev : Event) : Prop := is_batch_done ev = false.

(** How the body of the load ends, given its events [evs]: it returns
    after a committed batch, with the number of tuples counted; or it
    raises, with 0 counted if no batch returned, and the number of tuples
    counted if the batch returned and the commit raised. *)
Definition batch_result (PK : Py.dict (option (list string)))
    (table_name : string) (r : result unit) (st' : State) (evs : list Event)
  : Prop :=
  (r = Ok tt
   /\ error_msg st' = None
   /\ exists pre df J,
        evs = pre ++ committed_batch table_name
                       (insert_query PK table_name (columns df)) (data_tuples df)
        /\ Forall calm pre
        /\ records_processed st' = Z.of_nat (length (data_tuples df))
        /\ journal (committed st')
           = J ++ [Batch (insert_query PK table_name (columns df)) (data_tuples df)])
  \/ (exists e,
        r = Raise e
        /\ (records_processed st' = 0%Z /\ Forall not_done evs
            \/ exists pre query tuples e' post,
                 evs = pre ++ [ Db (execute_batch query tuples 1000) None;
                                Db commit (Some e') ] ++ post
                 /\ Forall not_done pre /\ Forall not_done post
                 /\ records_processed st' = Z.of_nat (length tuples))).


(** The tuples of a batch are the tuples line 176 makes of some frame. *)
Definition sent_frame (ev : Event) : Prop :=
  match ev with
  | Db (execute_batch _ argslist _) _ => exists df, argslist = data_tuples df
  | _ => True
  end.

(** What a load that opened its audit record did: the events [body] of the
    [try] with the outcome [r1] and the state [st2] it left, the call of
    [log_etl_end], and the events [closing] of that call, ending in the
    outcome [r] and the state [st']. *)
Definition attempt_closed (PK : Py.dict (option (list string))) (W : World)
    (table_name file_path : string) (r : result Z) (st' : State)
    (z : Z) (body closing : list Event) (r1 : result unit) (st2 : State) : Prop :=
  let posting := String.eqb table_name "ds.ft_posting_f" in
  Forall (fun ev => body_event posting ev = true /\ sent_frame ev) body
  /\ (exists tail,
        body = Enter (call_read_csv_with_encoding_tries file_path) :: tail)
  /\ batch_result PK table_name r1 st2 body
  /\ match r1 with
     | Ok _ => error_msg st2 = None
     | Raise e => error_msg st2 = Some (exn_str e)
     end
  /\ (In (Enter (call_execute_sql truncate_query [])) body ->
      readable W file_path = true)
  /\ (posting = true -> readable W file_path = true ->
      In (Enter (call_execute_sql truncate_query [])) body)
  /\ (posting = true ->
      Exists (fun ev => in_batch_transaction ev = true) body ->
      exists pre post, body = pre ++ committed_truncate ++ post /\ Forall calm pre)
  /\ Forall (fun ev => closing_event ev = true) closing
  /\ (Forall (fun ev => raised ev = false) closing
      /\ r = match r1 with
             | Ok _ => Ok (records_processed st2)
             | Raise e => Raise e
             end
      /\ Forall (fun rec => rr_log_id rec = z ->
                            rr_status rec = status_of (error_msg st2)
                            /\ rr_records_processed rec = records_processed st2)
                (etl_logs (committed st'))
      \/ Exists (fun ev => raised ev = true) closing
         /\ (exists e, r = Raise e)
         /\ committed st' = committed st2).

(** The database rejects the UPDATE of the audit row. *)
Definition end_update_fails (tr : list Event) (op : DbOp) : option Exn :=
  match op with
  | execute query _ =>
      if String.eqb query log_end_query
      then Some (mkExn "OperationalError" "server closed the connection unexpectedly")
      else None
  | _ => None
  end.

(** The database rejects the commit that follows a batch. *)
Definition batch_commit_fails (tr : list Event) (op : DbOp) : option Exn :=
  match op, rev tr with
  | commit, Db (execute_batch _ _ _) None :: _ =>
      Some (mkExn "IntegrityError" "deferred constraint violated at commit")
  | _, _ => None
  end.

(** The number of calls of [log_etl_end] in a trace. *)
Definition end_calls (evs : list Event) : nat :=
  length (filter is_end_call evs).

(** A load of the account table from a file that parses as Latin-1. *)
Definition accounts_run (faults : list Event -> DbOp -> option Exn)
  : result Z * State :=
  load_data_from_csv Config.PRIMARY_KEYS (world_of latin1_only faults)
    "ds.md_account_d" "md_account_d.csv" initial_state.

(** A load of the posting table from a file that parses, and from one that
    does not. *)
Definition posting_run : result Z * State :=
  load_data_from_csv Config.PRIMARY_KEYS (world_of latin1_only no_faults)
    "ds.ft_posting_f" "ft_posting_f.csv" initial_state.

Definition posting_unreadable_run : result Z * State :=
  load_data_from_csv Config.PRIMARY_KEYS (world_of unparseable no_faults)
    "ds.ft_posting_f" "ft_posting_f.csv" initial_state.

(** ** Observations for the entry point *)

(** The files of the mapping that do not exist (line 243). *)
Definition missing_files (TABLE_FILE_MAPPING : Py.dict string) (W : World)
  : list string :=
  filter (fun file_path => negb (os_path_exists W file_path))
         (map snd TABLE_FILE_MAPPING).

(** What [check_files_exist] logs for the missing files [missing]. *)
Definition missing_log (missing : list string) : list Event :=
  map (fun file_path => Logged WARNING (msg_file_missing file_path)) missing
  ++ match missing with
     | [] => []
     | _ => [Logged ERROR (msg_files_missing missing)]
     end.

(** Opening or closing the connection. *)
Definition is_connection_call (ev : Event) : bool :=
  match ev with
  | Db connect _ | Db close _ => true
  | _ => false
  end.

Definition is_db (ev : Event) : bool :=
  match ev with
  | Db _ _ => true
  | _ => false
  end.

(** An invariant that no step of a program can break: it survives a new
    event, the database side of any call, and an assignment to the
    variables of a load. *)
Definition stable (I : State -> Prop) : Prop :=
  (forall ev st, I st -> I (record ev st))
  /\ (forall op st, I st -> I (db_effect op st))
  /\ (forall op st, I st -> I (db_failure op st))
  /\ (forall v st, I st -> I (snd (set_error_msg v st)))
  /\ (forall n st, I st -> I (snd (set_records_processed n st))).

(** ** Observations for the connection *)

(** A connection that was opened, and a call of [conn.close()]. *)
Definition is_opened (ev : Event) : bool :=
  match ev with
  | Db connect None => true
  | _ => false
  end.

Definition is_close (ev : Event) : bool :=
  match ev with
  | Db close _ => true
  | _ => false
  end.

Definition opened (evs : list Event) : nat := length (filter is_opened evs).
Definition closed (evs : list Event) : nat := length (filter is_close evs).

(** The database refuses the connection. *)
Definition connection_refused (tr : list Event) (op : DbOp) : option Exn :=
  match op with
  | connect => Some (mkExn "OperationalError" "connection refused")
  | _ => None
  end.

(** The database rejects every batch. *)
Definition batch_rejected (tr : list Event) (op : DbOp) : option Exn :=
  match op with
  | execute_batch _ _ _ =>
      Some (mkExn "DataError" "value too long for type character varying(3)")
  | _ => None
  end.

(** A world in which the file [absent] does not exist. *)
Definition world_without (absent : string) : World :=
  {| float_str := decimal_float_str;
     timestamp_bounds := Dates.in_bounds;
     key_error_text := missing_labels_text;
     pd_read_csv := fun file_path _ encoding => latin1_only file_path encoding;
     open_rb_read := fun _ => Ok [];
     decode_utf_16_le := fun _ => Raise decode_error;
     pd_read_csv_text := fun _ _ => Raise decode_error;
     os_path_exists := fun file_path => negb (String.eqb file_path absent);
     db_raises := no_faults;
     datetime_now := fun tr => Z.of_nat (length tr) |}.

(** ** Observations for a load that fails *)

(** The body of a posting load whose batch the database rejects. *)
Definition posting_rejected_run : result unit * State :=
  load_body Config.PRIMARY_KEYS (world_of latin1_only batch_rejected)
    "ds.ft_posting_f" "ft_posting_f.csv" initial_state.

(** The batch insert of a currency load whose frame has no column
    [code_iso_char], rejected by the database. *)
Definition currency_rejected_run : result unit * State :=
  insert_batch (world_of latin1_only batch_rejected) "ds.md_currency_d"
    (normalize_columns accounts_frame) "INSERT"
    (data_tuples (normalize_columns accounts_frame)) initial_state.

(** The error that stops the body of a load before its first statement:
    the file is unreadable (line 150), or the frame cannot be normalised
    (line 157). *)
Definition early_failure (W : World) (table_name file_path : string)
  : option Exn :=
  match first_success W file_path encodings with
  | None => Some (unreadable file_path)
  | Some (_, _, df0) =>
      match normalize_frame (float_str W) (timestamp_bounds W) table_name df0 with
      | Raise e => Some e
      | Ok _ => None
      end
  end.

(** A load of the balance table from a file without a date column. *)
Definition balance_without_date_run : result Z * State :=
  load_data_from_csv Config.PRIMARY_KEYS (world_of latin1_only no_faults)
    "ds.ft_balance_f" "ft_balance_f.csv" initial_state.

(** ** Observations for the normalisation *)

(** The columns the normalisation of a table rewrites (lines 157 and
    161). *)
Definition designated (table_name col : string) : bool :=
  (String.eqb table_name "ds.ft_balance_f" && String.eqb col "on_date")
  || (String.eqb table_name "ds.md_currency_d" && Py.mem col str_cols).

(** The frame a load sends to the database, when its file is readable and
    the frame can be normalised. *)
Definition loaded_frame (W : World) (table_name file_path : string)
  : option DataFrame :=
  match first_success W file_path encodings with
  | None => None
  | Some (_, _, df0) =>
      match normalize_frame (float_str W) (timestamp_bounds W) table_name df0 with
      | Raise _ => None
      | Ok df => Some df
      end
  end.

(** What the posting table loses before its batch (line 172). *)
Definition truncation (table_name : string) : list Effect :=
  if String.eqb table_name "ds.ft_posting_f" then [Truncated] else [].

(** ** Observations for a whole run *)

(** What the loads report to [log_etl_end], in order: table, status and
    number of rows. *)
Fixpoint end_reports (evs : list Event) : list (string * string * Z) :=
  match evs with
  | [] => []
  | Enter (call_log_etl_end _ table_name status n _) :: rest =>
      (table_name, status, n) :: end_reports rest
  | _ :: rest => end_reports rest
  end.

(** What the load of one item of the mapping leaves in the tables, and
    what it reports, when no database call raises. *)
Definition effects_of (PK : Py.dict (option (list string))) (W : World)
    (item : string * string) : list Effect :=
  match loaded_frame W (fst item) (snd item) with
  | Some df =>
      truncation (fst item)
      ++ [Batch (insert_query PK (fst item) (columns df)) (data_tuples df)]
  | None => []
  end.

Definition report_of (W : World) (item : string * string)
  : string * string * Z :=
  match loaded_frame W (fst item) (snd item) with
  | Some df => (fst item, "completed", Z.of_nat (length (rows df)))
  | None => (fst item, "failed", 0%Z)
  end.

(** Only the file of the account table parses. *)
Definition account_file_only (file_path encoding : string) : result DataFrame :=
  if String.eqb file_path "md_account_d.csv"
  then latin1_only file_path encoding
  else Raise decode_error.

Definition two_tables : Py.dict string :=
  [ ("ds.ft_posting_f", "ft_posting_f.csv");
    ("ds.md_account_d", "md_account_d.csv") ].

(** The loop of [main] over a table whose file is unreadable and a table
    whose file parses. *)
Definition two_tables_run : result unit * State :=
  load_tables Config.PRIMARY_KEYS (world_of account_file_only no_faults)
    two_tables initial_state.

(** A run of [main] over the configured tables, every file parsing as
    Latin-1 to the same frame, the database raising nowhere. *)
Definition full_run : result unit * State :=
  main (Config.TABLE_FILE_MAPPING "data") Config.PRIMARY_KEYS
       (world_of latin1_only no_faults) initial_state.

(** ** Observations for the revision of the loop and of the tuples *)

(** The loop of [main] seen from outside: the state each load starts from
    is the state the load before it left, with the record of line 274
    added when that load raised. *)
Inductive loads_chain (PK : Py.dict (option (list string))) (W : World)
  : list (string * string) -> State -> State -> Prop :=
| chain_end st : loads_chain PK W [] st st
| chain_returned table_name file_path rest st n s1 st' :
    load_data_from_csv PK W table_name file_path st = (Ok n, s1) ->
    loads_chain PK W rest s1 st' ->
    loads_chain PK W ((table_name, file_path) :: rest) st st'
| chain_caught table_name file_path rest st e s1 st' :
    load_data_from_csv PK W table_name file_path st = (Raise e, s1) ->
    loads_chain PK W rest
      (record (Logged ERROR (msg_table_aborted table_name (exn_str e))) s1) st' ->
    loads_chain PK W ((table_name, file_path) :: rest) st st'.



(** A balance frame in which two labels become [on_date]. *)
Definition repeated_date_frame : DataFrame :=
  {| columns := ["ON_DATE"; "on_date "; "ACCOUNT_RK"];
     dtypes := [object; object; int64];
     rows := [ [VStr "15.01.2018"; VStr "16.01.2018"; VInt 24656] ] |}.

(** The statement for the balance table over its four columns, character
    by character. *)
Definition balance_statement_text : string :=
  let q := String "034"%char EmptyString in
  let nl := String "010"%char EmptyString in
  nl ++ "        INSERT INTO ds.ft_balance_f ("
  ++ q ++ "on_date" ++ q ++ ", " ++ q ++ "account_rk" ++ q ++ ", "
  ++ q ++ "currency_rk" ++ q ++ ", " ++ q ++ "balance_out" ++ q ++ ")"
  ++ nl ++ "        VALUES (%s, %s, %s, %s)"
  ++ nl ++ "        "
  ++ nl ++ "            ON CONFLICT (" ++ q ++ "on_date" ++ q ++ ", "
  ++ q ++ "account_rk" ++ q ++ ") "
  ++ nl ++ "            DO UPDATE SET "
  ++ q ++ "currency_rk" ++ q ++ " = EXCLUDED." ++ q ++ "currency_rk" ++ q ++ ", "
  ++ q ++ "balance_out" ++ q ++ " = EXCLUDED." ++ q ++ "balance_out" ++ q
  ++ nl ++ "            ".

(** The statement for the posting table over three columns. *)
Definition posting_statement_text : string :=
  let q := String "034"%char EmptyString in
  let nl := String "010"%char EmptyString in
  nl ++ "        INSERT INTO ds.ft_posting_f ("
  ++ q ++ "oper_date" ++ q ++ ", " ++ q ++ "credit_account_rk" ++ q ++ ", "
  ++ q ++ "debet_account_rk" ++ q ++ ")"
  ++ nl ++ "        VALUES (%s, %s, %s)"
  ++ nl ++ "        ".


(** * Properties *)

(** ** The insert statement *)

Lemma mem_In (x : string) (xs : list string) : Py.mem x xs = true <-> In x xs.
Proof.
  induction xs as [|y ys IH]; simpl.
  - split; [discriminate | tauto].
  - destruct (String.eqb_spec x y) as [->|Hne].
    + split; auto.
    + rewrite IH. split; [auto | intros [H|H]; [congruence | exact H]].
Qed.

Lemma non_key_columns (keys cols : list string) (c : string) :
  In c (filter (fun col => negb (Py.mem col keys)) cols)
  <-> In c cols /\ ~ In c keys.
Proof.
  rewrite filter_In, negb_true_iff.
  pose proof (mem_In c keys) as Hm.
  destruct (Py.mem c keys); split; intros [H1 H2]; split; auto.
  - discriminate.
  - exfalso. apply H2, Hm. reflexivity.
  - intro Hin. apply Hm in Hin. discriminate.
Qed.

Lemma all_key_columns (keys cols : list string) :
  (forall c, In c cols -> In c keys) ->
  filter (fun col => negb (Py.mem col keys)) cols = [].
Proof.
  intros Hall. induction cols as [|c cs IH]; simpl; [reflexivity|].
  assert (Hc : Py.mem c keys = true) by (apply mem_In, Hall; simpl; auto).
  rewrite Hc. simpl. apply IH. intros x Hx. apply Hall. simpl; auto.
Qed.

Lemma append_nil_r (s : string) : (s ++ "")%string = s.
Proof. induction s; simpl; congruence. Qed.

Lemma str_assoc (a b c : string) : ((a ++ b) ++ c = a ++ (b ++ c))%string.
Proof. induction a; simpl; congruence. Qed.

Lemma append_length (s t : string) :
  String.length (s ++ t)%string = String.length s + String.length t.
Proof. induction s; simpl; congruence. Qed.

Lemma append_grows (s t : string) : t <> "" -> (s ++ t)%string <> s.
Proof.
  intros Ht Heq. apply (f_equal String.length) in Heq.
  rewrite append_length in Heq. destruct t; [congruence | simpl in Heq; lia].
Qed.

Lemma insert_query_keyed PK table_name cols keys :
  PRIMARY_KEYS_get PK table_name = Some keys -> keys <> [] ->
  insert_query PK table_name cols
  = (base_insert table_name cols
     ++ conflict_text keys (filter (fun c => negb (Py.mem c keys)) cols))%string.
Proof.
  intros Hget Hne. unfold insert_query, PRIMARY_KEYS_item. rewrite Hget.
  destruct keys as [|k ks]; [congruence|]. reflexivity.
Qed.

Lemma insert_query_plain PK table_name cols :
  PRIMARY_KEYS_get PK table_name = None \/ PRIMARY_KEYS_get PK table_name = Some [] ->
  insert_query PK table_name cols = base_insert table_name cols.
Proof.
  intros [H|H]; unfold insert_query; rewrite H; reflexivity.
Qed.

Lemma overwrite_excluded c : excluded_assignment c = PlanSpec.overwrite c.
Proof.
  unfold excluded_assignment, PlanSpec.overwrite, quoted.
  repeat rewrite str_assoc. reflexivity.
Qed.

Lemma quoted_name_quoted c : quoted c = PlanSpec.quoted_name c.
Proof. reflexivity. Qed.

Lemma insert_query_renders PK table_name cols :
  insert_query PK table_name cols
  = PlanSpec.render (PlanSpec.plan (PRIMARY_KEYS_get PK table_name) table_name cols).
Proof.
  unfold insert_query, PRIMARY_KEYS_item, PlanSpec.render, PlanSpec.plan,
    base_insert, columns_str, placeholders, PlanSpec.render_conflict.
  change (map PlanSpec.quoted_name) with (map quoted).
  destruct (PRIMARY_KEYS_get PK table_name) as [[|k ks]|]; cbn [truthy];
    cbn [PlanSpec.target PlanSpec.insert_columns PlanSpec.parameter_count
         PlanSpec.on_conflict PlanSpec.conflict_keys PlanSpec.update_targets].
  - repeat rewrite str_assoc. rewrite append_nil_r. reflexivity.
  - rewrite <- (map_ext _ _ overwrite_excluded).
    repeat rewrite str_assoc. reflexivity.
  - repeat rewrite str_assoc. rewrite append_nil_r. reflexivity.
Qed.

(** ** Cells of a frame *)

Lemma label_is_mem labels j col :
  label_is labels j col = true -> Py.mem col labels = true.
Proof.
  unfold label_is. revert j. induction labels as [|l ls IH]; intros [|j]; simpl;
    try discriminate.
  - rewrite String.eqb_sym. intros ->. reflexivity.
  - intros H. rewrite (IH _ H). destruct (String.eqb col l); reflexivity.
Qed.

Lemma map_labelled_cell {A} col (f : A -> A) labels (row : list A) j y :
  nth_error (map_labelled col f labels row) j = Some y ->
  exists x, nth_error row j = Some x
            /\ y = if label_is labels j col then f x else x.
Proof.
  revert row j. induction labels as [|l ls IH]; intros row j H.
  - exists y. destruct row; simpl in H; rewrite H; unfold label_is;
      destruct j; simpl; auto.
  - destruct row as [|x xs]; simpl in H.
    + destruct j; discriminate.
    + destruct j as [|j]; simpl in *.
      * exists x. split; [reflexivity|]. unfold label_is. simpl. congruence.
      * apply IH in H. exact H.
Qed.

Lemma map_column_cell col f df i j row' y :
  nth_error (rows (map_column col f df)) i = Some row' ->
  nth_error row' j = Some y ->
  exists row x,
    nth_error (rows df) i = Some row /\ nth_error row j = Some x
    /\ y = if label_is (columns df) j col then f x else x.
Proof.
  unfold map_column; simpl. intros Hrow Hy.
  rewrite nth_error_map in Hrow.
  destruct (nth_error (rows df) i) as [row|]; [|discriminate].
  injection Hrow as <-. apply map_labelled_cell in Hy.
  destruct Hy as [x [Hx ->]]. eauto.
Qed.

Section NormalizerFacts.

Variable fs : Float -> string.

Lemma occurrences_mem col labels :
  occurrences col labels = 0 <-> Py.mem col labels = false.
Proof.
  unfold occurrences. induction labels as [|l ls IH]; cbn; [tauto|].
  destruct (String.eqb col l); cbn; [|exact IH].
  split; intros H; discriminate H.
Qed.

Lemma clean_str_col_cell df col i j row' y :
  nth_error (rows (clean_str_col fs df col)) i = Some row' ->
  nth_error row' j = Some y ->
  exists row x,
    nth_error (rows df) i = Some row /\ nth_error row j = Some x
    /\ y = if label_is (columns df) j col
           then if (occurrences col (columns df) =? 1)%nat
                then clean_cell fs x
                else astype_str_replace fs x
           else x.
Proof.
  unfold clean_str_col. intros Hrow Hy.
  destruct (occurrences col (columns df)) as [|[|n]] eqn:Hocc.
  - exists row', y. repeat split; auto.
    destruct (label_is (columns df) j col) eqn:Hl; [|reflexivity].
    apply label_is_mem in Hl. apply occurrences_mem in Hocc. congruence.
  - destruct (map_column_cell _ _ _ _ _ _ _ Hrow Hy) as [r1 [x1 [Hr1 [Hx1 ->]]]].
    destruct (map_column_cell _ _ _ _ _ _ _ Hr1 Hx1) as [r0 [x0 [Hr0 [Hx0 ->]]]].
    exists r0, x0. repeat split; auto. simpl.
    destruct (label_is (columns df) j col); reflexivity.
  - destruct (map_column_cell _ _ _ _ _ _ _ Hrow Hy) as [r0 [x0 [Hr0 [Hx0 ->]]]].
    exists r0, x0. repeat split; auto.
Qed.

Lemma clean_str_col_columns df col :
  columns (clean_str_col fs df col) = columns df.
Proof.
  unfold clean_str_col.
  destruct (occurrences col (columns df)) as [|[|n]]; reflexivity.
Qed.






End NormalizerFacts.

(** ** Dates *)

Lemma digit_char_is_digit n : n < 10 -> Py.is_digit (Py.digit_char n) = true.
Proof. intros H. do 10 (destruct n as [|n]; [reflexivity|]). lia. Qed.

Lemma value_of_digit_char n : n < 10 -> Dates.value_of_digit (Py.digit_char n) = n.
Proof. intros H. do 10 (destruct n as [|n]; [reflexivity|]). lia. Qed.

Lemma is_iso_strftime d : Dates.is_iso (Dates.strftime_Ymd d) = true.
Proof.
  unfold Dates.strftime_Ymd, Dates.four_digits, Dates.two_digits.
  cbn [String.append Dates.is_iso].
  rewrite !digit_char_is_digit by (apply Nat.mod_upper_bound; lia).
  reflexivity.
Qed.

Lemma digit_not_dot c : Py.is_digit c = true -> Ascii.eqb c "." = false.
Proof.
  intros H. destruct (Ascii.eqb_spec c ".") as [->|]; [|reflexivity].
  discriminate H.
Qed.

Lemma hyphen_not_dot c : Ascii.eqb c "-" = true -> Ascii.eqb c "." = false.
Proof. intros H. apply Ascii.eqb_eq in H. subst c. reflexivity. Qed.

Lemma iso_no_dot s : Dates.is_iso s = true -> Dates.split_dot s = None.
Proof.
  intros H.
  destruct s as [|c0 [|c1 [|c2 [|c3 [|c4 [|c5 [|c6 [|c7 [|c8 [|c9 [|c10 s]]]]]]]]]]];
    try discriminate H.
  cbn [Dates.is_iso] in H.
  rewrite !andb_true_iff in H.
  destruct H as [[[[[[[[[H0 H1] H2] H3] H4] H5] H6] H7] H8] H9].
  cbn [Dates.split_dot].
  rewrite (digit_not_dot _ H0), (digit_not_dot _ H1), (digit_not_dot _ H2),
    (digit_not_dot _ H3), (hyphen_not_dot _ H4), (digit_not_dot _ H5),
    (digit_not_dot _ H6), (hyphen_not_dot _ H7), (digit_not_dot _ H8),
    (digit_not_dot _ H9).
  reflexivity.
Qed.

Lemma strptime_iso tb s :
  Dates.is_iso s = true -> Dates.strptime_dmY tb s = None.
Proof. intros H. unfold Dates.strptime_dmY. rewrite (iso_no_dot _ H). reflexivity. Qed.

Lemma strptime_in_bounds tb s d :
  Dates.strptime_dmY tb s = Some d -> tb d = true.
Proof.
  unfold Dates.strptime_dmY.
  destruct (Dates.split_dot s) as [[ds rest]|]; [|discriminate].
  destruct (Dates.split_dot rest) as [[ms ys]|]; [|discriminate].
  destruct (Dates.match_d ds), (Dates.match_m ms), (Dates.match_Y ys);
    try discriminate.
  cbv zeta. destruct (Dates.valid tb _) eqn:V; [|discriminate].
  intros H. injection H as <-. unfold Dates.valid in V.
  apply andb_true_iff in V. apply V.
Qed.

Section DateCells.

Variable fs : Float -> string.
Variable tb : Dates.Date -> bool.

(** One cell of [on_date] through line 157. *)
Lemma reformat_on_date_spec (x : Value) :
  let y := reformat_on_date fs tb x in
  (y = VNaN /\ to_datetime_coerce fs tb x = None
   \/ exists d, Dates.strptime_dmY tb (py_str fs x) = Some d
                /\ y = VStr (Dates.strftime_Ymd d))
  /\ (forall s, y = VStr s ->
        Dates.is_iso s = true /\ Dates.strptime_dmY tb s = None /\ y <> x)
  /\ y <> VNone.
Proof.
  unfold reformat_on_date, to_datetime_coerce. cbv zeta.
  destruct (pd_isna x) eqn:Hna; cbn [dt_strftime].
  - repeat split; try discriminate; auto.
  - destruct (Dates.strptime_dmY tb (py_str fs x)) as [d|] eqn:Hp; cbn [dt_strftime].
    + repeat split; try discriminate.
      * right. exists d. auto.
      * assert (s = Dates.strftime_Ymd d) by congruence. subst s.
        apply is_iso_strftime.
      * assert (s = Dates.strftime_Ymd d) by congruence. subst s.
        apply strptime_iso, is_iso_strftime.
      * intro Hx. rewrite <- Hx in Hp. cbn [py_str] in Hp.
        rewrite (strptime_iso tb _ (is_iso_strftime d)) in Hp. discriminate.
    + repeat split; try discriminate; auto.
Qed.

End DateCells.

(** ** The normalised frame *)

Lemma normalize_frame_balance fs tb df :
  normalize_frame fs tb "ds.ft_balance_f" df
  = reformat_dates fs tb (normalize_columns df).
Proof.
  unfold normalize_frame. cbv zeta.
  change (String.eqb "ds.ft_balance_f" "ds.ft_balance_f") with true.
  cbv iota. destruct (reformat_dates fs tb (normalize_columns df)); reflexivity.
Qed.


Lemma isna_as_float64 x : pd_isna (as_float64 x) = pd_isna x.
Proof. destruct x; reflexivity. Qed.

Lemma to_numpy_cell df i j t v :
  nth_error (to_numpy df) i = Some t -> nth_error t j = Some v ->
  exists row x, nth_error (rows df) i = Some row /\ nth_error row j = Some x
                /\ v = if upcasts df then as_float64 x else x.
Proof.
  unfold to_numpy. destruct (upcasts df).
  - rewrite nth_error_map.
    destruct (nth_error (rows df) i) as [row|]; [|discriminate].
    intros Ht. injection Ht as <-. rewrite nth_error_map.
    destruct (nth_error row j) as [x|] eqn:Hx; [|discriminate].
    intros Hv. injection Hv as <-. eauto.
  - intros Ht Hv. eauto.
Qed.

Lemma data_tuples_cell df i j t v :
  nth_error (data_tuples df) i = Some t -> nth_error t j = Some v ->
  exists row x, nth_error (rows df) i = Some row /\ nth_error row j = Some x
                /\ v = if pd_isna x then VNone
                       else if upcasts df then as_float64 x else x.
Proof.
  unfold data_tuples. rewrite nth_error_map.
  destruct (nth_error (to_numpy df) i) as [a|] eqn:Ha; [|discriminate].
  intros Ht. injection Ht as <-. rewrite nth_error_map.
  destruct (nth_error a j) as [x'|] eqn:Hx; [|discriminate].
  intros Hv. injection Hv as <-.
  destruct (to_numpy_cell _ _ _ _ _ Ha Hx) as [row [x [Hr [Hxx ->]]]].
  exists row, x. split; [exact Hr|]. split; [exact Hxx|].
  destruct (upcasts df); [rewrite isna_as_float64|]; reflexivity.
Qed.

(** C6. In the balance-fact table line 157 needs the label [on_date]
    exactly once among the stripped, lower-cased labels: without it the
    selection raises [KeyError], with several [pd.to_datetime] raises
    [ValueError].  With one, every value of the normalised [on_date]
    column is the ISO year-month-day text of the date its input read as
    day.month.year, or null: NaN in the frame, [None] in the tuples sent to
    the database.  An input that does not parse becomes null and raises
    nothing, and no value is left in day.month.year form, so none equals
    its input.  The dates a timestamp can hold are taken to have years of
    four digits. *)
Theorem balance_on_date_iso_or_null
    (fs : Float -> string) (tb : Dates.Date -> bool) (df : DataFrame) :
  (forall d, tb d = true -> 1000 <= Dates.year d) ->
  match occurrences "on_date"
          (map (fun c => Py.lower (Py.strip c)) (columns df)) with
  | 0 => normalize_frame fs tb "ds.ft_balance_f" df = Raise (KeyError "on_date")
  | 1 =>
      exists df',
        normalize_frame fs tb "ds.ft_balance_f" df = Ok df'
        /\ columns df' = map (fun c => Py.lower (Py.strip c)) (columns df)
        /\ (forall i j row' y,
              nth_error (rows df') i = Some row' ->
              nth_error (columns df') j = Some "on_date" ->
              nth_error row' j = Some y ->
              exists row x,
                nth_error (rows df) i = Some row /\ nth_error row j = Some x
                /\ (y = VNaN
                    /\ (x = VNaN \/ x = VNone
                        \/ Dates.strptime_dmY tb (py_str fs x) = None)
                    \/ exists d,
                         x <> VNaN /\ x <> VNone
                         /\ Dates.strptime_dmY tb (py_str fs x) = Some d
                         /\ y = VStr (Dates.strftime_Ymd d))
                /\ (forall s, y = VStr s ->
                      Dates.is_iso s = true
                      /\ Dates.strptime_dmY tb s = None /\ y <> x))
        /\ (forall i j t v,
              nth_error (data_tuples df') i = Some t ->
              nth_error (columns df') j = Some "on_date" ->
              nth_error t j = Some v ->
              v = VNone
              \/ exists s, v = VStr s /\ Dates.is_iso s = true
                           /\ Dates.strptime_dmY tb s = None)
  | _ =>
      normalize_frame fs tb "ds.ft_balance_f" df
      = Raise (ValueError "cannot assemble with duplicate keys")
  end.
Proof.
  intros _. rewrite normalize_frame_balance. unfold reformat_dates.
  cbn [columns normalize_columns].
  destruct (occurrences "on_date" _) as [|[|n]]; [reflexivity| |reflexivity].
  eexists. split; [reflexivity|]. split; [reflexivity|].
  assert (Hcell : forall i j row' y,
    nth_error (rows (map_column "on_date" (reformat_on_date fs tb)
                       (normalize_columns df))) i
      = Some row' ->
    nth_error (columns (normalize_columns df)) j = Some "on_date" ->
    nth_error row' j = Some y ->
    exists row x, nth_error (rows df) i = Some row /\ nth_error row j = Some x
                  /\ y = reformat_on_date fs tb x).
  { intros i j row' y Hrow Hlab Hy.
    destruct (map_column_cell _ _ _ _ _ _ _ Hrow Hy) as [row [x [Hr [Hx Heq]]]].
    exists row, x. repeat split; auto.
    unfold label_is in Heq. rewrite Hlab, String.eqb_refl in Heq. exact Heq. }
  split.
  - intros i j row' y Hrow Hlab Hy.
    destruct (Hcell i j row' y Hrow Hlab Hy) as [row [x [Hr [Hx ->]]]].
    exists row, x. split; [exact Hr|]. split; [exact Hx|].
    destruct (reformat_on_date_spec fs tb x) as [_ [H2 _]].
    split; [|exact H2].
    unfold reformat_on_date, to_datetime_coerce.
    destruct x as [s|z|f| |]; cbn [pd_isna dt_strftime]; auto;
      (destruct (Dates.strptime_dmY tb _) as [d|] eqn:P; cbn [dt_strftime];
       [right; exists d; repeat split; try discriminate; reflexivity
       |left; auto]).
  - intros i j t v Ht Hlab Hv.
    destruct (data_tuples_cell _ _ _ _ _ Ht Hv) as [row' [y [Hr [Hy ->]]]].
    destruct (Hcell i j row' y Hr Hlab Hy) as [row [x [_ [_ ->]]]].
    destruct (reformat_on_date_spec fs tb x) as [[[-> _]|[d [_ Hd]]] [H2 _]].
    + left. reflexivity.
    + rewrite Hd in *. cbn [pd_isna as_float64]. right.
      destruct (upcasts _); (eexists; split; [reflexivity|]);
        destruct (H2 _ eq_refl) as [? [? _]]; auto.
Qed.


Lemma in_bounds_four_digits (d : Dates.Date) :
  Dates.in_bounds d = true -> 1000 <= Dates.year d.
Proof.
  unfold Dates.in_bounds, Dates.on_or_after. intros H.
  apply andb_prop in H. destruct H as [H _].
  apply orb_prop in H. destruct H as [H|H].
  - apply Nat.ltb_lt in H. lia.
  - apply andb_prop in H. destruct H as [H _]. apply Nat.eqb_eq in H. lia.
Qed.

Lemma balance_on_date_witness :
  exists df',
    normalize_frame decimal_float_str Dates.in_bounds
      "ds.ft_balance_f" balance_sample = Ok df'
    /\ nth_error (data_tuples df') 0
       = Some [VStr "2018-01-15"; VInt 36237725; VFloat (FPayload 38318)]
    /\ nth_error (data_tuples df') 1
       = Some [VNone; VInt 24656; VFloat (FPayload 80533)]
    /\ (exists row x,
          nth_error (rows balance_sample) 0 = Some row
          /\ nth_error row 0 = Some x
          /\ VStr "2018-01-15" <> x).
Proof.
  destruct (balance_on_date_iso_or_null decimal_float_str Dates.in_bounds
              balance_sample in_bounds_four_digits)
    as [df' [Hok [Hcols [Hcells Htuples]]]].
  exists df'.
  assert (Hdf : df' = map_column "on_date"
                        (reformat_on_date decimal_float_str Dates.in_bounds)
                        (normalize_columns balance_sample)).
  { rewrite normalize_frame_balance in Hok. vm_compute in Hok |- *. congruence. }
  split; [exact Hok|]. subst df'.
  split; [reflexivity|]. split; [reflexivity|].
  destruct (Hcells 0 0 _ _ eq_refl eq_refl eq_refl) as [row [x [Hr [Hx [_ Hne]]]]].
  exists row, x. split; [exact Hr|]. split; [exact Hx|].
  apply (Hne "2018-01-15" eq_refl).
Defined.



(** ** The claims on the insert statement *)

(** C2. With a non-empty declared key the statement is the insert over all
    columns in their order, one placeholder per column, followed by
    ON CONFLICT on exactly the key columns, assigning EXCLUDED to every
    column that is not a key, and to no other; without a key (missing,
    [None] or empty) it is the plain insert.  Every name stands between
    double quotes, and the text is the rendering of the planned statement
    the specification describes. *)
Theorem planned_insert_statement
    (PK : Py.dict (option (list string))) (table_name : string)
    (cols : list string) :
  insert_query PK table_name cols
  = PlanSpec.render
      (PlanSpec.plan (PRIMARY_KEYS_get PK table_name) table_name cols)
  /\ (forall keys,
        PRIMARY_KEYS_get PK table_name = Some keys -> keys <> [] ->
        exists targets,
          insert_query PK table_name cols
          = (Py.newline
             ++ "        INSERT INTO " ++ table_name
             ++ " (" ++ Py.join ", " (map PlanSpec.quoted_name cols) ++ ")"
             ++ Py.newline
             ++ "        VALUES ("
             ++ Py.join ", " (repeat "%s" (length cols)) ++ ")"
             ++ Py.newline
             ++ "        "
             ++ Py.newline
             ++ "            ON CONFLICT ("
             ++ Py.join ", " (map PlanSpec.quoted_name keys) ++ ") "
             ++ Py.newline
             ++ "            DO UPDATE SET "
             ++ Py.join ", " (map PlanSpec.overwrite targets)
             ++ Py.newline
             ++ "            ")%string
          /\ targets = filter (fun c => negb (Py.mem c keys)) cols
          /\ (forall c, In c targets <-> In c cols /\ ~ In c keys)
          /\ PlanSpec.on_conflict
               (PlanSpec.plan (Some keys) table_name cols)
             = Some {| PlanSpec.conflict_keys := keys;
                       PlanSpec.update_targets := targets |})
  /\ (PRIMARY_KEYS_get PK table_name = None
      \/ PRIMARY_KEYS_get PK table_name = Some [] ->
      insert_query PK table_name cols
      = (Py.newline
         ++ "        INSERT INTO " ++ table_name
         ++ " (" ++ Py.join ", " (map PlanSpec.quoted_name cols) ++ ")"
         ++ Py.newline
         ++ "        VALUES ("
         ++ Py.join ", " (repeat "%s" (length cols)) ++ ")"
         ++ Py.newline
         ++ "        ")%string
      /\ PlanSpec.on_conflict
           (PlanSpec.plan (PRIMARY_KEYS_get PK table_name) table_name cols)
         = None)
  /\ (forall c,
        PlanSpec.quoted_name c
        = String "034"%char (c ++ String "034"%char EmptyString)
        /\ PlanSpec.overwrite c
           = String "034"%char
               (c ++ String "034"%char
                       (" = EXCLUDED."
                        ++ String "034"%char
                             (c ++ String "034"%char EmptyString)))).
Proof.
  split; [apply insert_query_renders|]. split; [|split].
  - intros keys Hget Hne. eexists.
    split; [|split; [reflexivity|split; [intro c; apply non_key_columns|]]].
    + rewrite insert_query_renders, Hget.
      destruct keys as [|k ks]; [congruence|].
      unfold PlanSpec.render, PlanSpec.plan, PlanSpec.render_conflict.
      cbn [PlanSpec.target PlanSpec.insert_columns PlanSpec.parameter_count
           PlanSpec.on_conflict PlanSpec.conflict_keys PlanSpec.update_targets].
      reflexivity.
    + destruct keys; [congruence | reflexivity].
  - intros H. split.
    + rewrite insert_query_renders.
      unfold PlanSpec.render, PlanSpec.plan.
      cbn [PlanSpec.target PlanSpec.insert_columns PlanSpec.parameter_count
           PlanSpec.on_conflict].
      destruct H as [-> | ->]; rewrite ?append_nil_r; reflexivity.
    + destruct H as [-> | ->]; reflexivity.
  - intro c. split; reflexivity.
Qed.

Lemma planned_insert_statement_witness :
  insert_query Config.PRIMARY_KEYS "ds.ft_balance_f"
    ["on_date"; "account_rk"; "currency_rk"; "balance_out"]
  = balance_statement_text
  /\ insert_query Config.PRIMARY_KEYS "ds.ft_posting_f"
       ["oper_date"; "credit_account_rk"; "debet_account_rk"]
     = posting_statement_text.
Proof.
  split.
  - destruct (planned_insert_statement Config.PRIMARY_KEYS "ds.ft_balance_f"
                ["on_date"; "account_rk"; "currency_rk"; "balance_out"])
      as [_ [Hkeyed _]].
    destruct (Hkeyed ["on_date"; "account_rk"] eq_refl
                ltac:(discriminate)) as [targets [Hq [Ht _]]].
    rewrite Hq, Ht. reflexivity.
  - destruct (planned_insert_statement Config.PRIMARY_KEYS "ds.ft_posting_f"
                ["oper_date"; "credit_account_rk"; "debet_account_rk"])
      as [_ [_ [Hplain _]]].
    destruct (Hplain (or_introl eq_refl)) as [Hq _].
    rewrite Hq. reflexivity.
Defined.

(** C9. When every column is a key column of a non-empty declared key, the
    statement still ends in ON CONFLICT ... DO UPDATE SET, with nothing
    after SET: it is neither the plain insert nor a do-nothing form. *)
Theorem all_key_columns_empty_update
    (PK : Py.dict (option (list string))) (table_name : string)
    (cols keys : list string) :
  PRIMARY_KEYS_get PK table_name = Some keys ->
  keys <> [] ->
  (forall c, In c cols -> In c keys) ->
  insert_query PK table_name cols
  = (base_insert table_name cols
     ++ Py.newline
     ++ "            ON CONFLICT (" ++ Py.join ", " (map quoted keys) ++ ") "
     ++ Py.newline
     ++ "            DO UPDATE SET "
     ++ Py.newline
     ++ "            ")%string
  /\ insert_query PK table_name cols <> base_insert table_name cols.
Proof.
  intros Hget Hne Hall.
  rewrite (insert_query_keyed _ _ _ _ Hget Hne), (all_key_columns _ _ Hall).
  split; [reflexivity|].
  apply append_grows. discriminate.
Qed.

Lemma all_key_columns_empty_update_witness :
  insert_query Config.PRIMARY_KEYS "ds.md_ledger_account_s"
    ["ledger_account"; "start_date"]
  = (base_insert "ds.md_ledger_account_s" ["ledger_account"; "start_date"]
     ++ conflict_text ["ledger_account"; "start_date"] [])%string
  /\ conflict_text ["ledger_account"; "start_date"] []
     <> conflict_text ["ledger_account"; "start_date"] ["ledger_account"].
Proof.
  destruct (all_key_columns_empty_update Config.PRIMARY_KEYS
              "ds.md_ledger_account_s" ["ledger_account"; "start_date"]
              ["ledger_account"; "start_date"] eq_refl) as [Heq _].
  - discriminate.
  - intros c Hc. exact Hc.
  - split; [rewrite Heq; reflexivity | discriminate].
Defined.

(** ** The parameter tuples *)

Lemma data_tuples_spec (df : DataFrame) :
  Forall2 (Forall2 (fun x y => (pd_isna x = true -> y = VNone)
                               /\ (pd_isna x = false -> y = x)))
          (to_numpy df) (data_tuples df)
  /\ Forall (Forall (fun y => y <> VNaN)) (data_tuples df).
Proof.
  unfold data_tuples. generalize (to_numpy df) as rs. intro rs. split.
  - induction rs as [|r rs IH]; simpl; constructor; [|exact IH].
    induction r as [|x r IHr]; simpl; constructor; [|exact IHr].
    destruct (pd_isna x); split; congruence.
  - induction rs as [|r rs IH]; simpl; constructor; [|exact IH].
    induction r as [|x r IHr]; simpl; constructor; [|exact IHr].
    destruct x; simpl; discriminate.
Qed.

(** ** Rules for invariants *)

Section Rules.

Context {A B : Type}.
Variable I : State -> Prop.

Lemma preserves_ret (a : A) : preserves I (ret a).
Proof. intros st r st' HI H. inversion H; subst. exact HI. Qed.

Lemma preserves_raise (e : Exn) : preserves I (@raise A e).
Proof. intros st r st' HI H. inversion H; subst. exact HI. Qed.

Lemma preserves_lift (x : result A) : preserves I (lift x).
Proof. intros st r st' HI H. inversion H; subst. exact HI. Qed.

Lemma preserves_bind (m : M A) (k : A -> M B) :
  preserves I m -> (forall a, preserves I (k a)) -> preserves I (bind m k).
Proof.
  intros Hm Hk st r st' HI H. unfold bind in H.
  destruct (m st) as [[a|e] st1] eqn:Em.
  - eapply Hk; [eapply Hm; eauto | exact H].
  - inversion H; subst. eapply Hm; eauto.
Qed.

Lemma preserves_try_except (body : M A) (handler : Exn -> M A) :
  preserves I body -> (forall e, preserves I (handler e)) ->
  preserves I (try_except body handler).
Proof.
  intros Hb Hh st r st' HI H. unfold try_except in H.
  destruct (body st) as [[a|e] st1] eqn:Em.
  - inversion H; subst. eapply Hb; eauto.
  - eapply Hh; [eapply Hb; eauto | exact H].
Qed.

Lemma preserves_try_finally (body : M A) (final : M unit) :
  preserves I body -> preserves I final -> preserves I (try_finally body final).
Proof.
  intros Hb Hf st r st' HI H. unfold try_finally in H.
  destruct (body st) as [r1 st1] eqn:Em.
  assert (H1 : I st1) by (eapply Hb; eauto).
  destruct (final st1) as [[u|e] st2] eqn:Ef; inversion H; subst;
    eapply Hf; eauto.
Qed.

End Rules.

Lemma preserves_get_state I : preserves I get_state.
Proof. intros st r st' HI H. inversion H; subst. exact HI. Qed.

Lemma preserves_now I W : preserves I (now W).
Proof. intros st r st' HI H. inversion H; subst. exact HI. Qed.

(** ** Rules for traces *)

Lemma trace_record ev st : trace (record ev st) = trace st ++ [ev].
Proof. reflexivity. Qed.

Lemma trace_db_effect op st : trace (db_effect op st) = trace st.
Proof.
  destruct op; try reflexivity. simpl.
  destruct (run_statement query params (next_log_id st) (working st)); reflexivity.
Qed.

Lemma trace_db_failure op st : trace (db_failure op st) = trace st.
Proof. destruct op; reflexivity. Qed.

Lemma emits_only_start Q st : emits_only Q (trace st) st.
Proof. exists []. rewrite app_nil_r. auto. Qed.

Lemma emits_only_step Q base st st' ev :
  trace st' = trace st ++ [ev] -> Q ev ->
  emits_only Q base st -> emits_only Q base st'.
Proof.
  intros Ht Hq [evs [He Hf]]. exists (evs ++ [ev]). split.
  - rewrite Ht, He, app_assoc. reflexivity.
  - apply Forall_app. auto.
Qed.

Lemma emits_only_same Q base st st' :
  trace st' = trace st -> emits_only Q base st -> emits_only Q base st'.
Proof. intros Ht [evs [He Hf]]. exists evs. rewrite Ht. auto. Qed.

Lemma emits_only_weaken (Q Q' : Event -> Prop) base st :
  (forall ev, Q ev -> Q' ev) -> emits_only Q base st -> emits_only Q' base st.
Proof.
  intros Himp [evs [He Hf]]. exists evs. split; [exact He|].
  eapply Forall_impl; eauto.
Qed.

Section TraceRules.

Variable Q : Event -> Prop.
Variable base : list Event.

Lemma emits_emit ev : Q ev -> preserves (emits_only Q base) (emit ev).
Proof.
  intros Hq st r st' HI H. inversion H; subst.
  eapply emits_only_step; [|exact Hq|exact HI]. reflexivity.
Qed.

Lemma emits_enter c : Q (Enter c) -> preserves (emits_only Q base) (enter c).
Proof. apply emits_emit. Qed.

Lemma emits_logger level m :
  Q (Logged level m) -> preserves (emits_only Q base) (logger level m).
Proof. apply emits_emit. Qed.

Lemma emits_set_error_msg v : preserves (emits_only Q base) (set_error_msg v).
Proof.
  intros st r st' HI H. inversion H; subst.
  eapply emits_only_same; [|exact HI]. reflexivity.
Qed.

Lemma emits_set_records_processed n :
  preserves (emits_only Q base) (set_records_processed n).
Proof.
  intros st r st' HI H. inversion H; subst.
  eapply emits_only_same; [|exact HI]. reflexivity.
Qed.

Lemma emits_set_conn b : preserves (emits_only Q base) (set_conn b).
Proof.
  intros st r st' HI H. inversion H; subst.
  eapply emits_only_same; [|exact HI]. reflexivity.
Qed.

Lemma emits_db W op :
  (forall e, Q (Db op e)) -> preserves (emits_only Q base) (db W op).
Proof.
  intros Hq st r st' HI H. unfold db in H.
  destruct (db_raises W (trace st) op) as [e|]; inversion H; subst.
  - eapply emits_only_step; [|apply (Hq (Some e))|exact HI].
    rewrite trace_record, trace_db_failure. reflexivity.
  - eapply emits_only_step; [|apply (Hq None)|exact HI].
    rewrite trace_record, trace_db_effect. reflexivity.
Qed.

End TraceRules.

(** Decomposing a goal [preserves (emits_only Q base) m] along [m]. *)
Ltac emits_step :=
  first
    [ apply preserves_ret | apply preserves_raise | apply preserves_lift
    | apply preserves_get_state | apply preserves_now
    | apply emits_set_error_msg | apply emits_set_records_processed
    | apply emits_set_conn
    | apply preserves_bind; [|intro]
    | apply preserves_try_except; [|intro]
    | apply preserves_try_finally
    | apply emits_enter | apply emits_logger | apply emits_db; [intro]
    | match goal with
      | |- preserves _ (if ?b then _ else _) => destruct b
      | |- preserves _ (match ?x with _ => _ end) => destruct x
      end ].

Ltac emits := repeat emits_step.

Section Emits.

Variable PK : Py.dict (option (list string)).
Variable W : World.
Variable Q : Event -> Prop.
Variable base : list Event.
Hypothesis HQ : quiet Q.

Let Qlog := proj1 HQ.
Let Qcursor := proj1 (proj2 HQ).
Let Qcommit := proj1 (proj2 (proj2 HQ)).
Let Qrollback := proj2 (proj2 (proj2 HQ)).

Lemma emits_execute_sql query params :
  Q (Enter (call_execute_sql query params)) ->
  (forall e, Q (Db (execute query params) e)) ->
  preserves (emits_only Q base) (execute_sql W query params).
Proof. intros H1 H2. unfold execute_sql. emits; auto. Qed.

Lemma emits_log_etl_start table_name :
  Q (Enter (call_log_etl_start table_name)) ->
  (forall params e, Q (Db (execute log_start_query params) e)) ->
  (forall e, Q (Db fetchone e)) ->
  preserves (emits_only Q base) (log_etl_start W table_name).
Proof.
  intros H1 H2 H3. unfold log_etl_start. emits; auto.
Qed.


Lemma emits_try_encodings file_path remaining :
  preserves (emits_only Q base) (try_encodings W file_path remaining).
Proof.
  induction remaining as [|encoding rest IH]; simpl; emits; auto.
Qed.

Lemma emits_read_csv file_path :
  Q (Enter (call_read_csv_with_encoding_tries file_path)) ->
  preserves (emits_only Q base) (read_csv_with_encoding_tries W file_path).
Proof.
  intros H. unfold read_csv_with_encoding_tries.
  apply preserves_bind; [apply emits_enter, H|intros _].
  apply emits_try_encodings.
Qed.

Lemma emits_insert_batch table_name df query tuples :
  (forall e, Q (Db (execute "BEGIN;" []) e)) ->
  (forall e, Q (Db (execute_batch query tuples 1000) e)) ->
  preserves (emits_only Q base) (insert_batch W table_name df query tuples).
Proof. intros H1 H2. unfold insert_batch. emits; auto. Qed.

End Emits.

(** ** The variables of the load *)

Lemma locals_record ev st : locals (record ev st) = locals st.
Proof. reflexivity. Qed.

Lemma locals_db_effect op st : locals (db_effect op st) = locals st.
Proof.
  destruct op; try reflexivity. unfold locals. simpl.
  destruct (run_statement query params (next_log_id st) (working st)); reflexivity.
Qed.

Lemma locals_db_failure op st : locals (db_failure op st) = locals st.
Proof. destruct op; reflexivity. Qed.

Section LocalRules.

Variable v : option string * Z.

Lemma keeps_emit ev : preserves (fun st => locals st = v) (emit ev).
Proof. intros st r st' HI H. injection H as _ <-. exact HI. Qed.

Lemma keeps_db W op : preserves (fun st => locals st = v) (db W op).
Proof.
  intros st r st' HI H. unfold db in H.
  destruct (db_raises W (trace st) op); injection H as _ <-.
  - rewrite locals_record, locals_db_failure. exact HI.
  - rewrite locals_record, locals_db_effect. exact HI.
Qed.

End LocalRules.

Ltac keeps_step :=
  first
    [ apply preserves_ret | apply preserves_raise | apply preserves_lift
    | apply preserves_get_state | apply preserves_now
    | apply preserves_bind; [|intro]
    | apply preserves_try_except; [|intro]
    | apply preserves_try_finally
    | apply keeps_emit | apply keeps_db
    | match goal with
      | |- preserves _ (if ?b then _ else _) => destruct b
      | |- preserves _ (match ?x with _ => _ end) => destruct x
      end ].

Ltac keeps := repeat keeps_step.

Lemma keeps_execute_sql v W query params :
  preserves (fun st => locals st = v) (execute_sql W query params).
Proof. unfold execute_sql, enter, logger. keeps. Qed.

Lemma keeps_try_encodings v W file_path remaining :
  preserves (fun st => locals st = v) (try_encodings W file_path remaining).
Proof.
  induction remaining as [|encoding rest IH]; simpl; unfold logger; keeps; auto.
Qed.

Lemma keeps_read_csv v W file_path :
  preserves (fun st => locals st = v) (read_csv_with_encoding_tries W file_path).
Proof.
  unfold read_csv_with_encoding_tries, enter.
  apply preserves_bind; [apply keeps_emit|intros _]. apply keeps_try_encodings.
Qed.

Lemma preserves_and {A} (I J : State -> Prop) (m : M A) :
  preserves I m -> preserves J m -> preserves (fun st => I st /\ J st) m.
Proof.
  intros HI HJ st r st' [H1 H2] H. split; [eapply HI | eapply HJ]; eauto.
Qed.

(** ** One statement through [execute_sql] *)

Lemma execute_sql_returns W query params st b st' :
  execute_sql W query params st = (Ok b, st') ->
  trace st' = trace st ++ executed query params
  /\ locals st' = locals st
  /\ committed st'
     = fst (run_statement query params (next_log_id st) (working st)).
Proof.
  unfold execute_sql, bind, try_except, enter, emit, db, logger, raise, ret.
  cbn [trace record db_effect db_failure].
  repeat match goal with
         | |- context [db_raises W ?t ?op] => destruct (db_raises W t op)
         end; intros H; try discriminate H.
  revert H. cbn.
  destruct (run_statement query params (next_log_id st) (working st)) as [w row].
  intros H. inversion H; subst; clear H. cbn.
  repeat rewrite <- app_assoc. auto.
Qed.

(** ** The batch insert *)

Ltac split_db W :=
  repeat match goal with
         | |- context [db_raises W ?t ?op] =>
             let E := fresh "E" in destruct (db_raises W t op) eqn:E
         end.

(** How [insert_batch] ends when it starts with no error captured and no
    row counted: it returns after the batch and its commit, and the count
    is the number of tuples; or it raises, and the count is that number if
    the batch returned and 0 if not. *)
Lemma insert_batch_outcome W table_name df query tuples st r st' :
  insert_batch W table_name df query tuples st = (r, st') ->
  locals st = (None, 0%Z) ->
  exists evs,
    trace st' = trace st ++ evs
    /\ (r = Ok tt
        /\ evs = committed_batch table_name query tuples
        /\ locals st' = (None, Z.of_nat (length tuples))
        /\ journal (committed st') = journal (working st) ++ [Batch query tuples]
        \/ exists e,
             r = Raise e
             /\ (records_processed st' = 0%Z
                 /\ Forall (fun ev => is_batch_done ev = false) evs
                 \/ records_processed st' = Z.of_nat (length tuples)
                    /\ exists e' post,
                         evs = [ Db cursor None;
                                 Db (execute "BEGIN;" []) None;
                                 Db (execute_batch query tuples 1000) None;
                                 Db commit (Some e') ] ++ post
                         /\ Forall (fun ev => is_batch_done ev = false) post
                         /\ committed st' = committed st)).
Proof.
  unfold locals. intros H Hloc. injection Hloc as Herr Hrp.
  revert H.
  unfold insert_batch, bind, try_except, set_records_processed, set_error_msg,
    logger, emit, db, raise, ret, lift.
  cbn [trace record db_effect db_failure].
  destruct (db_raises W (trace st) cursor) as [e1|] eqn:E1.
  { intros H; inversion H; subst; clear H. eexists. split; [reflexivity|].
    right. exists e1. split; [reflexivity|]. left. split; [exact Hrp|].
    repeat constructor. }
  cbn.
  match goal with
  | |- context [db_raises W ?t (execute "BEGIN;" [])] =>
      destruct (db_raises W t (execute "BEGIN;" [])) as [e2|] eqn:E2
  end.
  { intros H; inversion H; subst; clear H. cbn. eexists.
    split; [rewrite <- app_assoc; reflexivity|].
    right. exists e2. split; [reflexivity|]. left. split; [exact Hrp|].
    repeat constructor. }
  cbn.
  match goal with
  | |- context [db_raises W ?t (execute_batch query tuples 1000)] =>
      destruct (db_raises W t (execute_batch query tuples 1000)) as [e3|] eqn:E3
  end.
  { cbn.
    match goal with
    | |- context [db_raises W ?t rollback] =>
        destruct (db_raises W t rollback) as [e4|] eqn:E4
    end; cbn.
    - intros H; inversion H; subst; clear H. cbn. eexists.
      split; [repeat rewrite <- app_assoc; reflexivity|].
      right. exists e4. split; [reflexivity|]. left. split; [exact Hrp|].
      repeat constructor.
    - destruct (String.eqb table_name "ds.md_currency_d"); cbn;
        [destruct (sample_of W df ["currency_code"; "code_iso_char"]) as [s|e5]; cbn|];
        intros H; inversion H; subst; clear H; cbn; eexists;
        (split; [repeat rewrite <- app_assoc; reflexivity|]);
        right; eexists; (split; [reflexivity|]); left; (split; [exact Hrp|]);
        repeat constructor. }
  cbn.
  match goal with
  | |- context [db_raises W ?t commit] =>
      destruct (db_raises W t commit) as [e6|] eqn:E6
  end.
  { cbn.
    match goal with
    | |- context [db_raises W ?t rollback] =>
        destruct (db_raises W t rollback) as [e7|] eqn:E7
    end; cbn.
    - intros H; inversion H; subst; clear H. cbn. eexists.
      split; [repeat rewrite <- app_assoc; reflexivity|].
      right. exists e7. split; [reflexivity|]. right. split; [reflexivity|].
      exists e6. eexists. split; [reflexivity|]. split; [repeat constructor|].
      reflexivity.
    - destruct (String.eqb table_name "ds.md_currency_d"); cbn;
        [destruct (sample_of W df ["currency_code"; "code_iso_char"]) as [s|e5]; cbn|];
        intros H; inversion H; subst; clear H; cbn; eexists;
        (split; [repeat rewrite <- app_assoc; reflexivity|]);
        right; eexists; (split; [reflexivity|]); right; (split; [reflexivity|]);
        exists e6; eexists; (split; [reflexivity|]);
        (split; [repeat constructor|reflexivity]). }
  cbn. intros H; inversion H; subst; clear H. cbn. eexists.
  split; [repeat rewrite <- app_assoc; reflexivity|].
  left. unfold locals. cbn. rewrite Herr. auto.
Qed.

(** ** Reading the file *)

Lemma record_all_nil st : record_all [] st = st.
Proof. destruct st. unfold record_all. cbn. rewrite app_nil_r. reflexivity. Qed.

Lemma record_all_cons ev evs st :
  record_all (ev :: evs) st = record_all evs (record ev st).
Proof.
  unfold record_all, record. cbn. rewrite <- app_assoc. reflexivity.
Qed.

Lemma try_encodings_run W file_path remaining st :
  try_encodings W file_path remaining st
  = match first_success W file_path remaining with
    | Some (failed, encoding, df) =>
        (Ok df,
         record_all (attempt_log W file_path failed
                     ++ [Logged INFO (msg_file_read file_path encoding)]) st)
    | None =>
        (Raise (unreadable file_path),
         record_all (attempt_log W file_path remaining) st)
    end.
Proof.
  revert st. induction remaining as [|encoding rest IH]; intros st.
  - cbn. rewrite record_all_nil. reflexivity.
  - cbn [try_encodings first_success].
    unfold attempt_log, failure_text in *.
    destruct (read_with W file_path encoding) as [df|e] eqn:E.
    + reflexivity.
    + unfold bind, logger, emit. cbn [fst snd].
      change (mkState _ _ _ _ (trace st ++ [?ev]) _ _ _) with (record ev st).
      rewrite IH.
      destruct (first_success W file_path rest) as [[[failed enc] df]|];
        cbn [map app]; rewrite E; rewrite record_all_cons; reflexivity.
Qed.

Lemma first_success_some W file_path remaining failed encoding df :
  first_success W file_path remaining = Some (failed, encoding, df)
  <-> exists rest,
        remaining = failed ++ encoding :: rest
        /\ Forall (fails W file_path) failed
        /\ read_with W file_path encoding = Ok df.
Proof.
  revert failed. induction remaining as [|enc0 rem IH]; intros failed.
  - cbn. split; [discriminate|]. intros [rest [H _]].
    destruct failed; discriminate.
  - cbn. destruct (read_with W file_path enc0) as [df0|e0] eqn:E.
    + split.
      * intros H. injection H as <- <- <-. exists rem. auto.
      * intros [rest [Hl [Hf Hr]]]. destruct failed as [|x failed].
        -- cbn in Hl. injection Hl as <- <-. congruence.
        -- cbn in Hl. injection Hl as <- _. inversion Hf as [|? ? [e He] _]; subst.
           congruence.
    + destruct (first_success W file_path rem) as [[[failed' enc'] df']|] eqn:F.
      * split.
        -- intros H. injection H as <- <- <-.
           destruct (proj1 (IH failed') eq_refl) as [rest [Hl [Hf Hr]]].
           exists rest. subst rem. repeat split; auto.
           constructor; [exists e0; exact E | exact Hf].
        -- intros [rest [Hl [Hf Hr]]]. destruct failed as [|x failed].
           ++ cbn in Hl. injection Hl as <- <-. congruence.
           ++ cbn in Hl. injection Hl as <- Hl. inversion Hf; subst.
              assert (H' : Some (failed', enc', df') = Some (failed, encoding, df)).
              { apply IH. exists rest. auto. }
              congruence.
      * split; [discriminate|].
        intros [rest [Hl [Hf Hr]]]. destruct failed as [|x failed].
        -- cbn in Hl. injection Hl as <- <-. congruence.
        -- cbn in Hl. injection Hl as <- Hl. inversion Hf; subst.
           assert (H' : None = Some (failed, encoding, df)).
           { apply IH. exists rest. auto. }
           discriminate.
Qed.

Lemma first_success_none W file_path remaining :
  first_success W file_path remaining = None
  <-> Forall (fails W file_path) remaining.
Proof.
  induction remaining as [|enc0 rem IH]; cbn.
  - split; auto.
  - destruct (read_with W file_path enc0) as [df0|e0] eqn:E.
    + split; [discriminate|]. intros H. inversion H as [|? ? [e He] _]; subst.
      congruence.
    + destruct (first_success W file_path rem) as [[[failed' enc'] df']|].
      * split; [discriminate|]. intros H. inversion H; subst.
        apply IH in H3. discriminate.
      * split; [|reflexivity]. intros _. constructor; [exists e0; exact E|].
        apply IH. reflexivity.
Qed.

Lemma read_csv_run W file_path st :
  read_csv_with_encoding_tries W file_path st
  = match first_success W file_path encodings with
    | Some (failed, encoding, df) =>
        (Ok df,
         record_all (Enter (call_read_csv_with_encoding_tries file_path)
                     :: attempt_log W file_path failed
                     ++ [Logged INFO (msg_file_read file_path encoding)]) st)
    | None =>
        (Raise (unreadable file_path),
         record_all (Enter (call_read_csv_with_encoding_tries file_path)
                     :: attempt_log W file_path encodings) st)
    end.
Proof.
  unfold read_csv_with_encoding_tries, bind, enter, emit.
  change (mkState _ _ _ _ (trace st ++ [?ev]) _ _ _) with (record ev st).
  rewrite try_encodings_run.
  destruct (first_success W file_path encodings) as [[[failed enc] df]|];
    rewrite record_all_cons; reflexivity.
Qed.

(** C5. The resolver tries utf-8-sig, cp1251, latin1 and utf-16-le in that
    order, the last one on the bytes of the file without a leading FF FE,
    always with the separator ';'.  It returns the frame of the first
    encoding that does not raise, having logged one warning for each
    earlier encoding; if all four raise, it raises a ValueError whose text
    ends with the list of the four encodings. *)
Theorem encoding_resolver_first_success (W : World) (file_path : string)
    (st : State) :
  encodings = ["utf-8-sig"; "cp1251"; "latin1"; "utf-16-le"]
  /\ (forall encoding,
        encoding <> "utf-16-le" ->
        read_with W file_path encoding = pd_read_csv W file_path ";" encoding)
  /\ (forall content,
        open_rb_read W file_path = Ok content ->
        read_with W file_path "utf-16-le"
        = match decode_utf_16_le W
                  (match content with
                   | Byte.xff :: Byte.xfe :: rest => rest
                   | _ => content
                   end) with
          | Ok decoded => pd_read_csv_text W decoded ";"
          | Raise e => Raise e
          end)
  /\ (forall failed encoding rest df,
        encodings = failed ++ encoding :: rest ->
        Forall (fails W file_path) failed ->
        read_with W file_path encoding = Ok df ->
        read_csv_with_encoding_tries W file_path st
        = (Ok df,
           record_all (Enter (call_read_csv_with_encoding_tries file_path)
                       :: attempt_log W file_path failed
                       ++ [Logged INFO (msg_file_read file_path encoding)]) st))
  /\ (Forall (fails W file_path) encodings ->
        read_csv_with_encoding_tries W file_path st
        = (Raise (ValueError
                    ("Не удалось прочитать файл " ++ file_path
                     ++ " ни с одной из кодировок: "
                     ++ "['utf-8-sig', 'cp1251', 'latin1', 'utf-16-le']")%string),
           record_all (Enter (call_read_csv_with_encoding_tries file_path)
                       :: attempt_log W file_path encodings) st)).
Proof.
  split; [reflexivity|]. split.
  { intros encoding Hne. unfold read_with.
    destruct (String.eqb_spec encoding "utf-16-le"); [contradiction|reflexivity]. }
  split.
  { intros content Hc. unfold read_with. cbn [String.eqb Ascii.eqb Bool.eqb].
    change (String.eqb "utf-16-le" "utf-16-le") with true. cbv iota.
    rewrite Hc.
    destruct content as [|b1 content]; [reflexivity|].
    destruct b1; try reflexivity.
    destruct content as [|b2 rest]; [reflexivity|].
    destruct b2; reflexivity. }
  split.
  { intros failed encoding rest df Hl Hf Hr. rewrite read_csv_run.
    assert (H : first_success W file_path encodings = Some (failed, encoding, df)).
    { apply first_success_some. exists rest. auto. }
    rewrite H. reflexivity. }
  intros Hall. rewrite read_csv_run.
  rewrite (proj2 (first_success_none W file_path encodings) Hall). reflexivity.
Qed.

Lemma encoding_resolver_witness :
  read_csv_with_encoding_tries (world_of latin1_only no_faults) "accounts.csv"
    initial_state
  = (Ok accounts_frame,
     record_all
       [ Enter (call_read_csv_with_encoding_tries "accounts.csv");
         Logged WARNING (msg_encoding_failed "utf-8-sig" "invalid start byte");
         Logged WARNING (msg_encoding_failed "cp1251" "invalid start byte");
         Logged INFO (msg_file_read "accounts.csv" "latin1") ]
       initial_state)
  /\ fst (read_csv_with_encoding_tries (world_of unparseable no_faults)
            "accounts.csv" initial_state)
     = Raise (ValueError
                ("Не удалось прочитать файл accounts.csv"
                 ++ " ни с одной из кодировок: "
                 ++ "['utf-8-sig', 'cp1251', 'latin1', 'utf-16-le']")%string).
Proof.
  split.
  - destruct (encoding_resolver_first_success (world_of latin1_only no_faults)
                "accounts.csv" initial_state) as [_ [_ [_ [Hfirst _]]]].
    apply (Hfirst ["utf-8-sig"; "cp1251"] "latin1" ["utf-16-le"] accounts_frame
             eq_refl).
    + repeat constructor; exists decode_error; reflexivity.
    + reflexivity.
  - destruct (encoding_resolver_first_success (world_of unparseable no_faults)
                "accounts.csv" initial_state) as [_ [_ [_ [_ Hnone]]]].
    rewrite Hnone; [reflexivity|].
    repeat constructor; exists decode_error; reflexivity.
Defined.

(** ** Opening the audit record *)

Lemma quiet_opening : quiet (fun ev => opening_event ev = true).
Proof. repeat split. Qed.

Lemma quiet_closing : quiet (fun ev => closing_event ev = true).
Proof. repeat split. Qed.

Lemma quiet_body posting : quiet (fun ev => body_event posting ev = true).
Proof. repeat split. Qed.

Lemma log_etl_start_events W table_name st r st' :
  log_etl_start W table_name st = (r, st') ->
  exists evs, trace st' = trace st ++ evs
              /\ Forall (fun ev => opening_event ev = true) evs.
Proof.
  intros H.
  apply (emits_log_etl_start W _ (trace st) quiet_opening table_name
           eq_refl (fun _ _ => String.eqb_refl _) (fun _ => eq_refl)
           st r st');
    [apply emits_only_start | exact H].
Qed.

(** When [log_etl_start] raises, nothing was committed; when it returns,
    it returns the identifier the database gave, an integer. *)
Lemma log_etl_start_outcome W table_name st r st' :
  log_etl_start W table_name st = (r, st') ->
  match r with
  | Raise _ => committed st' = committed st
  | Ok log_id => log_id = VInt (next_log_id st)
  end.
Proof.
  unfold log_etl_start, fetchone_item0, bind, try_except, enter, emit, db, now,
    get_state, logger, raise, ret.
  cbn [trace record db_effect db_failure].
  destruct (db_raises W (trace st ++ [Enter (call_log_etl_start table_name)]) cursor)
    as [e1|]; [intros H; inversion H; subst; reflexivity|].
  repeat (cbn;
          match goal with
          | |- context [db_raises W ?t ?op] => destruct (db_raises W t op)
          end).
  all: cbn; intros H; inversion H; subst; clear H; cbn; reflexivity.
Qed.

(** ** Closing the audit record *)

Lemma execute_sql_raises W query params st e st' :
  execute_sql W query params st = (Raise e, st') ->
  exists evs,
    trace st' = trace st ++ Enter (call_execute_sql query params) :: evs
    /\ Exists (fun ev => raised ev = true) evs
    /\ committed st' = committed st.
Proof.
  unfold execute_sql, bind, try_except, enter, emit, db, logger, raise, ret.
  cbn [trace record db_effect db_failure].
  destruct (db_raises W (trace st ++ [Enter (call_execute_sql query params)]) cursor)
    as [e1|].
  { intros H; inversion H; subst; clear H. cbn. eexists.
    split; [rewrite <- app_assoc; reflexivity|].
    split; [apply Exists_cons_hd; reflexivity | reflexivity]. }
  cbn.
  match goal with
  | |- context [db_raises W ?t (execute query params)] =>
      destruct (db_raises W t (execute query params)) as [e2|]
  end.
  { cbn.
    match goal with
    | |- context [db_raises W ?t rollback] =>
        destruct (db_raises W t rollback) as [e3|]
    end; cbn; intros H; inversion H; subst; clear H; cbn; eexists;
      (split; [repeat rewrite <- app_assoc; reflexivity|]);
      (split; [apply Exists_cons_tl, Exists_cons_hd; reflexivity | reflexivity]). }
  cbn.
  destruct (run_statement query params (next_log_id st) (working st)) as [w row].
  cbn.
  match goal with
  | |- context [db_raises W ?t commit] =>
      destruct (db_raises W t commit) as [e4|]
  end; [|intros H; discriminate H].
  cbn.
  match goal with
  | |- context [db_raises W ?t rollback] =>
      destruct (db_raises W t rollback) as [e5|]
  end; cbn; intros H; inversion H; subst; clear H; cbn; eexists;
    (split; [repeat rewrite <- app_assoc; reflexivity|]);
    (split; [apply Exists_cons_tl, Exists_cons_tl, Exists_cons_hd; reflexivity
            | reflexivity]).
Qed.

Lemma run_statement_log_end t status n err z next_id s :
  run_statement log_end_query
    [PTime t; PValue (VStr status); PValue (VInt n); PValue err; PValue (VInt z)]
    next_id s
  = (mkStore (map (update_record t status n err z) (etl_logs s)) (journal s), None).
Proof. reflexivity. Qed.

Lemma updated_records t status n err z (l : list RunRecord) :
  Forall (fun rec => rr_log_id rec = z ->
                     rr_status rec = status /\ rr_records_processed rec = n)
         (map (update_record t status n err z) l).
Proof.
  induction l as [|rec l IH]; cbn; constructor; [|exact IH].
  unfold update_record. destruct (Z.eqb_spec (rr_log_id rec) z); cbn.
  - auto.
  - intros. contradiction.
Qed.

(** [log_etl_end] records its call and runs the UPDATE once.  If it
    returns, no call on the connection raised and every audit row with the
    identifier holds the status and the count; if it raises, some call on
    the connection raised and nothing was committed. *)
Lemma log_etl_end_outcome W log_id table_name status n err st r st' :
  log_etl_end W log_id table_name status n err st = (r, st') ->
  exists evs,
    trace st' = trace st
                ++ Enter (call_log_etl_end log_id table_name status n err) :: evs
    /\ Forall (fun ev => closing_event ev = true) evs
    /\ match r with
       | Ok _ =>
           Forall (fun ev => raised ev = false) evs
           /\ forall z, log_id = VInt z ->
                Forall (fun rec => rr_log_id rec = z ->
                                   rr_status rec = status
                                   /\ rr_records_processed rec = n)
                       (etl_logs (committed st'))
       | Raise _ =>
           Exists (fun ev => raised ev = true) evs
           /\ committed st' = committed st
       end.
Proof.
  intros H.
  assert (Hev : exists evs,
             trace st' = (trace st
                          ++ [Enter (call_log_etl_end log_id table_name status n err)])
                         ++ evs
             /\ Forall (fun ev => closing_event ev = true) evs).
  { revert H. unfold log_etl_end, bind at 1, enter, emit.
    change (mkState _ _ _ _ (trace st ++ [?ev]) _ _ _) with (record ev st).
    intros H.
    refine (_ : emits_only (fun ev => closing_event ev = true)
                  (trace (record (Enter (call_log_etl_end log_id table_name status n err)) st))
                  st').
    eapply (preserves_bind _ (now W)); [apply preserves_now| |apply emits_only_start|exact H].
    intros t. apply preserves_bind; [|intros; apply preserves_ret].
    apply emits_execute_sql; [apply quiet_closing|reflexivity|].
    intros e. apply String.eqb_refl. }
  destruct Hev as [evs [Ht Hc]]. exists evs.
  split; [rewrite Ht, <- app_assoc; reflexivity|]. split; [exact Hc|].
  revert H Ht. unfold log_etl_end, bind, enter, emit, now, ret.
  change (mkState _ _ _ _ (trace st ++ [?ev]) _ _ _) with (record ev st).
  cbn [trace record].
  match goal with
  | |- context [execute_sql W ?q ?p ?s] =>
      destruct (execute_sql W q p s) as [[b|e] st2] eqn:E
  end; intros H Ht; inversion H; subst; clear H.
  - apply execute_sql_returns in E. destruct E as [Etr [_ Ecom]].
    cbn [trace record] in Etr. rewrite Etr in Ht.
    apply app_inv_head in Ht. subst evs. split; [repeat constructor|].
    intros z ->. rewrite Ecom. destruct err as [m|]; cbn [param_of_error];
      rewrite run_statement_log_end; cbn [fst etl_logs]; apply updated_records.
  - apply execute_sql_raises in E.
    destruct E as [evs' [Etr [Hex Ecom]]].
    cbn [trace record] in Etr. rewrite Etr in Ht.
    apply app_inv_head in Ht. subst evs. split; [|exact Ecom].
    apply Exists_cons_tl. exact Hex.
Qed.

(** ** The stages of a load *)

Lemma load_data_from_csv_unfold PK W table_name file_path st :
  load_data_from_csv PK W table_name file_path st
  = match log_etl_start W table_name
            (record (Logged INFO (msg_load_begin table_name file_path))
               (record (Enter (call_load_data_from_csv table_name file_path)) st))
    with
    | (Raise e, st1) => (Raise e, st1)
    | (Ok log_id, st1) =>
        match load_guarded PK W table_name file_path (reset_locals st1) with
        | (r1, st2) =>
            match log_etl_end W log_id table_name (status_of (error_msg st2))
                    (records_processed st2) (error_msg st2) st2 with
            | (Raise e, st3) => (Raise e, st3)
            | (Ok _, st3) =>
                (match r1 with
                 | Ok _ => Ok (records_processed st3)
                 | Raise e => Raise e
                 end, st3)
            end
        end
    end.
Proof.
  cbv beta iota zeta delta
    [load_data_from_csv load_guarded reset_locals status_of bind try_finally
     try_except enter logger emit set_error_msg set_records_processed get_state
     ret raise load_finally record committed working next_log_id cursor_row
     trace conn_is_set error_msg records_processed].
  destruct (log_etl_start W table_name _) as [[log_id|e] st1]; [|reflexivity].
  destruct (load_body PK W table_name file_path _) as [[u|e] st2];
    destruct (log_etl_end W log_id table_name _ _ _ _) as [[u'|e'] st3];
    reflexivity.
Qed.

Lemma trace_record_all evs st : trace (record_all evs st) = trace st ++ evs.
Proof. reflexivity. Qed.

Lemma locals_record_all evs st : locals (record_all evs st) = locals st.
Proof. reflexivity. Qed.

Lemma attempt_log_logged (Q : Event -> Prop) W file_path failed :
  (forall level m, Q (Logged level m)) -> Forall Q (attempt_log W file_path failed).
Proof.
  intros H. unfold attempt_log. induction failed; cbn; constructor; auto.
Qed.

(** Only the balance table can fail in normalisation. *)
Lemma normalize_frame_raises fs tb table_name df e :
  normalize_frame fs tb table_name df = Raise e ->
  table_name = "ds.ft_balance_f".
Proof.
  unfold normalize_frame. cbv zeta.
  destruct (String.eqb_spec table_name "ds.ft_balance_f") as [->|Hne];
    [reflexivity|discriminate].
Qed.

Lemma load_body_stages PK W table_name file_path st r st' :
  load_body PK W table_name file_path st = (r, st') ->
  match first_success W file_path encodings with
  | None =>
      r = Raise (unreadable file_path)
      /\ st' = record_all
                 (Enter (call_read_csv_with_encoding_tries file_path)
                  :: attempt_log W file_path encodings) st
  | Some (failed, encoding, df0) =>
      let st1 :=
        record_all
          (Enter (call_read_csv_with_encoding_tries file_path)
           :: attempt_log W file_path failed
           ++ [Logged INFO (msg_file_read file_path encoding)]) st in
      match normalize_frame (float_str W) (timestamp_bounds W) table_name df0 with
      | Raise e => r = Raise e /\ st' = st1
      | Ok df =>
          let query := insert_query PK table_name (columns df) in
          if String.eqb table_name "ds.ft_posting_f"
          then match execute_sql W truncate_query [] st1 with
               | (Raise e, st2) => r = Raise e /\ st' = st2
               | (Ok _, st2) =>
                   insert_batch W table_name df query (data_tuples df)
                     (record (Logged INFO (msg_truncated table_name)) st2)
                   = (r, st')
               end
          else insert_batch W table_name df query (data_tuples df) st1 = (r, st')
      end
  end.
Proof.
  unfold load_body, bind at 1. rewrite read_csv_run.
  destruct (first_success W file_path encodings) as [[[failed enc] df0]|].
  2:{ intros H. inversion H. auto. }
  cbv zeta. unfold bind at 1, lift.
  destruct (normalize_frame (float_str W) (timestamp_bounds W) table_name df0) as [df|e].
  2:{ intros H. inversion H. auto. }
  unfold bind at 1.
  destruct (String.eqb table_name "ds.ft_posting_f").
  - unfold bind at 1.
    destruct (execute_sql W truncate_query [] _) as [[b|e] st2].
    + unfold logger, emit.
      change (mkState _ _ _ _ (trace ?s ++ [?ev]) _ _ _) with (record ev s).
      auto.
    + intros H. inversion H. auto.
  - unfold ret. auto.
Qed.

(** ** The body of the load *)

Section BodyEvents.

Variable PK : Py.dict (option (list string)).
Variable W : World.
Variable Q : Event -> Prop.
Variable base : list Event.
Hypothesis HQ : quiet Q.

Lemma emits_load_body table_name file_path :
  Q (Enter (call_read_csv_with_encoding_tries file_path)) ->
  (String.eqb table_name "ds.ft_posting_f" = true ->
   Q (Enter (call_execute_sql truncate_query []))
   /\ forall e, Q (Db (execute truncate_query []) e)) ->
  (forall e, Q (Db (execute "BEGIN;" []) e)) ->
  (forall df query e, Q (Db (execute_batch query (data_tuples df) 1000) e)) ->
  preserves (emits_only Q base) (load_body PK W table_name file_path).
Proof.
  intros Hread Htrunc Hbegin Hbatch. unfold load_body.
  apply preserves_bind; [apply emits_read_csv; assumption|intros df0].
  apply preserves_bind; [apply preserves_lift|intros df].
  apply preserves_bind.
  - destruct (String.eqb table_name "ds.ft_posting_f"); [|apply preserves_ret].
    destruct (Htrunc eq_refl) as [H1 H2].
    apply preserves_bind; [apply emits_execute_sql; assumption|intros _].
    apply emits_logger, HQ.
  - intros _. apply emits_insert_batch; auto.
Qed.

Lemma emits_load_guarded table_name file_path :
  Q (Enter (call_read_csv_with_encoding_tries file_path)) ->
  (String.eqb table_name "ds.ft_posting_f" = true ->
   Q (Enter (call_execute_sql truncate_query []))
   /\ forall e, Q (Db (execute truncate_query []) e)) ->
  (forall e, Q (Db (execute "BEGIN;" []) e)) ->
  (forall df query e, Q (Db (execute_batch query (data_tuples df) 1000) e)) ->
  preserves (emits_only Q base) (load_guarded PK W table_name file_path).
Proof.
  intros Hread Htrunc Hbegin Hbatch. unfold load_guarded.
  apply preserves_try_except; [apply emits_load_body; assumption|intros e].
  apply preserves_bind; [apply emits_set_error_msg|intros _].
  apply preserves_bind; [apply emits_logger, HQ|intros _].
  apply preserves_raise.
Qed.

End BodyEvents.

Lemma quiet_calm : quiet calm.
Proof. repeat split. Qed.

Lemma calm_read_events W file_path failed tail :
  Forall calm tail ->
  Forall calm (Enter (call_read_csv_with_encoding_tries file_path)
               :: attempt_log W file_path failed ++ tail).
Proof.
  intros Ht. constructor; [split; reflexivity|]. apply Forall_app. split; [|exact Ht].
  apply attempt_log_logged. intros; split; reflexivity.
Qed.

Lemma calm_not_done evs : Forall calm evs -> Forall not_done evs.
Proof. apply Forall_impl. intros ev [H _]. exact H. Qed.

Lemma calm_no_batch evs :
  Forall calm evs -> ~ Exists (fun ev => in_batch_transaction ev = true) evs.
Proof.
  intros Hc Hex. apply Exists_exists in Hex. destruct Hex as [ev [Hin Hb]].
  rewrite Forall_forall in Hc. destruct (Hc ev Hin) as [_ Hn]. congruence.
Qed.

Lemma calm_no_truncate_call evs :
  Forall calm evs ->
  Forall (fun ev => forall c, ev = Enter c -> calm ev) evs.
Proof. apply Forall_impl. auto. Qed.

Lemma read_events_no_sql_call W file_path failed tail query params :
  (forall ev, In ev tail -> exists level m, ev = Logged level m) ->
  ~ In (Enter (call_execute_sql query params))
       (Enter (call_read_csv_with_encoding_tries file_path)
        :: attempt_log W file_path failed ++ tail).
Proof.
  intros Ht [H|H]; [discriminate|]. apply in_app_or in H. destruct H as [H|H].
  - unfold attempt_log in H. apply in_map_iff in H. destruct H as [x [Hx _]].
    discriminate.
  - destruct (Ht _ H) as [l [m Hm]]. discriminate.
Qed.

Lemma batch_result_of PK W table_name df st r st' pre :
  insert_batch W table_name df (insert_query PK table_name (columns df))
    (data_tuples df) st = (r, st') ->
  locals st = (None, 0%Z) ->
  Forall calm pre ->
  exists inside,
    trace st' = trace st ++ inside
    /\ batch_result PK table_name r st' (pre ++ inside).
Proof.
  intros H Hloc Hpre.
  destruct (insert_batch_outcome _ _ _ _ _ _ _ _ H Hloc) as [evs [Ht Hcase]].
  exists evs. split; [exact Ht|].
  destruct Hcase as [[-> [-> [Hl Hj]]]|[e [-> Hcase]]].
  - left. split; [reflexivity|]. unfold locals in Hl. injection Hl as He Hr.
    split; [exact He|]. exists pre, df, (journal (working st)). auto.
  - right. exists e. split; [reflexivity|].
    destruct Hcase as [[Hr Hf]|[Hr [e' [post [-> [Hf Hc]]]]]].
    + left. split; [exact Hr|]. apply Forall_app. split; [|exact Hf].
      apply calm_not_done, Hpre.
    + right.
      exists (pre ++ [Db cursor None; Db (execute "BEGIN;" []) None]),
        (insert_query PK table_name (columns df)), (data_tuples df), e', post.
      split; [rewrite <- !app_assoc; reflexivity|].
      split; [|split; [exact Hf|exact Hr]].
      apply Forall_app. split; [apply calm_not_done, Hpre|].
      repeat constructor.
Qed.

Lemma calm_executed_truncate : Forall calm (executed truncate_query []).
Proof. repeat constructor. Qed.

(** The body of the [try]: what it counted, whether it truncated, and in
    which order. *)
Lemma load_body_outcome PK W table_name file_path st r st' :
  load_body PK W table_name file_path st = (r, st') ->
  locals st = (None, 0%Z) ->
  exists evs,
    trace st' = trace st ++ evs
    /\ batch_result PK table_name r st' evs
    /\ (In (Enter (call_execute_sql truncate_query [])) evs ->
        readable W file_path = true)
    /\ (String.eqb table_name "ds.ft_posting_f" = true ->
        readable W file_path = true ->
        In (Enter (call_execute_sql truncate_query [])) evs)
    /\ (String.eqb table_name "ds.ft_posting_f" = true ->
        Exists (fun ev => in_batch_transaction ev = true) evs ->
        exists pre post,
          evs = pre ++ committed_truncate ++ post /\ Forall calm pre).
Proof.
  intros H Hloc. apply load_body_stages in H. unfold readable.
  destruct (first_success W file_path encodings) as [[[failed enc] df0]|].
  2:{ destruct H as [-> ->]. eexists. split; [apply trace_record_all|].
      assert (Hcalm : Forall calm
                (Enter (call_read_csv_with_encoding_tries file_path)
                 :: attempt_log W file_path encodings)).
      { rewrite <- (app_nil_r (attempt_log _ _ _)).
        apply calm_read_events. constructor. }
      split; [|split; [|split; [discriminate|]]].
      - right. eexists. split; [reflexivity|]. left.
        split; [|apply calm_not_done, Hcalm].
        pose proof (locals_record_all
                      (Enter (call_read_csv_with_encoding_tries file_path)
                       :: attempt_log W file_path encodings) st) as Hl.
        rewrite Hloc in Hl. unfold locals in Hl. congruence.
      - intros Hin. exfalso.
        rewrite <- (app_nil_r (attempt_log _ _ _)) in Hin.
        revert Hin. apply read_events_no_sql_call. intros ev [].
      - intros _ Hex. exfalso. exact (calm_no_batch _ Hcalm Hex). }
  cbv zeta in H.
  set (revs := Enter (call_read_csv_with_encoding_tries file_path)
               :: attempt_log W file_path failed
               ++ [Logged INFO (msg_file_read file_path enc)]) in *.
  assert (Hrevs : Forall calm revs).
  { apply calm_read_events. repeat constructor. }
  assert (Hnosql : ~ In (Enter (call_execute_sql truncate_query [])) revs).
  { apply read_events_no_sql_call. intros ev [<-|[]]. eauto. }
  assert (Hloc1 : locals (record_all revs st) = (None, 0%Z)).
  { rewrite locals_record_all. exact Hloc. }
  destruct (normalize_frame (float_str W) (timestamp_bounds W) table_name df0) as [df|e] eqn:N.
  2:{ destruct H as [-> ->]. exists revs. split; [apply trace_record_all|].
      apply normalize_frame_raises in N. subst table_name.
      split; [|split; [|split; [discriminate|discriminate]]].
      - right. eexists. split; [reflexivity|]. left.
        split; [|apply calm_not_done, Hrevs].
        unfold locals in Hloc1. congruence.
      - reflexivity. }
  destruct (String.eqb table_name "ds.ft_posting_f") eqn:P.
  - destruct (execute_sql W truncate_query [] (record_all revs st))
      as [[b|e] st2] eqn:E.
    + destruct (execute_sql_returns _ _ _ _ _ _ E) as [Et [El _]].
      rewrite trace_record_all in Et.
      assert (Hl2 : locals (record (Logged INFO (msg_truncated table_name)) st2)
                    = (None, 0%Z)).
      { rewrite locals_record, El. exact Hloc1. }
      assert (Hpre : Forall calm (revs ++ executed truncate_query []
                                  ++ [Logged INFO (msg_truncated table_name)])).
      { apply Forall_app. split; [exact Hrevs|]. repeat constructor. }
      destruct (batch_result_of _ _ _ _ _ _ _ _ H Hl2 Hpre) as [inside [Ht Hb]].
      exists ((revs ++ executed truncate_query []
               ++ [Logged INFO (msg_truncated table_name)]) ++ inside).
      split.
      { rewrite Ht, trace_record, Et, <- !app_assoc. reflexivity. }
      split; [exact Hb|]. split; [reflexivity|]. split.
      * intros _ _. apply in_or_app. left. apply in_or_app. right. left.
        reflexivity.
      * intros _ _. exists revs, ([Logged INFO (msg_truncated table_name)] ++ inside).
        split; [rewrite <- !app_assoc; reflexivity | exact Hrevs].
    + destruct H as [-> ->].
      destruct (execute_sql_raises _ _ _ _ _ _ E) as [evs' [Et [_ _]]].
      rewrite trace_record_all in Et.
      assert (Hc : emits_only calm (trace (record_all revs st)) st2).
      { eapply (emits_execute_sql W calm _ quiet_calm truncate_query []);
          [split; reflexivity|intro; split; reflexivity|apply emits_only_start|exact E]. }
      destruct Hc as [evs2 [Et2 Hc2]]. rewrite trace_record_all in Et2.
      assert (evs2 = Enter (call_execute_sql truncate_query []) :: evs').
      { rewrite Et2 in Et. apply app_inv_head in Et. exact Et. }
      subst evs2.
      assert (Hall : Forall calm
                (revs ++ Enter (call_execute_sql truncate_query []) :: evs')).
      { apply Forall_app. auto. }
      exists (revs ++ Enter (call_execute_sql truncate_query []) :: evs').
      split; [rewrite Et2, <- app_assoc; reflexivity|].
      split; [|split; [reflexivity|split]].
      * right. eexists. split; [reflexivity|]. left.
        split; [|apply calm_not_done, Hall].
        pose proof (keeps_execute_sql (None, 0%Z) W truncate_query []
                      _ _ _ Hloc1 E) as Hl.
        unfold locals in Hl. congruence.
      * intros _ _. apply in_or_app. right. left. reflexivity.
      * intros _ Hex. exfalso. exact (calm_no_batch _ Hall Hex).
  - destruct (batch_result_of _ _ _ _ _ _ _ _ H Hloc1 Hrevs) as [inside [Ht Hb]].
    exists (revs ++ inside).
    split; [rewrite Ht, trace_record_all, <- app_assoc; reflexivity|].
    split; [exact Hb|]. split; [reflexivity|].
    split; discriminate.
Qed.

Lemma batch_result_logged PK table_name e st st' evs level m :
  batch_result PK table_name (Raise e) st evs ->
  records_processed st' = records_processed st ->
  batch_result PK table_name (Raise e) st' (evs ++ [Logged level m]).
Proof.
  intros [[H _]|[e0 [He H]]] Hr; [discriminate|].
  right. exists e0. split; [exact He|]. rewrite Hr.
  destruct H as [[H0 Hf]|[pre [q [tuples [e' [post [-> [Hp [Hq Hn]]]]]]]]].
  - left. split; [exact H0|]. apply Forall_app. split; [exact Hf|].
    repeat constructor.
  - right. exists pre, q, tuples, e', (post ++ [Logged level m]).
    split; [rewrite <- !app_assoc; reflexivity|].
    split; [exact Hp|]. split; [|exact Hn].
    apply Forall_app. split; [exact Hq|]. repeat constructor.
Qed.

(** The outer [try] with its handler (lines 148-231). *)
Lemma load_guarded_outcome PK W table_name file_path st r st' :
  load_guarded PK W table_name file_path st = (r, st') ->
  locals st = (None, 0%Z) ->
  exists evs,
    trace st' = trace st ++ evs
    /\ batch_result PK table_name r st' evs
    /\ match r with
       | Ok _ => error_msg st' = None
       | Raise e => error_msg st' = Some (exn_str e)
       end
    /\ (In (Enter (call_execute_sql truncate_query [])) evs ->
        readable W file_path = true)
    /\ (String.eqb table_name "ds.ft_posting_f" = true ->
        readable W file_path = true ->
        In (Enter (call_execute_sql truncate_query [])) evs)
    /\ (String.eqb table_name "ds.ft_posting_f" = true ->
        Exists (fun ev => in_batch_transaction ev = true) evs ->
        exists pre post,
          evs = pre ++ committed_truncate ++ post /\ Forall calm pre).
Proof.
  unfold load_guarded, try_except. intros H Hloc.
  destruct (load_body PK W table_name file_path st) as [[u|e] st1] eqn:B.
  - inversion H; subst; clear H.
    destruct (load_body_outcome _ _ _ _ _ _ _ B Hloc)
      as [evs [Ht [Hb [Hc1 [Hc2 Hd]]]]].
    exists evs. repeat split; auto.
    destruct Hb as [[_ [He _]]|[e [He _]]]; [exact He|discriminate].
  - revert H. unfold bind, set_error_msg, logger, emit, raise.
    intros H. inversion H; subst; clear H.
    destruct (load_body_outcome _ _ _ _ _ _ _ B Hloc)
      as [evs [Ht [Hb [Hc1 [Hc2 Hd]]]]].
    exists (evs ++ [Logged ERROR (msg_load_failed table_name (exn_str e))]).
    cbn [trace error_msg]. split; [rewrite Ht, <- app_assoc; reflexivity|].
    split; [eapply batch_result_logged; [exact Hb|reflexivity]|].
    split; [reflexivity|]. split; [|split].
    + intros Hin. apply in_app_or in Hin. destruct Hin as [Hin|[Hin|[]]];
        [auto|discriminate].
    + intros P R. apply in_or_app. left. auto.
    + intros P Hex. apply Exists_app in Hex. destruct Hex as [Hex|Hex].
      * destruct (Hd P Hex) as [pre [post [-> Hpre]]].
        exists pre, (post ++ [Logged ERROR (msg_load_failed table_name (exn_str e))]).
        split; [rewrite <- !app_assoc; reflexivity|exact Hpre].
      * inversion Hex as [? ? Hx|? ? Hx]; [discriminate Hx|inversion Hx].
Qed.

(** ** A whole load *)

Lemma keeps_log_etl_end v W log_id table_name status n err :
  preserves (fun st => locals st = v)
            (log_etl_end W log_id table_name status n err).
Proof.
  unfold log_etl_end, enter.
  apply preserves_bind; [apply keeps_emit|intros _].
  apply preserves_bind; [apply preserves_now|intros t].
  apply preserves_bind; [apply keeps_execute_sql|intros _]. apply preserves_ret.
Qed.

Lemma load_body_reads PK W table_name file_path st r st' :
  load_body PK W table_name file_path st = (r, st') ->
  exists tail,
    trace st' = trace st
                ++ Enter (call_read_csv_with_encoding_tries file_path) :: tail.
Proof.
  intros H.
  assert (G : emits_only (fun _ => True)
                (trace st ++ [Enter (call_read_csv_with_encoding_tries file_path)])
                st').
  { revert H. unfold load_body, read_csv_with_encoding_tries, bind at 1 2, enter, emit.
    change (mkState _ _ _ _ (trace st ++ [?ev]) _ _ _) with (record ev st).
    intros H.
    change (trace st ++ [Enter (call_read_csv_with_encoding_tries file_path)])
      with (trace (record (Enter (call_read_csv_with_encoding_tries file_path)) st)).
    assert (HQ : quiet (fun _ : Event => True)) by (repeat split).
    destruct (try_encodings W file_path encodings
                (record (Enter (call_read_csv_with_encoding_tries file_path)) st))
      as [[df0|e] s1] eqn:T.
    - assert (I1 : emits_only (fun _ => True)
                     (trace (record (Enter (call_read_csv_with_encoding_tries file_path)) st))
                     s1).
      { eapply emits_try_encodings; [exact HQ|apply emits_only_start|exact T]. }
      revert I1 H.
      generalize (trace (record (Enter (call_read_csv_with_encoding_tries file_path)) st)).
      intros base I1 H.
      eapply (preserves_bind _ (lift (normalize_frame (float_str W) (timestamp_bounds W) table_name df0)));
        [apply preserves_lift| |exact I1|exact H].
      intros df. apply preserves_bind.
      + destruct (String.eqb table_name "ds.ft_posting_f"); [|apply preserves_ret].
        apply preserves_bind; [apply emits_execute_sql; auto|intros _].
        apply emits_logger. exact I.
      + intros _. apply emits_insert_batch; auto.
    - inversion H; subst.
      eapply emits_try_encodings; [exact HQ|apply emits_only_start|exact T]. }
  destruct G as [tail [Ht _]]. exists tail. rewrite Ht, <- app_assoc. reflexivity.
Qed.

Lemma load_guarded_reads PK W table_name file_path st r st' :
  load_guarded PK W table_name file_path st = (r, st') ->
  exists tail,
    trace st' = trace st
                ++ Enter (call_read_csv_with_encoding_tries file_path) :: tail.
Proof.
  unfold load_guarded, try_except. intros H.
  destruct (load_body PK W table_name file_path st) as [[u|e] st1] eqn:B;
    destruct (load_body_reads _ _ _ _ _ _ _ B) as [tail Ht].
  - inversion H; subst. eauto.
  - revert H. unfold bind, set_error_msg, logger, emit, raise.
    intros H. inversion H; subst; clear H. cbn [trace].
    exists (tail ++ [Logged ERROR (msg_load_failed table_name (exn_str e))]).
    rewrite Ht, <- app_assoc. reflexivity.
Qed.

Lemma load_guarded_events PK W table_name file_path st r st' :
  load_guarded PK W table_name file_path st = (r, st') ->
  exists evs,
    trace st' = trace st ++ evs
    /\ Forall (fun ev =>
                 body_event (String.eqb table_name "ds.ft_posting_f") ev = true
                 /\ sent_frame ev) evs.
Proof.
  intros H.
  eapply (emits_load_guarded PK W _ (trace st)); try exact H;
    try apply emits_only_start.
  - repeat split.
  - split; reflexivity.
  - intros P. rewrite P. repeat split.
  - intros e. split; [|exact I].
    destruct (String.eqb table_name "ds.ft_posting_f"); reflexivity.
  - intros df query e. split; [reflexivity|]. exists df. reflexivity.
Qed.

(** Every load either fails to open its audit record, having committed
    nothing, or opens it, runs the body and calls [log_etl_end]. *)
Lemma load_shape PK W table_name file_path st r st' :
  load_data_from_csv PK W table_name file_path st = (r, st') ->
  exists opening,
    Forall (fun ev => opening_event ev = true /\ is_load_call ev = false) opening
    /\ ((exists e,
           r = Raise e
           /\ trace st' = trace st
                          ++ Enter (call_load_data_from_csv table_name file_path)
                          :: opening
           /\ committed st' = committed st)
        \/ exists z body closing r1 st2,
             trace st' = trace st
                         ++ (Enter (call_load_data_from_csv table_name file_path)
                             :: opening)
                         ++ body
                         ++ Enter (call_log_etl_end (VInt z) table_name
                                     (status_of (error_msg st2))
                                     (records_processed st2) (error_msg st2))
                         :: closing
             /\ attempt_closed PK W table_name file_path r st' z body closing r1 st2).
Proof.
  rewrite load_data_from_csv_unfold.
  set (st0 := record (Logged INFO (msg_load_begin table_name file_path))
                (record (Enter (call_load_data_from_csv table_name file_path)) st)).
  assert (Ht0 : trace st0
                = trace st ++ [Enter (call_load_data_from_csv table_name file_path);
                               Logged INFO (msg_load_begin table_name file_path)]).
  { unfold st0. rewrite !trace_record, <- app_assoc. reflexivity. }
  destruct (log_etl_start W table_name st0) as [[log_id|e] st1] eqn:S.
  2:{ intros H. inversion H; subst; clear H.
      assert (Hs : emits_only
                     (fun ev => opening_event ev = true /\ is_load_call ev = false)
                     (trace st0) st').
      { eapply (emits_log_etl_start W _ (trace st0));
          [repeat split|split; reflexivity| | |apply emits_only_start|exact S].
        - intros. split; [apply String.eqb_refl|reflexivity].
        - intros. split; reflexivity. }
      destruct Hs as [evs [Ht Hf]].
      exists (Logged INFO (msg_load_begin table_name file_path) :: evs).
      split; [constructor; [split; reflexivity|exact Hf]|].
      left. exists e. split; [reflexivity|]. split.
      - rewrite Ht, Ht0, <- app_assoc. reflexivity.
      - apply (log_etl_start_outcome _ _ _ _ _ S). }
  assert (Hs : emits_only
                 (fun ev => opening_event ev = true /\ is_load_call ev = false)
                 (trace st0) st1).
  { eapply (emits_log_etl_start W _ (trace st0));
      [repeat split|split; reflexivity| | |apply emits_only_start|exact S].
    - intros. split; [apply String.eqb_refl|reflexivity].
    - intros. split; reflexivity. }
  destruct Hs as [evs [Ht1 Hf]].
  pose proof (log_etl_start_outcome _ _ _ _ _ S) as Hid. cbn in Hid. subst log_id.
  destruct (load_guarded PK W table_name file_path (reset_locals st1))
    as [r1 st2] eqn:G.
  destruct (load_guarded_outcome _ _ _ _ _ _ _ G eq_refl)
    as [body [Ht2 [Hb [Hg [Hc1 [Hc2 Hd]]]]]].
  destruct (load_guarded_events _ _ _ _ _ _ _ G) as [body' [Ht2' Hcls]].
  assert (body' = body).
  { rewrite Ht2 in Ht2'. apply app_inv_head in Ht2'. congruence. }
  subst body'.
  destruct (load_guarded_reads _ _ _ _ _ _ _ G) as [tail Hrd].
  assert (Hbody : body = Enter (call_read_csv_with_encoding_tries file_path) :: tail).
  { rewrite Ht2 in Hrd. apply app_inv_head in Hrd. exact Hrd. }
  cbn [trace reset_locals] in Ht2.
  destruct (log_etl_end W (VInt (next_log_id st)) table_name
              (status_of (error_msg st2)) (records_processed st2) (error_msg st2) st2)
    as [r3 st3] eqn:E.
  destruct (log_etl_end_outcome _ _ _ _ _ _ _ _ _ E) as [closing [Ht3 [Hcl Hout]]].
  intros H.
  exists (Logged INFO (msg_load_begin table_name file_path) :: evs).
  split; [constructor; [split; reflexivity|exact Hf]|].
  right. exists (next_log_id st), body, closing, r1, st2.
  assert (Hst : st' = st3) by (destruct r3; inversion H; reflexivity).
  subst st3. split.
  { rewrite Ht3, Ht2, Ht1, Ht0, <- !app_assoc. reflexivity. }
  unfold attempt_closed. cbv zeta.
  split; [exact Hcls|]. split; [eauto|]. split; [exact Hb|].
  split; [exact Hg|]. split; [exact Hc1|]. split; [exact Hc2|].
  split; [exact Hd|]. split; [exact Hcl|].
  destruct r3 as [u|e3].
  - left. destruct Hout as [Hnr Hrec]. split; [exact Hnr|].
    pose proof (keeps_log_etl_end (locals st2) W _ _ _ _ _ _ _ _ eq_refl E) as Hl.
    unfold locals in Hl. injection Hl as _ Hrp.
    split; [|apply Hrec; reflexivity].
    destruct r1; inversion H; subst; congruence.
  - right. destruct Hout as [Hex Hcom]. split; [exact Hex|].
    split; [|exact Hcom]. inversion H. eauto.
Qed.

(** ** Classes of events *)

Ltac classify ev H :=
  destruct ev as [[]|[] ?|];
  cbn in H |- *; try discriminate H; try reflexivity; try exact I;
  try (apply String.eqb_eq in H; subst; reflexivity).

Lemma opening_not_end ev : opening_event ev = true -> is_end_call ev = false.
Proof. intros H. classify ev H. Qed.

Lemma closing_not_end ev : closing_event ev = true -> is_end_call ev = false.
Proof. intros H. classify ev H. Qed.

Lemma body_not_end p ev : body_event p ev = true -> is_end_call ev = false.
Proof. intros H. classify ev H. Qed.

Lemma body_not_load p ev : body_event p ev = true -> is_load_call ev = false.
Proof. intros H. classify ev H. Qed.

Lemma closing_not_load ev : closing_event ev = true -> is_load_call ev = false.
Proof. intros H. classify ev H. Qed.

Lemma opening_not_truncate ev : opening_event ev = true -> is_truncate ev = false.
Proof. intros H. classify ev H. Qed.

Lemma closing_not_truncate ev : closing_event ev = true -> is_truncate ev = false.
Proof. intros H. classify ev H. Qed.

Lemma body_not_truncate ev : body_event false ev = true -> is_truncate ev = false.
Proof. intros H. classify ev H. Qed.

Lemma opening_calm ev : opening_event ev = true -> calm ev.
Proof.
  intros H. split; classify ev H.
Qed.

Lemma closing_calm ev : closing_event ev = true -> calm ev.
Proof.
  intros H. split; classify ev H.
Qed.

Lemma opening_sent ev : opening_event ev = true -> sent_frame ev.
Proof. intros H. classify ev H. Qed.

Lemma closing_sent ev : closing_event ev = true -> sent_frame ev.
Proof. intros H. classify ev H. Qed.

Lemma sent_frame_nan_free ev : sent_frame ev -> nan_free_batch ev.
Proof.
  destruct ev as [|[] ?|]; cbn; auto.
  intros [df ->]. apply data_tuples_spec.
Qed.

Lemma load_calls_app a b : load_calls (a ++ b) = load_calls a ++ load_calls b.
Proof.
  induction a as [|ev a IH]; [reflexivity|].
  destruct ev as [[]|? ?|]; cbn; rewrite IH; reflexivity.
Qed.

Lemma load_calls_none evs :
  Forall (fun ev => is_load_call ev = false) evs -> load_calls evs = [].
Proof.
  induction 1 as [|ev evs H _ IH]; [reflexivity|].
  destruct ev as [[]|? ?|]; cbn in *; try discriminate; exact IH.
Qed.

Lemma Forall_weaken {A} (P Q : A -> Prop) l :
  (forall x, P x -> Q x) -> Forall P l -> Forall Q l.
Proof. intros H. apply Forall_impl. exact H. Qed.

(** A load enters once, first of all. *)
Lemma load_enters_once PK W table_name file_path st r st' :
  load_data_from_csv PK W table_name file_path st = (r, st') ->
  exists evs,
    trace st' = trace st ++ evs
    /\ load_calls evs = [(table_name, file_path)].
Proof.
  intros H. destruct (load_shape _ _ _ _ _ _ _ H) as [opening [Hop Hcase]].
  assert (Hopl : load_calls opening = []).
  { apply load_calls_none. eapply Forall_weaken; [|exact Hop]. intros ev [_ E]. exact E. }
  destruct Hcase as [[e [_ [Ht _]]]|[z [body [closing [r1 [st2 [Ht Hc]]]]]]].
  - eexists. split; [exact Ht|]. cbn. rewrite Hopl. reflexivity.
  - eexists. split; [exact Ht|].
    destruct Hc as [Hb [_ [_ [_ [_ [_ [_ [Hcl _]]]]]]]].
    cbn. rewrite !load_calls_app, Hopl. cbn.
    rewrite (load_calls_none body), (load_calls_none closing); [reflexivity| |].
    + eapply Forall_weaken; [|exact Hcl]. apply closing_not_load.
    + eapply Forall_weaken; [|exact Hb]. intros ev [E _].
      eapply body_not_load. exact E.
Qed.

(** C1. Whatever the loads do, the loop of [main] calls
    [load_data_from_csv] once for each configured table, in the configured
    order, and ends normally: each load starts from the state the one
    before it left, an exception of a load is caught and logged on line
    274, and the next table is loaded. *)
Theorem every_table_attempted
    (PK : Py.dict (option (list string))) (W : World)
    (items : list (string * string)) (st : State) :
  exists st' evs,
    load_tables PK W items st = (Ok tt, st')
    /\ loads_chain PK W items st st'
    /\ trace st' = trace st ++ evs
    /\ load_calls evs = items.
Proof.
  revert st. induction items as [|[table_name file_path] rest IH]; intros st.
  - exists st, []. rewrite app_nil_r. repeat split. constructor.
  - cbn [load_tables]. unfold bind at 1, try_except, bind at 1.
    destruct (load_data_from_csv PK W table_name file_path st) as [[n|e] st1] eqn:L;
      destruct (load_enters_once _ _ _ _ _ _ _ L) as [evs1 [Ht1 Hl1]].
    + unfold ret. destruct (IH st1) as [st' [evs [Hrun [Hch [Ht Hl]]]]].
      exists st', (evs1 ++ evs). split; [exact Hrun|].
      split; [eapply chain_returned; [exact L | exact Hch]|].
      split; [rewrite Ht, Ht1, app_assoc; reflexivity|].
      rewrite load_calls_app, Hl1, Hl. reflexivity.
    + unfold logger, emit.
      change (mkState _ _ _ _ (trace st1 ++ [?ev]) _ _ _) with (record ev st1).
      destruct (IH (record (Logged ERROR (msg_table_aborted table_name (exn_str e))) st1))
        as [st' [evs [Hrun [Hch [Ht Hl]]]]].
      exists st', (evs1 ++ Logged ERROR (msg_table_aborted table_name (exn_str e)) :: evs).
      split; [exact Hrun|].
      split; [eapply chain_caught; [exact L | exact Hch]|].
      split.
      * rewrite Ht, trace_record, Ht1, <- !app_assoc. reflexivity.
      * rewrite load_calls_app, Hl1. cbn. rewrite Hl. reflexivity.
Qed.

(** ** The audit record *)

Lemma status_of_cases err :
  err = None /\ status_of err = "completed"
  \/ (exists m, err = Some m) /\ status_of err = "failed".
Proof. destruct err; [right; eauto | left; auto]. Qed.

Lemma status_not_started err : status_of err <> "started".
Proof. destruct err; discriminate. Qed.

(** ** The count of rows *)

Lemma In_end_call_middle (a b : list Event) (c x : Event) :
  Forall (fun ev => is_end_call ev = false) a ->
  Forall (fun ev => is_end_call ev = false) b ->
  is_end_call x = true ->
  In x (a ++ c :: b) -> x = c.
Proof.
  intros Ha Hb Hx Hin. apply in_app_or in Hin.
  rewrite Forall_forall in Ha, Hb.
  destruct Hin as [Hin|[Hin|Hin]]; [|auto|].
  - rewrite (Ha _ Hin) in Hx. discriminate.
  - rewrite (Hb _ Hin) in Hx. discriminate.
Qed.

Lemma done_in_middle (a b : list Event) (x d : Event) :
  Forall not_done a -> Forall not_done b ->
  is_batch_done d = true ->
  In d (a ++ x :: b) -> d = x.
Proof.
  intros Ha Hb Hd Hin. apply in_app_or in Hin.
  unfold not_done in *. rewrite Forall_forall in Ha, Hb.
  destruct Hin as [Hin|[Hin|Hin]]; [|auto|].
  - rewrite (Ha _ Hin) in Hd. discriminate.
  - rewrite (Hb _ Hin) in Hd. discriminate.
Qed.

(** What is known of the count when the body ended with [batch_result]. *)
Lemma batch_result_count PK table_name r1 st2 body :
  batch_result PK table_name r1 st2 body ->
  (Forall not_done body -> records_processed st2 = 0%Z)
  /\ (forall query tuples page,
        In (Db (execute_batch query tuples page) None) body ->
        records_processed st2 = Z.of_nat (length tuples)).
Proof.
  intros [[_ [_ [pre [df [J [-> [Hpre [Hn _]]]]]]]]|[e [_ Hcase]]].
  - split.
    + intros Hall. apply Forall_app in Hall. destruct Hall as [_ Hall].
      inversion Hall as [|? ? _ H1]; subst. inversion H1 as [|? ? _ H2]; subst.
      inversion H2 as [|? ? Hx _]; subst. discriminate Hx.
    + intros query tuples page Hin.
      assert (Hd : Db (execute_batch query tuples page) None
                   = Db (execute_batch (insert_query PK table_name (columns df))
                           (data_tuples df) 1000) None).
      { apply (done_in_middle
                 (pre ++ [Db cursor None; Db (execute "BEGIN;" []) None])
                 [Db commit None;
                  Logged INFO (msg_loaded (Z.of_nat (length (data_tuples df))) table_name)]);
          [| |reflexivity|].
        - apply Forall_app. split; [apply calm_not_done, Hpre|repeat constructor].
        - repeat constructor.
        - rewrite <- app_assoc. exact Hin. }
      injection Hd as _ -> _. exact Hn.
  - destruct Hcase as [[H0 Hf]|[pre [q [tuples [e' [post [-> [Hp [Hq Hn]]]]]]]]].
    + split; [auto|]. intros query tuples page Hin.
      unfold not_done in Hf. rewrite Forall_forall in Hf.
      specialize (Hf _ Hin). discriminate Hf.
    + split.
      * intros Hall. apply Forall_app in Hall. destruct Hall as [_ Hall].
        inversion Hall as [|? ? Hx _]; subst. discriminate Hx.
      * intros query tuples' page Hin.
        assert (Hd : Db (execute_batch query tuples' page) None
                     = Db (execute_batch q tuples 1000) None).
        { apply (done_in_middle pre (Db commit (Some e') :: post));
            [exact Hp| |reflexivity|exact Hin].
          constructor; [reflexivity|exact Hq]. }
        injection Hd as _ -> _. exact Hn.
Qed.

(** The events of a load, split at the call of [log_etl_end]. *)
Lemma load_events PK W table_name file_path st r st' evs :
  load_data_from_csv PK W table_name file_path st = (r, st') ->
  trace st' = trace st ++ evs ->
  exists opening,
    Forall (fun ev => opening_event ev = true) opening
    /\ (evs = Enter (call_load_data_from_csv table_name file_path) :: opening
        \/ exists z body closing r1 st2,
             evs = (Enter (call_load_data_from_csv table_name file_path) :: opening)
                   ++ body
                   ++ Enter (call_log_etl_end (VInt z) table_name
                               (status_of (error_msg st2))
                               (records_processed st2) (error_msg st2))
                   :: closing
             /\ attempt_closed PK W table_name file_path r st' z body closing r1 st2).
Proof.
  intros H Ht. destruct (load_shape _ _ _ _ _ _ _ H) as [opening [Hop Hcase]].
  exists opening. split.
  { eapply Forall_weaken; [|exact Hop]. intros ev [E _]. exact E. }
  destruct Hcase as [[e [_ [Ht' _]]]|[z [body [closing [r1 [st2 [Ht' Hc]]]]]]];
    rewrite Ht in Ht'; apply app_inv_head in Ht'.
  - left. exact Ht'.
  - right. exists z, body, closing, r1, st2. auto.
Qed.

(** C4, as the code has it. The count handed to [log_etl_end] is the
    number of tuples of the batch whenever the batch returned, and 0
    whenever it did not.  With status completed, the batch and its commit
    returned.  A record with status failed carries a count other than 0
    only when the batch returned and its commit raised: the count is
    assigned before the commit. *)
Theorem rows_processed_reported
    (PK : Py.dict (option (list string))) (W : World)
    (table_name file_path : string) (st : State) (r : result Z) (st' : State)
    (evs : list Event) (log_id : Value) (table : string) (status : string)
    (n : Z) (err : option string) :
  load_data_from_csv PK W table_name file_path st = (r, st') ->
  trace st' = trace st ++ evs ->
  In (Enter (call_log_etl_end log_id table status n err)) evs ->
  (Forall not_done evs -> n = 0%Z)
  /\ (forall query tuples page,
        In (Db (execute_batch query tuples page) None) evs ->
        n = Z.of_nat (length tuples))
  /\ (status = "completed" ->
      exists pre df post,
        evs = pre
              ++ committed_batch table_name
                   (insert_query PK table_name (columns df)) (data_tuples df)
              ++ post
        /\ n = Z.of_nat (length (data_tuples df)))
  /\ (status = "failed" -> n <> 0%Z ->
      exists pre query tuples e post,
        evs = pre
              ++ [ Db (execute_batch query tuples 1000) None;
                   Db commit (Some e) ]
              ++ post
        /\ n = Z.of_nat (length tuples)).
Proof.
  intros H Ht Hin.
  destruct (load_events _ _ _ _ _ _ _ _ H Ht) as [opening [Hop Hcase]].
  clear H Ht.
  assert (Hopn : Forall (fun ev => is_end_call ev = false)
                   (Enter (call_load_data_from_csv table_name file_path) :: opening)).
  { constructor; [reflexivity|]. eapply Forall_weaken; [|exact Hop].
    apply opening_not_end. }
  assert (Hopd : Forall not_done
                   (Enter (call_load_data_from_csv table_name file_path) :: opening)).
  { constructor; [reflexivity|]. eapply Forall_weaken; [|exact Hop].
    intros ev E. apply (opening_calm _ E). }
  destruct Hcase as [->|[z [body [closing [r1 [st2 [-> Hc]]]]]]].
  { exfalso. rewrite Forall_forall in Hopn. specialize (Hopn _ Hin). discriminate Hopn. }
  destruct Hc as [Hb [_ [Hres [Hg [_ [_ [_ [Hcl _]]]]]]]].
  assert (Hcld : Forall not_done closing).
  { eapply Forall_weaken; [|exact Hcl]. intros ev E. apply (closing_calm _ E). }
  assert (Heq : Enter (call_log_etl_end log_id table status n err)
                = Enter (call_log_etl_end (VInt z) table_name
                           (status_of (error_msg st2)) (records_processed st2)
                           (error_msg st2))).
  { rewrite app_assoc in Hin. eapply In_end_call_middle; [| |reflexivity|exact Hin].
    - apply Forall_app. split; [exact Hopn|].
      eapply Forall_weaken; [|exact Hb]. intros ev [E _]. eapply body_not_end, E.
    - eapply Forall_weaken; [|exact Hcl]. apply closing_not_end. }
  injection Heq as -> -> -> -> ->.
  destruct (batch_result_count _ _ _ _ _ Hres) as [Hzero Hcount].
  split; [|split; [|split]].
  - intros Hall. apply Hzero.
    apply Forall_app in Hall. destruct Hall as [_ Hall].
    apply Forall_app in Hall. destruct Hall as [Hall _]. exact Hall.
  - intros query tuples page Hd. apply (Hcount query tuples page).
    apply in_app_or in Hd. destruct Hd as [Hd|Hd].
    { unfold not_done in Hopd. rewrite Forall_forall in Hopd.
      specialize (Hopd _ Hd). discriminate Hopd. }
    apply in_app_or in Hd. destruct Hd as [Hd|[Hd|Hd]]; [exact Hd|discriminate Hd|].
    unfold not_done in Hcld. rewrite Forall_forall in Hcld.
    specialize (Hcld _ Hd). discriminate Hcld.
  - intros Hs.
    destruct Hres as [[_ [_ [pre [df [J [-> [_ [Hn _]]]]]]]]|[e [-> _]]].
    + match goal with
      | |- exists _ _ _, ?A ++ (pre ++ _) ++ ?tail = _ /\ _ =>
          exists (A ++ pre), df, tail
      end.
      split; [|exact Hn]. rewrite <- !app_assoc. reflexivity.
    + rewrite Hg in Hs. discriminate Hs.
  - intros Hs Hn.
    destruct Hres as [[-> _]|[e [_ Hcase]]].
    + rewrite Hg in Hs. discriminate Hs.
    + destruct Hcase as [[H0 _]|[pre [q [tuples [e' [post [-> [_ [_ Hlen]]]]]]]]];
        [exact (False_ind _ (Hn H0))|].
      match goal with
      | |- exists _ _ _ _ _, ?A ++ (pre ++ _) ++ ?tail = _ /\ _ =>
          exists (A ++ pre), q, tuples, e', (post ++ tail)
      end.
      split; [|exact Hlen]. rewrite <- !app_assoc. reflexivity.
Qed.

(** C8, as the code has it. [execute_sql] is called with TRUNCATE exactly
    when the table is ds.ft_posting_f, the load got as far as reading the
    file, and the file could be read; a load of another table neither
    calls [execute_sql] with TRUNCATE nor executes it.  Whenever a load of
    the posting table reaches BEGIN or the batch, TRUNCATE was executed and
    committed before, by its own call of [execute_sql], and nothing of the
    batch transaction precedes it. *)
Theorem truncate_only_for_posting
    (PK : Py.dict (option (list string))) (W : World)
    (table_name file_path : string) (st : State) (r : result Z) (st' : State)
    (evs : list Event) :
  load_data_from_csv PK W table_name file_path st = (r, st') ->
  trace st' = trace st ++ evs ->
  (In (Enter (call_execute_sql truncate_query [])) evs
   <-> table_name = "ds.ft_posting_f"
       /\ readable W file_path = true
       /\ In (Enter (call_read_csv_with_encoding_tries file_path)) evs)
  /\ (table_name <> "ds.ft_posting_f" ->
      Forall (fun ev => is_truncate ev = false) evs)
  /\ (table_name = "ds.ft_posting_f" ->
      Exists (fun ev => in_batch_transaction ev = true) evs ->
      exists pre post,
        evs = pre ++ committed_truncate ++ post
        /\ Forall (fun ev => in_batch_transaction ev = false) pre).
Proof.
  intros H Ht.
  destruct (load_events _ _ _ _ _ _ _ _ H Ht) as [opening [Hop Hcase]].
  clear H Ht.
  assert (Hopc : Forall calm
                   (Enter (call_load_data_from_csv table_name file_path) :: opening)).
  { constructor; [split; reflexivity|]. eapply Forall_weaken; [|exact Hop].
    apply opening_calm. }
  assert (Hopt : Forall (fun ev => is_truncate ev = false)
                   (Enter (call_load_data_from_csv table_name file_path) :: opening)).
  { constructor; [reflexivity|]. eapply Forall_weaken; [|exact Hop].
    apply opening_not_truncate. }
  assert (Hopr : ~ In (Enter (call_read_csv_with_encoding_tries file_path))
                      (Enter (call_load_data_from_csv table_name file_path) :: opening)).
  { intros [Hx|Hx]; [discriminate Hx|]. rewrite Forall_forall in Hop.
    specialize (Hop _ Hx). discriminate Hop. }
  destruct Hcase as [->|[z [body [closing [r1 [st2 [-> Hc]]]]]]].
  { split; [|split].
    - split.
      + intros Hin. rewrite Forall_forall in Hopt. specialize (Hopt _ Hin).
        discriminate Hopt.
      + intros [_ [_ Hin]]. exact (False_ind _ (Hopr Hin)).
    - intros _. exact Hopt.
    - intros _ Hex. exfalso. exact (calm_no_batch _ Hopc Hex). }
  destruct Hc as [Hb [[tail Hrd] [_ [_ [Hc1 [Hc2 [Hd [Hcl _]]]]]]]].
  assert (Hclc : Forall calm closing).
  { eapply Forall_weaken; [|exact Hcl]. apply closing_calm. }
  assert (Hclt : Forall (fun ev => is_truncate ev = false) closing).
  { eapply Forall_weaken; [|exact Hcl]. apply closing_not_truncate. }
  split; [|split].
  - split.
    + intros Hin. apply in_app_or in Hin. destruct Hin as [Hin|Hin].
      { rewrite Forall_forall in Hopt. specialize (Hopt _ Hin). discriminate Hopt. }
      apply in_app_or in Hin. destruct Hin as [Hin|[Hin|Hin]]; [|discriminate Hin|].
      * split; [|split; [exact (Hc1 Hin)|]].
        -- rewrite Forall_forall in Hb. destruct (Hb _ Hin) as [E _].
           cbn in E. apply andb_prop in E. destruct E as [E _].
           apply String.eqb_eq, E.
        -- apply in_or_app. right. apply in_or_app. left. rewrite Hrd. left.
           reflexivity.
      * rewrite Forall_forall in Hclt. specialize (Hclt _ Hin). discriminate Hclt.
    + intros [-> [Hr _]]. apply in_or_app. right. apply in_or_app. left.
      apply Hc2; [reflexivity|exact Hr].
  - intros Hne. apply Forall_app. split; [exact Hopt|].
    apply Forall_app. split; [|constructor; [reflexivity|exact Hclt]].
    assert (P : String.eqb table_name "ds.ft_posting_f" = false).
    { apply String.eqb_neq, Hne. }
    rewrite P in Hb. eapply Forall_weaken; [|exact Hb].
    intros ev [E _]. apply body_not_truncate, E.
  - intros -> Hex. apply Exists_app in Hex. destruct Hex as [Hex|Hex].
    { exfalso. exact (calm_no_batch _ Hopc Hex). }
    apply Exists_app in Hex. destruct Hex as [Hex|Hex].
    + destruct (Hd eq_refl Hex) as [pre [post [-> Hpre]]].
      match goal with
      | |- exists _ _, ?A ++ (pre ++ _ ++ post) ++ ?tail = _ /\ _ =>
          exists (A ++ pre), (post ++ tail)
      end.
      split; [rewrite <- !app_assoc; reflexivity|].
      apply Forall_app. split.
      * eapply Forall_weaken; [|exact Hopc]. intros ev [_ E]. exact E.
      * eapply Forall_weaken; [|exact Hpre]. intros ev [_ E]. exact E.
    + exfalso. inversion Hex as [? ? Hx|? ? Hx]; [discriminate Hx|].
      exact (calm_no_batch _ Hclc Hx).
Qed.


(** ** Concrete runs *)

Lemma from_initial_state (evs : list Event) : evs = trace initial_state ++ evs.
Proof. reflexivity. Qed.

Lemma accounts_run_pair faults :
  load_data_from_csv Config.PRIMARY_KEYS (world_of latin1_only faults)
    "ds.md_account_d" "md_account_d.csv" initial_state
  = (fst (accounts_run faults), snd (accounts_run faults)).
Proof. unfold accounts_run. apply surjective_pairing. Qed.

Lemma posting_run_pair :
  load_data_from_csv Config.PRIMARY_KEYS (world_of latin1_only no_faults)
    "ds.ft_posting_f" "ft_posting_f.csv" initial_state
  = (fst posting_run, snd posting_run).
Proof. unfold posting_run. apply surjective_pairing. Qed.

(** C3 as stated fails: when the UPDATE of [log_etl_end] raises, the rows
    are loaded and committed, [log_etl_end] was called once, and the audit
    row of the attempt is left with status started. *)
Lemma audit_record_left_started :
  map rr_status (etl_logs (committed (snd (accounts_run end_update_fails))))
  = ["started"]
  /\ end_calls (trace (snd (accounts_run end_update_fails))) = 1
  /\ journal (committed (snd (accounts_run end_update_fails)))
     = [Batch (insert_query Config.PRIMARY_KEYS "ds.md_account_d"
                 ["account_rk"; "currency_code"])
              [[VInt 36237725; VNone]; [VInt 24656; VStr "810"]]].
Proof. vm_compute. repeat split. Qed.

Lemma rows_processed_reported_witness :
  exists pre df post,
    trace (snd (accounts_run no_faults))
    = pre
      ++ committed_batch "ds.md_account_d"
           (insert_query Config.PRIMARY_KEYS "ds.md_account_d" (columns df))
           (data_tuples df)
      ++ post
    /\ 2%Z = Z.of_nat (length (data_tuples df)).
Proof.
  assert (Hin : In (Enter (call_log_etl_end (VInt 1) "ds.md_account_d"
                             "completed" 2%Z None))
                   (trace (snd (accounts_run no_faults)))).
  { vm_compute. repeat first [left; reflexivity | right]. }
  destruct (rows_processed_reported Config.PRIMARY_KEYS
              (world_of latin1_only no_faults) "ds.md_account_d" "md_account_d.csv"
              initial_state
              (fst (accounts_run no_faults)) (snd (accounts_run no_faults))
              (trace (snd (accounts_run no_faults)))
              (VInt 1) "ds.md_account_d" "completed" 2%Z None
              (accounts_run_pair no_faults) (from_initial_state _) Hin)
    as [_ [_ [Hdone _]]].
  exact (Hdone eq_refl).
Defined.

(** C4 as stated fails: when the commit after the batch raises, nothing is
    committed and the attempt is recorded as failed, with a count of 2. *)
Lemma failed_record_counts_rows :
  In (Enter (call_log_etl_end (VInt 1) "ds.md_account_d" "failed" 2
               (Some "deferred constraint violated at commit")))
     (trace (snd (accounts_run batch_commit_fails)))
  /\ journal (committed (snd (accounts_run batch_commit_fails))) = []
  /\ map (fun rec => (rr_status rec, rr_records_processed rec))
         (etl_logs (committed (snd (accounts_run batch_commit_fails))))
     = [("failed", 2%Z)].
Proof.
  split; [|split; vm_compute; reflexivity].
  vm_compute. repeat first [left; reflexivity | right].
Qed.

Lemma truncate_only_for_posting_witness :
  In (Enter (call_execute_sql truncate_query [])) (trace (snd posting_run))
  /\ (exists pre post,
        trace (snd posting_run) = pre ++ committed_truncate ++ post
        /\ Forall (fun ev => in_batch_transaction ev = false) pre).
Proof.
  destruct (truncate_only_for_posting Config.PRIMARY_KEYS
              (world_of latin1_only no_faults) "ds.ft_posting_f"
              "ft_posting_f.csv" initial_state
              (fst posting_run) (snd posting_run) (trace (snd posting_run))
              posting_run_pair (from_initial_state _))
    as [Hiff [_ Hord]].
  split.
  - apply Hiff. split; [reflexivity|]. split; [reflexivity|].
    vm_compute. repeat first [left; reflexivity | right].
  - apply (Hord eq_refl). apply Exists_exists.
    exists (Db (execute "BEGIN;" []) None). split; [|reflexivity].
    vm_compute. repeat first [left; reflexivity | right].
Defined.

(** C8 as stated fails: a load of the posting table whose file cannot be
    read issues no TRUNCATE; it is recorded as failed. *)
Lemma posting_unreadable_not_truncated :
  load_calls (trace (snd posting_unreadable_run))
  = [("ds.ft_posting_f", "ft_posting_f.csv")]
  /\ existsb is_truncate (trace (snd posting_unreadable_run)) = false
  /\ map rr_status (etl_logs (committed (snd posting_unreadable_run)))
     = ["failed"].
Proof. vm_compute. repeat split. Qed.


(** * Further properties *)

(** ** The precheck of the files *)

Lemma warnings_run (missing : list string) (st : State) :
  fold_right (fun file_path k => logger WARNING (msg_file_missing file_path) ;; k)
             (ret tt) missing st
  = (Ok tt,
     record_all
       (map (fun file_path => Logged WARNING (msg_file_missing file_path)) missing)
       st).
Proof.
  revert st. induction missing as [|p rest IH]; intros st.
  - cbn. rewrite record_all_nil. reflexivity.
  - cbn [fold_right map]. unfold bind at 1, logger, emit.
    change (mkState _ _ _ _ (trace st ++ [?ev]) _ _ _) with (record ev st).
    rewrite IH, record_all_cons. reflexivity.
Qed.

Lemma record_all_app a b st :
  record_all (a ++ b) st = record_all b (record_all a st).
Proof. unfold record_all. cbn. rewrite app_assoc. reflexivity. Qed.

Lemma all_exist_iff (TABLE_FILE_MAPPING : Py.dict string) (W : World) :
  forallb (os_path_exists W) (map snd TABLE_FILE_MAPPING) = true
  <-> missing_files TABLE_FILE_MAPPING W = [].
Proof.
  unfold missing_files. induction (map snd TABLE_FILE_MAPPING) as [|p l IH]; cbn.
  - split; reflexivity.
  - destruct (os_path_exists W p); cbn; [exact IH|].
    split; intro H; discriminate H.
Qed.

Lemma check_files_exist_eval
    (TABLE_FILE_MAPPING : Py.dict string) (W : World) (st : State) :
  check_files_exist TABLE_FILE_MAPPING W st
  = (Ok (forallb (os_path_exists W) (map snd TABLE_FILE_MAPPING)),
     record_all (missing_log (missing_files TABLE_FILE_MAPPING W)) st).
Proof.
  pose proof (all_exist_iff TABLE_FILE_MAPPING W) as Hiff.
  unfold check_files_exist. fold (missing_files TABLE_FILE_MAPPING W).
  unfold bind at 1. rewrite warnings_run. unfold missing_log.
  destruct (missing_files TABLE_FILE_MAPPING W) as [|p rest] eqn:M.
  - rewrite (proj2 Hiff eq_refl). cbn. rewrite !record_all_nil. reflexivity.
  - assert (Hb : forallb (os_path_exists W) (map snd TABLE_FILE_MAPPING) = false).
    { destruct (forallb _ _); [|reflexivity].
      pose proof (proj1 Hiff eq_refl) as E. discriminate E. }
    rewrite Hb. unfold bind, logger, emit, ret.
    rewrite record_all_app. reflexivity.
Qed.

Lemma missing_log_no_db missing : Forall (fun ev => is_db ev = false) (missing_log missing).
Proof.
  unfold missing_log. apply Forall_app. split.
  - apply Forall_forall. intros ev Hin. apply in_map_iff in Hin.
    destruct Hin as [p [<- _]]. reflexivity.
  - destruct missing; repeat constructor.
Qed.

(** X1. [check_files_exist] never raises and never touches the connection.
    It returns [True] exactly when every mapped file exists; otherwise it
    has logged one warning per missing file, in the order of the mapping,
    and then one error with the list of them. *)
Theorem check_files_exist_run
    (TABLE_FILE_MAPPING : Py.dict string) (W : World) (st : State) :
  check_files_exist TABLE_FILE_MAPPING W st
  = (Ok (forallb (os_path_exists W) (map snd TABLE_FILE_MAPPING)),
     record_all (missing_log (missing_files TABLE_FILE_MAPPING W)) st)
  /\ (forallb (os_path_exists W) (map snd TABLE_FILE_MAPPING) = true
      <-> missing_files TABLE_FILE_MAPPING W = [])
  /\ (forall file_path,
        In file_path (missing_files TABLE_FILE_MAPPING W)
        <-> In file_path (map snd TABLE_FILE_MAPPING)
            /\ os_path_exists W file_path = false)
  /\ Forall (fun ev => is_db ev = false)
            (missing_log (missing_files TABLE_FILE_MAPPING W)).
Proof.
  split; [apply check_files_exist_eval|].
  split; [apply all_exist_iff|]. split; [|apply missing_log_no_db].
  intros file_path. unfold missing_files. rewrite filter_In, negb_true_iff.
  reflexivity.
Qed.

(** ** Stable invariants *)

Section Stable.

Variable I : State -> Prop.
Hypothesis HI : stable I.

Lemma stable_emit ev : preserves I (emit ev).
Proof.
  intros st r st' H E. injection E as _ <-. apply (proj1 HI ev st H).
Qed.

Lemma stable_db W op : preserves I (db W op).
Proof.
  destruct HI as [Hr [He [Hf _]]].
  intros st r st' H E. unfold db in E.
  destruct (db_raises W (trace st) op); injection E as _ <-; auto.
Qed.

Lemma stable_set_error_msg v : preserves I (set_error_msg v).
Proof.
  intros st r st' H E.
  pose proof (proj1 (proj2 (proj2 (proj2 HI))) v st H) as S.
  rewrite E in S. exact S.
Qed.

Lemma stable_set_records_processed n : preserves I (set_records_processed n).
Proof.
  intros st r st' H E.
  pose proof (proj2 (proj2 (proj2 (proj2 HI))) n st H) as S.
  rewrite E in S. exact S.
Qed.

Ltac stab :=
  repeat first
    [ apply preserves_ret | apply preserves_raise | apply preserves_lift
    | apply preserves_get_state | apply preserves_now
    | apply stable_set_error_msg | apply stable_set_records_processed
    | apply stable_emit | apply stable_db
    | apply preserves_bind; [|intro]
    | apply preserves_try_except; [|intro]
    | apply preserves_try_finally
    | match goal with
      | |- preserves _ (if ?b then _ else _) => destruct b
      | |- preserves _ (match ?x with _ => _ end) => destruct x
      end ].

Lemma stable_execute_sql W query params :
  preserves I (execute_sql W query params).
Proof. unfold execute_sql, enter, logger. stab. Qed.

Lemma stable_log_etl_start W table_name : preserves I (log_etl_start W table_name).
Proof. unfold log_etl_start, fetchone_item0, enter, logger. stab. Qed.

Lemma stable_log_etl_end W log_id table_name status n err :
  preserves I (log_etl_end W log_id table_name status n err).
Proof.
  unfold log_etl_end, enter.
  apply preserves_bind; [apply stable_emit|intros _].
  apply preserves_bind; [apply preserves_now|intros t].
  apply preserves_bind; [apply stable_execute_sql|intros _]. apply preserves_ret.
Qed.

Lemma stable_try_encodings W file_path remaining :
  preserves I (try_encodings W file_path remaining).
Proof.
  induction remaining as [|encoding rest IH]; cbn [try_encodings].
  - apply preserves_raise.
  - destruct (read_with W file_path encoding).
    + apply preserves_bind; [apply stable_emit|intros _; apply preserves_ret].
    + apply preserves_bind; [apply stable_emit|intros _; exact IH].
Qed.

Lemma stable_insert_batch W table_name df query tuples :
  preserves I (insert_batch W table_name df query tuples).
Proof. unfold insert_batch, logger. stab. Qed.

Lemma stable_load_body PK W table_name file_path :
  preserves I (load_body PK W table_name file_path).
Proof.
  unfold load_body, read_csv_with_encoding_tries, enter.
  apply preserves_bind.
  { apply preserves_bind; [apply stable_emit|intros _; apply stable_try_encodings]. }
  intros df0. apply preserves_bind; [apply preserves_lift|intros df].
  apply preserves_bind.
  - destruct (String.eqb table_name "ds.ft_posting_f"); [|apply preserves_ret].
    apply preserves_bind; [apply stable_execute_sql|intros _]. apply stable_emit.
  - intros _. apply stable_insert_batch.
Qed.

Lemma stable_load_data_from_csv PK W table_name file_path :
  preserves I (load_data_from_csv PK W table_name file_path).
Proof.
  unfold load_data_from_csv, enter, logger.
  apply preserves_bind; [apply stable_emit|intros _].
  apply preserves_bind; [apply stable_emit|intros _].
  apply preserves_bind; [apply stable_log_etl_start|intros log_id].
  apply preserves_bind; [apply stable_set_error_msg|intros _].
  apply preserves_bind; [apply stable_set_records_processed|intros _].
  apply preserves_bind.
  - apply preserves_try_finally.
    + apply preserves_try_except; [apply stable_load_body|intros e].
      apply preserves_bind; [apply stable_set_error_msg|intros _].
      apply preserves_bind; [apply stable_emit|intros _]. apply preserves_raise.
    + unfold load_finally.
      apply preserves_bind; [apply preserves_get_state|intros s].
      apply stable_log_etl_end.
  - intros _. apply preserves_bind; [apply preserves_get_state|intros s].
    apply preserves_ret.
Qed.

Lemma stable_load_tables PK W items : preserves I (load_tables PK W items).
Proof.
  induction items as [|[table_name file_path] rest IH]; cbn [load_tables].
  - apply preserves_ret.
  - apply preserves_bind; [|intros _; exact IH].
    apply preserves_try_except.
    + apply preserves_bind; [apply stable_load_data_from_csv|intros _].
      apply preserves_ret.
    + intros e. apply stable_emit.
Qed.

End Stable.

Lemma stable_conn_is_set b : stable (fun st => conn_is_set st = b).
Proof.
  repeat split; auto.
  - intros op st H. destruct op; cbn; try exact H.
    destruct (run_statement query params (next_log_id st) (working st)). exact H.
  - intros op st H. destruct op; exact H.
Qed.

(** ** The entry point *)

Lemma opening_not_connection ev :
  opening_event ev = true -> is_connection_call ev = false.
Proof. intros H. classify ev H. Qed.

Lemma body_not_connection p ev :
  body_event p ev = true -> is_connection_call ev = false.
Proof. intros H. classify ev H. Qed.

Lemma closing_not_connection ev :
  closing_event ev = true -> is_connection_call ev = false.
Proof. intros H. classify ev H. Qed.

Lemma load_no_connection_call PK W table_name file_path st r st' evs :
  load_data_from_csv PK W table_name file_path st = (r, st') ->
  trace st' = trace st ++ evs ->
  Forall (fun ev => is_connection_call ev = false) evs.
Proof.
  intros H Ht.
  destruct (load_events _ _ _ _ _ _ _ _ H Ht) as [opening [Hop Hcase]].
  clear H Ht.
  assert (Hopn : Forall (fun ev => is_connection_call ev = false)
                   (Enter (call_load_data_from_csv table_name file_path) :: opening)).
  { constructor; [reflexivity|]. eapply Forall_weaken; [|exact Hop].
    apply opening_not_connection. }
  destruct Hcase as [->|[z [body [closing [r1 [st2 [-> Hc]]]]]]]; [exact Hopn|].
  destruct Hc as [Hb [_ [_ [_ [_ [_ [_ [Hcl _]]]]]]]].
  apply Forall_app. split; [exact Hopn|]. apply Forall_app. split.
  - eapply Forall_weaken; [|exact Hb]. intros ev [E _].
    eapply body_not_connection, E.
  - constructor; [reflexivity|]. eapply Forall_weaken; [|exact Hcl].
    apply closing_not_connection.
Qed.

(** The loop of [main]: it returns, having entered the loads of the
    mapping in order, without opening or closing a connection and without
    changing [conn]. *)
Lemma load_tables_run PK W items st :
  exists st' evs,
    load_tables PK W items st = (Ok tt, st')
    /\ trace st' = trace st ++ evs
    /\ load_calls evs = items
    /\ Forall (fun ev => is_connection_call ev = false) evs
    /\ conn_is_set st' = conn_is_set st.
Proof.
  revert st. induction items as [|[table_name file_path] rest IH]; intros st.
  - exists st, []. rewrite app_nil_r. repeat split. constructor.
  - cbn [load_tables]. unfold bind at 1, try_except, bind at 1.
    destruct (load_data_from_csv PK W table_name file_path st) as [[n|e] st1] eqn:L;
      destruct (load_enters_once _ _ _ _ _ _ _ L) as [evs1 [Ht1 Hl1]];
      pose proof (load_no_connection_call _ _ _ _ _ _ _ _ L Ht1) as Hn1;
      pose proof (stable_load_data_from_csv _ (stable_conn_is_set (conn_is_set st))
                    PK W table_name file_path st _ _ eq_refl L) as Hc1;
      clear L.
    + unfold ret. destruct (IH st1) as [st' [evs [Hrun [Ht [Hl [Hn Hc]]]]]].
      exists st', (evs1 ++ evs). split; [exact Hrun|].
      split; [rewrite Ht, Ht1, app_assoc; reflexivity|].
      split; [rewrite load_calls_app, Hl1, Hl; reflexivity|].
      split; [apply Forall_app; auto|]. congruence.
    + unfold logger, emit.
      change (mkState _ _ _ _ (trace st1 ++ [?ev]) _ _ _) with (record ev st1).
      destruct (IH (record (Logged ERROR (msg_table_aborted table_name (exn_str e))) st1))
        as [st' [evs [Hrun [Ht [Hl [Hn Hc]]]]]].
      exists st', (evs1 ++ Logged ERROR (msg_table_aborted table_name (exn_str e)) :: evs).
      split; [exact Hrun|]. split.
      { rewrite Ht, trace_record, Ht1, <- !app_assoc. reflexivity. }
      split; [rewrite load_calls_app, Hl1; cbn; rewrite Hl; reflexivity|].
      split; [apply Forall_app; split; [exact Hn1|constructor; [reflexivity|exact Hn]]|].
      cbn [conn_is_set record] in Hc. congruence.
Qed.

Lemma main_cases TABLE_FILE_MAPPING PK W st :
  match missing_files TABLE_FILE_MAPPING W with
  | _ :: _ =>
      exists st',
        main TABLE_FILE_MAPPING PK W st = (Ok tt, st')
        /\ trace st' = trace st
                       ++ Logged INFO msg_etl_begin
                       :: missing_log (missing_files TABLE_FILE_MAPPING W)
        /\ committed st' = committed st
  | [] =>
      match db_raises W (trace st ++ [Logged INFO msg_etl_begin]) connect with
      | Some e =>
          exists st',
            main TABLE_FILE_MAPPING PK W st = (Ok tt, st')
            /\ trace st' = trace st
                           ++ [ Logged INFO msg_etl_begin;
                                Db connect (Some e);
                                Logged ERROR (msg_connect_failed (exn_str e));
                                Logged ERROR (msg_critical (exn_str e)) ]
            /\ committed st' = committed st
      | None =>
          exists r st' loads closing,
            main TABLE_FILE_MAPPING PK W st = (r, st')
            /\ trace st' = trace st
                           ++ [ Logged INFO msg_etl_begin;
                                Db connect None;
                                Logged INFO msg_connected;
                                Logged INFO msg_delay ]
                           ++ loads ++ Logged INFO msg_etl_done :: closing
            /\ load_calls loads = TABLE_FILE_MAPPING
            /\ Forall (fun ev => is_connection_call ev = false) loads
            /\ (closing = [Db close None; Logged INFO msg_closed] /\ r = Ok tt
                \/ exists e, closing = [Db close (Some e)] /\ r = Raise e)
      end
  end.
Proof.
  pose proof (all_exist_iff TABLE_FILE_MAPPING W) as Hiff.
  cbv beta iota zeta delta
    [main bind set_conn try_finally try_except logger emit get_state ret raise
     create_connection].
  rewrite check_files_exist_eval.
  destruct (missing_files TABLE_FILE_MAPPING W) as [|p rest] eqn:M.
  - rewrite (proj2 Hiff eq_refl). unfold missing_log. cbn [map app].
    rewrite record_all_nil.
    cbv beta iota zeta delta
      [db record db_effect db_failure committed working next_log_id cursor_row
       trace conn_is_set error_msg records_processed].
    match goal with
    | |- context [db_raises W ?t connect] => destruct (db_raises W t connect) as [e|]
    end.
    + eexists. split; [reflexivity|]. cbn [trace committed].
      split; [rewrite <- !app_assoc; reflexivity | reflexivity].
    + match goal with
      | |- context [load_tables PK W TABLE_FILE_MAPPING ?s] =>
          destruct (load_tables_run PK W TABLE_FILE_MAPPING s)
            as [s5 [loads [Hrun [Ht [Hl [Hn Hc]]]]]]
      end.
      rewrite Hrun. clear Hrun.
      destruct s5 as [c5 w5 n5 cr5 tr5 cs5 em5 rp5].
      cbn [conn_is_set trace] in Hc, Ht. subst cs5 tr5. cbv beta iota.
      match goal with
      | |- context [db_raises W ?t close] => destruct (db_raises W t close) as [e|]
      end.
      * exists (Raise e). eexists. exists loads, [Db close (Some e)].
        split; [reflexivity|]. cbn [trace].
        split; [rewrite <- !app_assoc; reflexivity|].
        split; [exact Hl|]. split; [exact Hn|]. right. eauto.
      * exists (Ok tt). eexists. exists loads, [Db close None; Logged INFO msg_closed].
        split; [reflexivity|]. cbn [trace].
        split; [rewrite <- !app_assoc; reflexivity|].
        split; [exact Hl|]. split; [exact Hn|]. left. auto.
  - assert (Hb : forallb (os_path_exists W) (map snd TABLE_FILE_MAPPING) = false).
    { destruct (forallb _ _); [|reflexivity].
      pose proof (proj1 Hiff eq_refl) as E. discriminate E. }
    rewrite Hb. cbv beta iota. cbn [conn_is_set record_all].
    eexists. split; [reflexivity|]. rewrite trace_record_all. cbn [trace].
    split; [rewrite <- app_assoc; reflexivity | reflexivity].
Qed.

(** ** The entry point *)

Lemma no_connection_call_counts evs :
  Forall (fun ev => is_connection_call ev = false) evs ->
  filter is_opened evs = [] /\ filter is_close evs = [].
Proof.
  induction 1 as [|ev evs Hev _ [IHo IHc]]; [split; reflexivity|].
  cbn [filter]. rewrite IHo, IHc.
  destruct ev as [c|op x|l m]; try (split; reflexivity).
  destruct op; try discriminate Hev; try (split; reflexivity);
    destruct x; split; reflexivity.
Qed.

(** X2. When a mapped file does not exist, [main] returns without raising
    after the records of the precheck: it makes no call on the database,
    opens no connection, and leaves the committed store as it was. *)
Theorem main_stops_on_missing_file
    (TABLE_FILE_MAPPING : Py.dict string) (PK : Py.dict (option (list string)))
    (W : World) (st : State) (file_path : string) :
  In file_path (map snd TABLE_FILE_MAPPING) ->
  os_path_exists W file_path = false ->
  exists st',
    main TABLE_FILE_MAPPING PK W st = (Ok tt, st')
    /\ trace st' = trace st
                   ++ Logged INFO msg_etl_begin
                   :: missing_log (missing_files TABLE_FILE_MAPPING W)
    /\ In (Logged WARNING (msg_file_missing file_path))
          (missing_log (missing_files TABLE_FILE_MAPPING W))
    /\ Forall (fun ev => is_db ev = false)
              (missing_log (missing_files TABLE_FILE_MAPPING W))
    /\ committed st' = committed st.
Proof.
  intros Hin Hex.
  assert (Hm : In file_path (missing_files TABLE_FILE_MAPPING W)).
  { unfold missing_files. apply filter_In. split; [exact Hin|].
    rewrite Hex. reflexivity. }
  pose proof (main_cases TABLE_FILE_MAPPING PK W st) as H.
  destruct (missing_files TABLE_FILE_MAPPING W) as [|p rest] eqn:M;
    [destruct Hm|].
  destruct H as [st' [Hrun [Ht Hc]]].
  exists st'. split; [exact Hrun|]. split; [exact Ht|].
  split; [|split; [apply missing_log_no_db | exact Hc]].
  unfold missing_log. apply in_or_app. left.
  apply in_map_iff. exists file_path. split; [reflexivity | exact Hm].
Qed.

Lemma main_stops_on_missing_file_witness :
  exists st',
    main (Config.TABLE_FILE_MAPPING "data") Config.PRIMARY_KEYS
         (world_without (Config.path_join "data" "md_currency_d.csv"))
         initial_state
    = (Ok tt, st')
    /\ trace st' = trace initial_state
                   ++ Logged INFO msg_etl_begin
                   :: missing_log
                        (missing_files (Config.TABLE_FILE_MAPPING "data")
                           (world_without
                              (Config.path_join "data" "md_currency_d.csv")))
    /\ In (Logged WARNING
             (msg_file_missing (Config.path_join "data" "md_currency_d.csv")))
          (missing_log
             (missing_files (Config.TABLE_FILE_MAPPING "data")
                (world_without (Config.path_join "data" "md_currency_d.csv"))))
    /\ Forall (fun ev => is_db ev = false)
              (missing_log
                 (missing_files (Config.TABLE_FILE_MAPPING "data")
                    (world_without
                       (Config.path_join "data" "md_currency_d.csv"))))
    /\ committed st' = committed initial_state.
Proof.
  apply (main_stops_on_missing_file (Config.TABLE_FILE_MAPPING "data")
           Config.PRIMARY_KEYS
           (world_without (Config.path_join "data" "md_currency_d.csv"))
           initial_state (Config.path_join "data" "md_currency_d.csv")).
  - vm_compute. do 3 right. left. reflexivity.
  - vm_compute. reflexivity.
Defined.

(** X3. When every file exists and [psycopg2.connect] raises,
    [create_connection] logs the error and raises it again, [main] logs it
    as critical and returns without raising: no table is attempted, nothing
    is closed, and the committed store is as it was. *)
Theorem main_swallows_connection_failure
    (TABLE_FILE_MAPPING : Py.dict string) (PK : Py.dict (option (list string)))
    (W : World) (st : State) (e : Exn) :
  missing_files TABLE_FILE_MAPPING W = [] ->
  db_raises W (trace st ++ [Logged INFO msg_etl_begin]) connect = Some e ->
  exists st',
    main TABLE_FILE_MAPPING PK W st = (Ok tt, st')
    /\ trace st' = trace st
                   ++ [ Logged INFO msg_etl_begin;
                        Db connect (Some e);
                        Logged ERROR (msg_connect_failed (exn_str e));
                        Logged ERROR (msg_critical (exn_str e)) ]
    /\ committed st' = committed st.
Proof.
  intros M E. pose proof (main_cases TABLE_FILE_MAPPING PK W st) as H.
  rewrite M, E in H. exact H.
Qed.

Lemma main_swallows_connection_failure_witness :
  exists st',
    main (Config.TABLE_FILE_MAPPING "data") Config.PRIMARY_KEYS
         (world_of latin1_only connection_refused) initial_state
    = (Ok tt, st')
    /\ trace st'
       = trace initial_state
         ++ [ Logged INFO msg_etl_begin;
              Db connect (Some (mkExn "OperationalError" "connection refused"));
              Logged ERROR (msg_connect_failed
                              (exn_str (mkExn "OperationalError"
                                              "connection refused")));
              Logged ERROR (msg_critical
                              (exn_str (mkExn "OperationalError"
                                              "connection refused"))) ]
    /\ committed st' = committed initial_state.
Proof.
  apply (main_swallows_connection_failure (Config.TABLE_FILE_MAPPING "data")
           Config.PRIMARY_KEYS (world_of latin1_only connection_refused)
           initial_state (mkExn "OperationalError" "connection refused"));
    reflexivity.
Defined.

(** X4. When every file exists and the connection opens, [main] attempts
    the mapped tables in the order of the mapping, each once, between the
    record of the delay and the record of the end; the loads neither open
    nor close a connection; then the connection is closed, and [main]
    raises only what [conn.close()] raised. *)
Theorem main_loads_then_closes
    (TABLE_FILE_MAPPING : Py.dict string) (PK : Py.dict (option (list string)))
    (W : World) (st : State) :
  missing_files TABLE_FILE_MAPPING W = [] ->
  db_raises W (trace st ++ [Logged INFO msg_etl_begin]) connect = None ->
  exists r st' loads closing,
    main TABLE_FILE_MAPPING PK W st = (r, st')
    /\ trace st' = trace st
                   ++ [ Logged INFO msg_etl_begin;
                        Db connect None;
                        Logged INFO msg_connected;
                        Logged INFO msg_delay ]
                   ++ loads ++ Logged INFO msg_etl_done :: closing
    /\ load_calls loads = TABLE_FILE_MAPPING
    /\ Forall (fun ev => is_connection_call ev = false) loads
    /\ (closing = [Db close None; Logged INFO msg_closed] /\ r = Ok tt
        \/ exists e, closing = [Db close (Some e)] /\ r = Raise e).
Proof.
  intros M E. pose proof (main_cases TABLE_FILE_MAPPING PK W st) as H.
  rewrite M, E in H. exact H.
Qed.

Lemma main_loads_then_closes_witness :
  exists r st' loads closing,
    main (Config.TABLE_FILE_MAPPING "data") Config.PRIMARY_KEYS
         (world_of latin1_only no_faults) initial_state
    = (r, st')
    /\ trace st' = trace initial_state
                   ++ [ Logged INFO msg_etl_begin;
                        Db connect None;
                        Logged INFO msg_connected;
                        Logged INFO msg_delay ]
                   ++ loads ++ Logged INFO msg_etl_done :: closing
    /\ load_calls loads = Config.TABLE_FILE_MAPPING "data"
    /\ Forall (fun ev => is_connection_call ev = false) loads
    /\ (closing = [Db close None; Logged INFO msg_closed] /\ r = Ok tt
        \/ exists e, closing = [Db close (Some e)] /\ r = Raise e).
Proof.
  apply (main_loads_then_closes (Config.TABLE_FILE_MAPPING "data")
           Config.PRIMARY_KEYS (world_of latin1_only no_faults) initial_state);
    reflexivity.
Defined.

(** X5. Whatever the files and the database do, [main] opens at most one
    connection and calls [close] exactly once on a connection it opened,
    never otherwise; and [main] raises only when that [close] raised, the
    exception being the one of [close]. *)
Theorem main_releases_connection
    (TABLE_FILE_MAPPING : Py.dict string) (PK : Py.dict (option (list string)))
    (W : World) (st : State) :
  exists evs,
    trace (snd (main TABLE_FILE_MAPPING PK W st)) = trace st ++ evs
    /\ closed evs = opened evs
    /\ (opened evs <= 1)%nat
    /\ match fst (main TABLE_FILE_MAPPING PK W st) with
       | Ok _ => True
       | Raise e => exists before, evs = before ++ [Db close (Some e)]
       end.
Proof.
  pose proof (main_cases TABLE_FILE_MAPPING PK W st) as H.
  destruct (missing_files TABLE_FILE_MAPPING W) as [|p rest] eqn:M.
  - destruct (db_raises W (trace st ++ [Logged INFO msg_etl_begin]) connect)
      as [e|].
    + destruct H as [st' [Hrun [Ht _]]]. rewrite Hrun. cbn [fst snd].
      eexists. split; [exact Ht|]. cbv. auto.
    + destruct H as [r [st' [loads [closing [Hrun [Ht [_ [Hn Hcl]]]]]]]].
      rewrite Hrun. cbn [fst snd]. eexists. split; [exact Ht|].
      destruct (no_connection_call_counts loads Hn) as [Ho Hc].
      unfold closed, opened.
      rewrite !filter_app, Ho, Hc.
      destruct Hcl as [[-> ->]|[e [-> ->]]]; cbn.
      * auto.
      * split; [reflexivity|]. split; [lia|].
        exists ([ Logged INFO msg_etl_begin; Db connect None;
                  Logged INFO msg_connected; Logged INFO msg_delay ]
                ++ loads ++ [Logged INFO msg_etl_done]).
        rewrite <- !app_assoc. reflexivity.
  - destruct H as [st' [Hrun [Ht _]]]. rewrite Hrun. cbn [fst snd].
    eexists. split; [exact Ht|].
    pose proof (missing_log_no_db (p :: rest)) as Hdb.
    assert (Hn : Forall (fun ev => is_connection_call ev = false)
                        (missing_log (p :: rest))).
    { eapply Forall_impl; [|exact Hdb]. intros [c|op x|l m] Hx;
        [reflexivity | discriminate Hx | reflexivity]. }
    destruct (no_connection_call_counts _ Hn) as [Ho Hc].
    unfold closed, opened. cbn [filter is_opened is_close].
    rewrite Ho, Hc. cbn. auto.
Qed.

(** ** Statements and transactions *)

Lemma execute_sql_cases W query params st :
  match execute_sql W query params st with
  | (Ok b, st') =>
      b = true
      /\ trace st' = trace st ++ executed query params
      /\ committed st'
         = fst (run_statement query params (next_log_id st) (working st))
      /\ working st' = committed st'
  | (Raise e, st') =>
      committed st' = committed st
      /\ (trace st' = trace st ++ [ Enter (call_execute_sql query params);
                                    Db cursor (Some e) ]
          /\ working st' = working st
          \/ working st' = committed st
             /\ exists attempt e0,
                  (attempt = [Db (execute query params) (Some e0)]
                   \/ attempt = [Db (execute query params) None;
                                 Db commit (Some e0)])
                  /\ (trace st'
                      = trace st
                        ++ [Enter (call_execute_sql query params); Db cursor None]
                        ++ attempt
                        ++ [ Db rollback None;
                             Logged ERROR (msg_query_failed (exn_str e) query) ]
                      /\ e = e0
                      \/ trace st'
                         = trace st
                           ++ [Enter (call_execute_sql query params);
                               Db cursor None]
                           ++ attempt ++ [Db rollback (Some e)]))
  end.
Proof.
  unfold execute_sql, bind, try_except, enter, emit, db, logger, raise, ret.
  cbn [trace record db_effect db_failure].
  destruct (db_raises W (trace st ++ [Enter (call_execute_sql query params)]) cursor)
    as [e1|].
  { cbn. split; [reflexivity|]. left. rewrite <- app_assoc. split; reflexivity. }
  cbn.
  match goal with
  | |- context [db_raises W ?t (execute query params)] =>
      destruct (db_raises W t (execute query params)) as [e2|]
  end.
  { cbn.
    match goal with
    | |- context [db_raises W ?t rollback] =>
        destruct (db_raises W t rollback) as [e3|]
    end; cbn; (split; [reflexivity|]); right; (split; [reflexivity|]);
      exists [Db (execute query params) (Some e2)], e2;
      (split; [left; reflexivity|]).
    - right. rewrite <- !app_assoc. reflexivity.
    - left. rewrite <- !app_assoc. split; reflexivity. }
  cbn.
  destruct (run_statement query params (next_log_id st) (working st)) as [w row].
  cbn.
  match goal with
  | |- context [db_raises W ?t commit] =>
      destruct (db_raises W t commit) as [e4|]
  end.
  { cbn.
    match goal with
    | |- context [db_raises W ?t rollback] =>
        destruct (db_raises W t rollback) as [e5|]
    end; cbn; (split; [reflexivity|]); right; (split; [reflexivity|]);
      exists [Db (execute query params) None; Db commit (Some e4)], e4;
      (split; [right; reflexivity|]).
    - right. rewrite <- !app_assoc. reflexivity.
    - left. rewrite <- !app_assoc. split; reflexivity. }
  cbn. unfold executed. rewrite <- !app_assoc. repeat split; reflexivity.
Qed.

(** X6. [execute_sql] is all or nothing.  When it returns, it returns
    [True], the statement ran on a fresh cursor and was committed, and no
    uncommitted work is left.  When it raises, the committed store is
    as it was; either the cursor could not be opened and nothing else was
    called, or the statement or its commit raised, a rollback was called,
    the transaction is discarded, and the exception is the one of the
    statement or commit, logged with the query, unless the rollback itself
    raised, in which case it is the one of the rollback and nothing is
    logged. *)
Theorem execute_sql_all_or_nothing W query params st r st' :
  execute_sql W query params st = (r, st') ->
  match r with
  | Ok b =>
      b = true
      /\ trace st' = trace st ++ executed query params
      /\ committed st'
         = fst (run_statement query params (next_log_id st) (working st))
      /\ working st' = committed st'
  | Raise e =>
      committed st' = committed st
      /\ (trace st' = trace st ++ [ Enter (call_execute_sql query params);
                                    Db cursor (Some e) ]
          /\ working st' = working st
          \/ working st' = committed st
             /\ exists attempt e0,
                  (attempt = [Db (execute query params) (Some e0)]
                   \/ attempt = [Db (execute query params) None;
                                 Db commit (Some e0)])
                  /\ (trace st'
                      = trace st
                        ++ [Enter (call_execute_sql query params); Db cursor None]
                        ++ attempt
                        ++ [ Db rollback None;
                             Logged ERROR (msg_query_failed (exn_str e) query) ]
                      /\ e = e0
                      \/ trace st'
                         = trace st
                           ++ [Enter (call_execute_sql query params);
                               Db cursor None]
                           ++ attempt ++ [Db rollback (Some e)]))
  end.
Proof.
  intros H. pose proof (execute_sql_cases W query params st) as C.
  rewrite H in C. exact C.
Qed.
Lemma execute_sql_all_or_nothing_witness :
  journal (committed (snd (execute_sql (world_of latin1_only no_faults)
                             truncate_query [] initial_state)))
  = [Truncated]
  /\ working (snd (execute_sql (world_of latin1_only no_faults)
                     truncate_query [] initial_state))
     = committed (snd (execute_sql (world_of latin1_only no_faults)
                         truncate_query [] initial_state)).
Proof.
  destruct (execute_sql_all_or_nothing (world_of latin1_only no_faults)
              truncate_query [] initial_state (Ok true)
              (snd (execute_sql (world_of latin1_only no_faults)
                      truncate_query [] initial_state))
              eq_refl)
    as [_ [_ [Hc Hw]]].
  split; [rewrite Hc; reflexivity | exact Hw].
Defined.

Lemma log_etl_start_cases W table_name st :
  let t := datetime_now W (trace st ++ [ Enter (call_log_etl_start table_name);
                                         Db cursor None ]) in
  let params := [ PValue (VStr table_name); PTime t; PValue (VStr "started");
                  PValue (VInt 0) ] in
  match log_etl_start W table_name st with
  | (Ok log_id, st') =>
      log_id = VInt (next_log_id st)
      /\ next_log_id st' = (next_log_id st + 1)%Z
      /\ committed st'
         = mkStore (etl_logs (working st)
                    ++ [mkRunRecord (next_log_id st) table_name t None
                                    "started" 0 VNone])
                   (journal (working st))
      /\ working st' = committed st'
      /\ locals st' = locals st
      /\ trace st' = trace st
                     ++ [ Enter (call_log_etl_start table_name);
                          Db cursor None;
                          Db (execute log_start_query params) None;
                          Db fetchone None;
                          Db commit None ]
  | (Raise e, st') =>
      committed st' = committed st
      /\ exists evs,
           trace st' = trace st ++ Enter (call_log_etl_start table_name) :: evs
           /\ Exists (fun ev => raised ev = true) evs
           /\ Forall (fun ev => opening_event ev = true) evs
           /\ (evs = [Db cursor (Some e)] /\ working st' = working st
               \/ working st' = committed st
                  /\ (In (Db rollback (Some e)) evs
                      \/ In (Db rollback None) evs
                         /\ In (Logged ERROR (msg_log_start_failed (exn_str e)))
                               evs))
  end.
Proof.
  intros t params. subst t params.
  unfold log_etl_start, fetchone_item0, bind, try_except, enter, emit, db, now,
    get_state, logger, raise, ret.
  cbn [trace record db_effect db_failure].
  destruct (db_raises W (trace st ++ [Enter (call_log_etl_start table_name)]) cursor)
    as [e1|].
  { cbn. split; [reflexivity|]. eexists.
    split; [rewrite <- app_assoc; reflexivity|].
    split; [apply Exists_cons_hd; reflexivity|].
    split; [repeat constructor|]. left. split; reflexivity. }
  repeat (cbn;
          match goal with
          | |- context [db_raises W ?t ?op] => destruct (db_raises W t op)
          end).
  all: cbn.
  all: try (split; [reflexivity|]; eexists;
            split; [rewrite <- !app_assoc; cbn; reflexivity|];
            split; [repeat first [ apply Exists_cons_hd; reflexivity
                                 | apply Exists_cons_tl ]|];
            split; [repeat constructor|];
            right; split; [reflexivity|];
            first [ left; cbn; tauto
                  | right; cbn; split; tauto ]).
  rewrite <- !app_assoc. cbn. repeat split; reflexivity.
Qed.

(** X7. [log_etl_start] opens the audit record or changes nothing.  When
    it returns, the value returned is the [log_id] the database assigned,
    and one new row is committed: that id, the table name, the time read
    before the INSERT, no end time, status started, zero rows, no error;
    the tables apart from [logs.etl_logs] are as the open transaction had
    them.  When it raises, the committed store is as it was, and among the
    events of this call a rollback was called, unless the cursor could not
    be opened. *)
Theorem log_etl_start_opens_record W table_name st r st' :
  log_etl_start W table_name st = (r, st') ->
  let t := datetime_now W (trace st ++ [ Enter (call_log_etl_start table_name);
                                         Db cursor None ]) in
  match r with
  | Ok log_id =>
      log_id = VInt (next_log_id st)
      /\ next_log_id st' = (next_log_id st + 1)%Z
      /\ etl_logs (committed st')
         = etl_logs (working st)
           ++ [mkRunRecord (next_log_id st) table_name t None "started" 0 VNone]
      /\ journal (committed st') = journal (working st)
      /\ working st' = committed st'
  | Raise e =>
      committed st' = committed st
      /\ (trace st' = trace st ++ [ Enter (call_log_etl_start table_name);
                                    Db cursor (Some e) ]
          \/ exists before x after,
               trace st' = trace st
                           ++ Enter (call_log_etl_start table_name)
                           :: before ++ Db rollback x :: after)
  end.
Proof.
  intros H t. pose proof (log_etl_start_cases W table_name st) as C.
  cbv zeta in C. rewrite H in C. subst t.
  destruct r as [log_id|e].
  - destruct C as [Hid [Hn [Hc [Hw _]]]].
    repeat split; try assumption; rewrite Hc; reflexivity.
  - destruct C as [Hc [evs [Ht [_ [_ [[-> _]|[_ Hin]]]]]]]; (split; [exact Hc|]).
    + left. exact Ht.
    + right.
      assert (Hr : exists x, In (Db rollback x) evs).
      { destruct Hin as [Hin|[Hin _]]; eauto. }
      destruct Hr as [x Hx]. apply in_split in Hx. destruct Hx as [l1 [l2 ->]].
      exists l1, x, l2. exact Ht.
Qed.

Lemma log_etl_start_opens_record_witness :
  etl_logs (committed (snd (log_etl_start (world_of latin1_only no_faults)
                              "ds.md_account_d" initial_state)))
  = [mkRunRecord 1 "ds.md_account_d" 2 None "started" 0 VNone].
Proof.
  destruct (log_etl_start_opens_record (world_of latin1_only no_faults)
              "ds.md_account_d" initial_state (Ok (VInt 1))
              (snd (log_etl_start (world_of latin1_only no_faults)
                      "ds.md_account_d" initial_state))
              eq_refl)
    as [_ [_ [Hl _]]].
  rewrite Hl. reflexivity.
Defined.

Lemma insert_batch_cases W table_name df query tuples st :
  match insert_batch W table_name df query tuples st with
  | (Ok _, st') =>
      trace st' = trace st ++ committed_batch table_name query tuples
      /\ committed st'
         = mkStore (etl_logs (working st))
                   (journal (working st) ++ [Batch query tuples])
      /\ working st' = committed st'
      /\ records_processed st' = Z.of_nat (length tuples)
      /\ error_msg st' = error_msg st
  | (Raise e, st') =>
      committed st' = committed st
      /\ exists evs,
           trace st' = trace st ++ evs
           /\ ((evs = [Db cursor (Some e)]
                \/ evs = [Db cursor None; Db (execute "BEGIN;" []) (Some e)])
               /\ working st' = working st
               /\ locals st' = locals st
               \/ (exists x, In (Db rollback x) evs)
                  /\ working st' = committed st)
  end.
Proof.
  unfold insert_batch, bind, try_except, set_records_processed, set_error_msg,
    logger, emit, db, raise, ret, lift.
  cbn [trace record db_effect db_failure].
  destruct (db_raises W (trace st) cursor) as [e1|].
  { split; [reflexivity|]. eexists. split; [reflexivity|]. left.
    split; [left; reflexivity|]. split; reflexivity. }
  cbn.
  match goal with
  | |- context [db_raises W ?t (execute "BEGIN;" [])] =>
      destruct (db_raises W t (execute "BEGIN;" [])) as [e2|]
  end.
  { cbn. split; [reflexivity|]. eexists.
    split; [rewrite <- app_assoc; reflexivity|]. left.
    split; [right; reflexivity|]. split; reflexivity. }
  cbn.
  match goal with
  | |- context [db_raises W ?t (execute_batch query tuples 1000)] =>
      destruct (db_raises W t (execute_batch query tuples 1000)) as [e3|]
  end.
  { cbn.
    match goal with
    | |- context [db_raises W ?t rollback] =>
        destruct (db_raises W t rollback) as [e4|]
    end; cbn.
    - split; [reflexivity|]. eexists.
      split; [rewrite <- !app_assoc; reflexivity|]. right.
      split; [|reflexivity]. eexists. cbn. eauto 6.
    - destruct (String.eqb table_name "ds.md_currency_d"); cbn;
        [destruct (sample_of W df ["currency_code"; "code_iso_char"]) as [s|e5]; cbn|];
        (split; [reflexivity|]); eexists;
        (split; [rewrite <- !app_assoc; reflexivity|]); right;
        (split; [|reflexivity]); eexists; cbn; eauto 6. }
  cbn.
  match goal with
  | |- context [db_raises W ?t commit] =>
      destruct (db_raises W t commit) as [e6|]
  end.
  { cbn.
    match goal with
    | |- context [db_raises W ?t rollback] =>
        destruct (db_raises W t rollback) as [e7|]
    end; cbn.
    - split; [reflexivity|]. eexists.
      split; [rewrite <- !app_assoc; reflexivity|]. right.
      split; [|reflexivity]. eexists. cbn. eauto 8.
    - destruct (String.eqb table_name "ds.md_currency_d"); cbn;
        [destruct (sample_of W df ["currency_code"; "code_iso_char"]) as [s|e5]; cbn|];
        (split; [reflexivity|]); eexists;
        (split; [rewrite <- !app_assoc; reflexivity|]); right;
        (split; [|reflexivity]); eexists; cbn; eauto 8. }
  cbn. unfold committed_batch. rewrite <- !app_assoc. repeat split; reflexivity.
Qed.

(** X8. The batch insert is atomic.  When lines 202-215 return, exactly
    the one batch was added to what the open transaction held and all of
    it is committed, and the number of tuples is counted.  When they
    raise, the committed store is as it was; a rollback was called and the
    transaction is discarded, except when [cursor()] or BEGIN raised:
    these raise outside the inner [try], so no rollback is called and the
    variables of the load are as they were. *)
Theorem insert_batch_atomic W table_name df query tuples st r st' :
  insert_batch W table_name df query tuples st = (r, st') ->
  match r with
  | Ok _ =>
      trace st' = trace st ++ committed_batch table_name query tuples
      /\ etl_logs (committed st') = etl_logs (working st)
      /\ journal (committed st') = journal (working st) ++ [Batch query tuples]
      /\ working st' = committed st'
      /\ records_processed st' = Z.of_nat (length tuples)
  | Raise e =>
      committed st' = committed st
      /\ exists evs,
           trace st' = trace st ++ evs
           /\ ((evs = [Db cursor (Some e)]
                \/ evs = [Db cursor None; Db (execute "BEGIN;" []) (Some e)])
               /\ working st' = working st
               /\ locals st' = locals st
               \/ (exists x, In (Db rollback x) evs)
                  /\ working st' = committed st)
  end.
Proof.
  intros H. pose proof (insert_batch_cases W table_name df query tuples st) as C.
  rewrite H in C. destruct r as [u|e]; [|exact C].
  destruct C as [Ht [Hc [Hw [Hn _]]]].
  repeat split; try assumption; rewrite Hc; reflexivity.
Qed.

Lemma insert_batch_atomic_witness :
  committed (snd (insert_batch (world_of latin1_only batch_rejected)
                    "ds.md_account_d" accounts_frame "INSERT"
                    (data_tuples accounts_frame) initial_state))
  = committed initial_state.
Proof.
  exact (proj1 (insert_batch_atomic (world_of latin1_only batch_rejected)
                  "ds.md_account_d" accounts_frame "INSERT"
                  (data_tuples accounts_frame) initial_state
                  (Raise (mkExn "DataError"
                                "value too long for type character varying(3)"))
                  (snd (insert_batch (world_of latin1_only batch_rejected)
                          "ds.md_account_d" accounts_frame "INSERT"
                          (data_tuples accounts_frame) initial_state))
                  eq_refl)).
Defined.

(** ** Loads that fail *)

Lemma posting_rejected_run_pair :
  load_body Config.PRIMARY_KEYS (world_of latin1_only batch_rejected)
    "ds.ft_posting_f" "ft_posting_f.csv" initial_state
  = (Raise (mkExn "DataError" "value too long for type character varying(3)"),
     snd posting_rejected_run).
Proof. vm_compute. reflexivity. Qed.

(** X9. The TRUNCATE of a posting load outlives a failed batch.  When the
    body of a load of [ds.ft_posting_f] raises after its batch transaction
    was begun, the committed store holds the truncation and not the batch:
    the table is left empty, and the audit rows are as the transaction had
    them. *)
Theorem truncate_outlives_failed_batch PK W file_path st e st' evs :
  load_body PK W "ds.ft_posting_f" file_path st = (Raise e, st') ->
  trace st' = trace st ++ evs ->
  Exists (fun ev => in_batch_transaction ev = true) evs ->
  journal (committed st') = journal (working st) ++ [Truncated]
  /\ etl_logs (committed st') = etl_logs (working st).
Proof.
  intros H Ht Hex.
  pose proof (load_body_stages _ _ _ _ _ _ _ H) as S. clear H.
  destruct (first_success W file_path encodings) as [[[failed enc] df0]|].
  2: { exfalso. destruct S as [_ ->]. rewrite trace_record_all in Ht.
       apply app_inv_head in Ht. subst evs.
       apply (calm_no_batch _
                (calm_read_events W file_path encodings [] (Forall_nil _))).
       rewrite app_nil_r. exact Hex. }
  cbv zeta in S.
  destruct (normalize_frame (float_str W) (timestamp_bounds W) "ds.ft_posting_f" df0) as [df|e1].
  2: { exfalso. destruct S as [_ ->]. rewrite trace_record_all in Ht.
       apply app_inv_head in Ht. subst evs.
       refine (calm_no_batch _
                 (calm_read_events W file_path failed
                    [Logged INFO (msg_file_read file_path enc)] _) Hex).
       repeat constructor. }
  change (String.eqb "ds.ft_posting_f" "ds.ft_posting_f") with true in S.
  cbv iota in S.
  match type of S with
  | match execute_sql W truncate_query [] ?s with _ => _ end =>
      set (st1 := s) in *;
      pose proof (execute_sql_cases W truncate_query [] st1) as C;
      assert (G : forall r2 st2,
                 execute_sql W truncate_query [] st1 = (r2, st2) ->
                 emits_only calm (trace st) st2)
  end.
  { intros r2 st2 E.
    eapply (emits_execute_sql W calm (trace st) quiet_calm truncate_query []);
      [split; reflexivity | intros x; split; reflexivity | | exact E].
    subst st1. eexists. split; [apply trace_record_all|].
    apply calm_read_events. repeat constructor. }
  destruct (execute_sql W truncate_query [] st1) as [[b|e2] st2].
  - destruct C as [_ [_ [Hc _]]].
    pose proof (insert_batch_cases W "ds.ft_posting_f" df
                  (insert_query PK "ds.ft_posting_f" (columns df))
                  (data_tuples df)
                  (record (Logged INFO (msg_truncated "ds.ft_posting_f")) st2)) as B.
    rewrite S in B. destruct B as [Hb _]. rewrite Hb. cbn [committed record].
    rewrite Hc. subst st1. split; reflexivity.
  - exfalso. destruct S as [_ ->].
    destruct (G _ _ eq_refl) as [evs2 [Ht2 Hcalm]].
    rewrite Ht in Ht2. apply app_inv_head in Ht2. subst evs2.
    exact (calm_no_batch _ Hcalm Hex).
Qed.

Lemma truncate_outlives_failed_batch_witness :
  journal (committed (snd posting_rejected_run)) = [Truncated]
  /\ etl_logs (committed (snd posting_rejected_run)) = [].
Proof.
  apply (truncate_outlives_failed_batch Config.PRIMARY_KEYS
           (world_of latin1_only batch_rejected) "ft_posting_f.csv" initial_state
           (mkExn "DataError" "value too long for type character varying(3)")
           (snd posting_rejected_run) (trace (snd posting_rejected_run))
           posting_rejected_run_pair (from_initial_state _)).
  vm_compute. repeat first [apply Exists_cons_hd; reflexivity | apply Exists_cons_tl].
Defined.

Lemma sample_of_missing W df cols col :
  In col cols -> Py.mem col (columns df) = false ->
  exists k, sample_of W df cols = Raise k /\ exn_class k = "KeyError".
Proof.
  intros Hin Hm. unfold sample_of.
  destruct (filter (fun c => negb (Py.mem c (columns df))) cols) as [|c l] eqn:F.
  - exfalso.
    assert (H : In col (filter (fun c => negb (Py.mem c (columns df))) cols)).
    { apply filter_In. split; [exact Hin|]. rewrite Hm. reflexivity. }
    rewrite F in H. destruct H.
  - eexists. split; reflexivity.
Qed.

Lemma currency_rejected_run_pair :
  insert_batch (world_of latin1_only batch_rejected) "ds.md_currency_d"
    (normalize_columns accounts_frame) "INSERT"
    (data_tuples (normalize_columns accounts_frame)) initial_state
  = (fst currency_rejected_run, snd currency_rejected_run).
Proof. unfold currency_rejected_run. apply surjective_pairing. Qed.

(** X10. The diagnostics of the currency table replace the error.  When
    the batch insert of [ds.md_currency_d] reaches the diagnostics of lines
    222-225 and the frame lacks one of the two columns they select, the
    insert raises the [KeyError] of the selection, not the error of the
    database: that one was logged and stored in [error_msg] before, and no
    sample is logged. *)
Theorem currency_diagnostics_replace_error W df query tuples st r st' evs col :
  insert_batch W "ds.md_currency_d" df query tuples st = (r, st') ->
  trace st' = trace st ++ evs ->
  In (Logged INFO msg_samples) evs ->
  In col ["currency_code"; "code_iso_char"] ->
  Py.mem col (columns df) = false ->
  exists k e0,
    r = Raise k
    /\ exn_class k = "KeyError"
    /\ In (Logged ERROR (msg_insert_failed (exn_str e0))) evs
    /\ error_msg st' = Some (exn_str e0)
    /\ (In (Db (execute_batch query tuples 1000) (Some e0)) evs
        \/ In (Db commit (Some e0)) evs)
    /\ Forall (fun ev => forall sample, ev <> Logged INFO (msg_sample sample)) evs.
Proof.
  intros H Ht Hin Hcol Hm.
  destruct (sample_of_missing W df _ col Hcol Hm) as [k [Hk Hclass]].
  revert H.
  unfold insert_batch, bind, try_except, set_records_processed, set_error_msg,
    logger, emit, db, raise, ret, lift.
  rewrite Hk.
  change (String.eqb "ds.md_currency_d" "ds.md_currency_d") with true.
  cbn [trace record db_effect db_failure].
  assert (Hno : forall l,
             trace st' = trace st ++ l ->
             ~ In (Logged INFO msg_samples) l -> False).
  { intros l Hl Hn. rewrite Ht in Hl. apply app_inv_head in Hl. subst l.
    exact (Hn Hin). }
  destruct (db_raises W (trace st) cursor) as [e1|].
  { intros H; injection H as <- <-. exfalso. apply (Hno [Db cursor (Some e1)]).
    - reflexivity.
    - intros [X|[]]; discriminate X. }
  cbn.
  match goal with
  | |- context [db_raises W ?t (execute "BEGIN;" [])] =>
      destruct (db_raises W t (execute "BEGIN;" [])) as [e2|]
  end.
  { intros H; injection H as <- <-. exfalso.
    apply (Hno [Db cursor None; Db (execute "BEGIN;" []) (Some e2)]).
    - cbn. rewrite <- app_assoc. reflexivity.
    - intros [X|[X|[]]]; discriminate X. }
  cbn.
  match goal with
  | |- context [db_raises W ?t (execute_batch query tuples 1000)] =>
      destruct (db_raises W t (execute_batch query tuples 1000)) as [e3|]
  end.
  { cbn.
    match goal with
    | |- context [db_raises W ?t rollback] =>
        destruct (db_raises W t rollback) as [e4|]
    end; cbn; intros H; injection H as <- <-.
    - exfalso.
      apply (Hno [Db cursor None; Db (execute "BEGIN;" []) None;
                  Db (execute_batch query tuples 1000) (Some e3);
                  Db rollback (Some e4)]).
      + cbn. rewrite <- !app_assoc. reflexivity.
      + intros X. repeat (destruct X as [X|X]; [discriminate X|]). destruct X.
    - cbn [trace] in Ht. rewrite <- !app_assoc in Ht. apply app_inv_head in Ht.
      subst evs. exists k, e3. cbn.
      split; [reflexivity|]. split; [exact Hclass|].
      split; [tauto|]. split; [reflexivity|]. split; [tauto|].
      repeat constructor; intros sample X; discriminate X. }
  cbn.
  match goal with
  | |- context [db_raises W ?t commit] =>
      destruct (db_raises W t commit) as [e6|]
  end.
  { cbn.
    match goal with
    | |- context [db_raises W ?t rollback] =>
        destruct (db_raises W t rollback) as [e7|]
    end; cbn; intros H; injection H as <- <-.
    - exfalso.
      apply (Hno [Db cursor None; Db (execute "BEGIN;" []) None;
                  Db (execute_batch query tuples 1000) None;
                  Db commit (Some e6); Db rollback (Some e7)]).
      + cbn. rewrite <- !app_assoc. reflexivity.
      + intros X. repeat (destruct X as [X|X]; [discriminate X|]). destruct X.
    - cbn [trace] in Ht. rewrite <- !app_assoc in Ht. apply app_inv_head in Ht.
      subst evs. exists k, e6. cbn.
      split; [reflexivity|]. split; [exact Hclass|].
      split; [tauto|]. split; [reflexivity|]. split; [tauto|].
      repeat constructor; intros sample X; discriminate X. }
  cbn. intros H; injection H as <- <-. exfalso.
  apply (Hno (committed_batch "ds.md_currency_d" query tuples)).
  - cbn. rewrite <- !app_assoc. reflexivity.
  - intros X. repeat (destruct X as [X|X]; [discriminate X|]). destruct X.
Qed.

Lemma currency_diagnostics_replace_error_witness :
  exists k e0,
    fst currency_rejected_run = Raise k
    /\ exn_class k = "KeyError"
    /\ In (Logged ERROR (msg_insert_failed (exn_str e0)))
          (trace (snd currency_rejected_run))
    /\ error_msg (snd currency_rejected_run) = Some (exn_str e0)
    /\ (In (Db (execute_batch "INSERT"
                  (data_tuples (normalize_columns accounts_frame)) 1000)
               (Some e0))
           (trace (snd currency_rejected_run))
        \/ In (Db commit (Some e0)) (trace (snd currency_rejected_run)))
    /\ Forall (fun ev => forall sample, ev <> Logged INFO (msg_sample sample))
              (trace (snd currency_rejected_run)).
Proof.
  apply (currency_diagnostics_replace_error (world_of latin1_only batch_rejected)
           (normalize_columns accounts_frame) "INSERT"
           (data_tuples (normalize_columns accounts_frame)) initial_state
           (fst currency_rejected_run) (snd currency_rejected_run)
           (trace (snd currency_rejected_run)) "code_iso_char"
           currency_rejected_run_pair (from_initial_state _)).
  - vm_compute. repeat first [left; reflexivity | right].
  - right. left. reflexivity.
  - reflexivity.
Defined.

(** ** Loads that fail before their first statement *)

Lemma log_etl_end_unfold W log_id table_name status n err st :
  log_etl_end W log_id table_name status n err st
  = match execute_sql W log_end_query
            [ PTime (datetime_now W
                       (trace st
                        ++ [Enter (call_log_etl_end log_id table_name status n
                                     err)]));
              PValue (VStr status); PValue (VInt n); param_of_error err;
              PValue log_id ]
            (record (Enter (call_log_etl_end log_id table_name status n err)) st)
    with
    | (Ok _, s) => (Ok tt, s)
    | (Raise e, s) => (Raise e, s)
    end.
Proof.
  unfold log_etl_end, bind at 1 2 3, enter, emit, now, ret.
  change (mkState _ _ _ _ (trace st ++ [?ev]) _ _ _) with (record ev st).
  cbn [trace record].
  destruct (execute_sql W log_end_query _ _) as [[b|e] s]; reflexivity.
Qed.

Lemma load_guarded_early PK W table_name file_path st e :
  early_failure W table_name file_path = Some e ->
  exists reading,
    load_guarded PK W table_name file_path st
    = (Raise e,
       record (Logged ERROR (msg_load_failed table_name (exn_str e)))
         (snd (set_error_msg (Some (exn_str e))
                 (record_all
                    (Enter (call_read_csv_with_encoding_tries file_path)
                     :: reading) st))))
    /\ Forall (fun ev => exists level m, ev = Logged level m) reading.
Proof.
  unfold early_failure. intros He.
  destruct (load_body PK W table_name file_path st) as [r s] eqn:B.
  pose proof (load_body_stages _ _ _ _ _ _ _ B) as S.
  assert (HL : forall failed,
             Forall (fun ev => exists level m, ev = Logged level m)
                    (attempt_log W file_path failed)).
  { intros failed. apply attempt_log_logged. eauto. }
  unfold load_guarded, try_except. rewrite B. clear B.
  destruct (first_success W file_path encodings) as [[[failed enc] df0]|].
  - cbv zeta in S.
    destruct (normalize_frame (float_str W) (timestamp_bounds W) table_name df0) as [df|e1];
      [discriminate He|].
    injection He as ->. destruct S as [-> ->].
    exists (attempt_log W file_path failed
            ++ [Logged INFO (msg_file_read file_path enc)]).
    split; [reflexivity|].
    apply Forall_app. split; [apply HL|]. repeat constructor. eauto.
  - injection He as <-. destruct S as [-> ->].
    exists (attempt_log W file_path encodings).
    split; [reflexivity | apply HL].
Qed.
Lemma opening_plain ev :
  opening_event ev = true ->
  is_truncate ev = false /\ in_batch_transaction ev = false.
Proof.
  intros H. split; [apply opening_not_truncate, H | apply (opening_calm ev H)].
Qed.

Lemma closing_plain ev :
  closing_event ev = true ->
  is_truncate ev = false /\ in_batch_transaction ev = false.
Proof.
  intros H. split; [apply closing_not_truncate, H | apply (closing_calm ev H)].
Qed.

Lemma logged_plain evs :
  Forall (fun ev => exists level m, ev = Logged level m) evs ->
  Forall (fun ev => is_truncate ev = false /\ in_batch_transaction ev = false) evs.
Proof.
  apply Forall_impl. intros ev [level [m ->]]. split; reflexivity.
Qed.

Lemma update_record_own t status n err z name t0 end0 status0 n0 err0 :
  update_record t status n err z (mkRunRecord z name t0 end0 status0 n0 err0)
  = mkRunRecord z name t0 (Some t) status n err.
Proof. unfold update_record. cbn. rewrite Z.eqb_refl. reflexivity. Qed.

Lemma balance_without_date_run_pair :
  load_data_from_csv Config.PRIMARY_KEYS (world_of latin1_only no_faults)
    "ds.ft_balance_f" "ft_balance_f.csv" initial_state
  = (fst balance_without_date_run, snd balance_without_date_run).
Proof. unfold balance_without_date_run. apply surjective_pairing. Qed.

Lemma end_reports_app a b : end_reports (a ++ b) = end_reports a ++ end_reports b.
Proof.
  induction a as [|ev a IH]; [reflexivity|].
  destruct ev as [[]|? ?|]; cbn; rewrite IH; reflexivity.
Qed.

Lemma end_reports_none evs :
  Forall (fun ev => is_end_call ev = false) evs -> end_reports evs = [].
Proof.
  induction 1 as [|ev evs H _ IH]; [reflexivity|].
  destruct ev as [[]|? ?|]; cbn in *; try discriminate H; exact IH.
Qed.

Lemma early_failure_facts PK W table_name file_path st e r st' evs :
  early_failure W table_name file_path = Some e ->
  load_data_from_csv PK W table_name file_path st = (r, st') ->
  trace st' = trace st ++ evs ->
  (exists e', r = Raise e')
  /\ Forall (fun ev => is_truncate ev = false /\ in_batch_transaction ev = false)
            evs
  /\ (forall log_id t status n err,
        In (Enter (call_log_etl_end log_id t status n err)) evs ->
        log_id = VInt (next_log_id st) /\ t = table_name
        /\ status = "failed" /\ n = 0%Z /\ err = Some (exn_str e))
  /\ (Forall (fun ev => raised ev = false) evs ->
      r = Raise e
      /\ journal (committed st') = journal (working st)
      /\ (exists t0 t1,
           etl_logs (committed st')
           = map (update_record t1 "failed" 0 (VStr (exn_str e)) (next_log_id st))
                 (etl_logs (working st))
             ++ [mkRunRecord (next_log_id st) table_name t0 (Some t1)
                             "failed" 0 (VStr (exn_str e))])
      /\ working st' = committed st'
      /\ end_reports evs = [(table_name, "failed", 0%Z)]).
Proof.
  intros He H Ht.
  rewrite load_data_from_csv_unfold in H.
  pose proof (log_etl_start_cases W table_name
                (record (Logged INFO (msg_load_begin table_name file_path))
                   (record (Enter (call_load_data_from_csv table_name file_path))
                      st))) as C1.
  cbv zeta in C1. cbn [trace record next_log_id working committed] in C1.
  destruct (log_etl_start W table_name _) as [[log_id|e1] st1].
  2: { injection H as <- <-.
       destruct C1 as [_ [evs1 [Ht1 [Hex [Hop _]]]]].
       assert (Hevs : evs = [ Enter (call_load_data_from_csv table_name file_path);
                              Logged INFO (msg_load_begin table_name file_path);
                              Enter (call_log_etl_start table_name) ] ++ evs1).
       { apply (app_inv_head (trace st)). rewrite <- Ht, Ht1.
         repeat rewrite <- app_assoc. reflexivity. }
       subst evs. clear Ht Ht1.
       split; [eauto|]. split.
       { repeat (constructor; [split; reflexivity|]).
         eapply Forall_impl; [|exact Hop]. apply opening_plain. }
       split.
       { intros log_id t status n err Hin.
         repeat (destruct Hin as [Hin|Hin]; [discriminate Hin|]).
         rewrite Forall_forall in Hop. specialize (Hop _ Hin).
         discriminate Hop. }
       intros Hnr. exfalso.
       apply Forall_app in Hnr. destruct Hnr as [_ Hnr].
       rewrite Forall_forall in Hnr. apply Exists_exists in Hex.
       destruct Hex as [ev [Hin Hev]]. rewrite (Hnr _ Hin) in Hev.
       discriminate Hev. }
  destruct C1 as [Hid [_ [Hc1 [Hw1 [_ Ht1]]]]].
  destruct (load_guarded_early PK W table_name file_path (reset_locals st1) e He)
    as [reading [G Hrd]].
  rewrite G in H. clear G.
  match type of H with
  | context [log_etl_end W log_id table_name ?s ?n ?err ?st2] =>
      set (s2 := st2) in *
  end.
  change (status_of (error_msg s2)) with "failed" in H.
  change (records_processed s2) with 0%Z in H.
  change (error_msg s2) with (Some (exn_str e)) in H.
  destruct (log_etl_end W log_id table_name "failed" 0 (Some (exn_str e)) s2)
    as [[u|e3] st3] eqn:E3.
  all: destruct (log_etl_end_outcome _ _ _ _ _ _ _ _ _ E3)
         as [closing [Ht3 [Hcl Hres]]].
  all: injection H as <- <-.
  all: assert (Hevs :
         evs = [ Enter (call_load_data_from_csv table_name file_path);
                 Logged INFO (msg_load_begin table_name file_path);
                 Enter (call_log_etl_start table_name);
                 Db cursor None;
                 Db (execute log_start_query
                       [ PValue (VStr table_name);
                         PTime (datetime_now W
                                  (((trace st
                                     ++ [Enter (call_load_data_from_csv
                                                  table_name file_path)])
                                    ++ [Logged INFO
                                          (msg_load_begin table_name file_path)])
                                   ++ [ Enter (call_log_etl_start table_name);
                                        Db cursor None ]));
                         PValue (VStr "started"); PValue (VInt 0) ]) None;
                 Db fetchone None;
                 Db commit None ]
               ++ (Enter (call_read_csv_with_encoding_tries file_path) :: reading)
               ++ Logged ERROR (msg_load_failed table_name (exn_str e))
               :: Enter (call_log_etl_end log_id table_name "failed" 0
                           (Some (exn_str e)))
               :: closing);
    [ apply (app_inv_head (trace st)); rewrite <- Ht, Ht3; subst s2;
      cbn [trace record record_all set_error_msg snd reset_locals];
      rewrite Ht1; repeat rewrite <- app_assoc; reflexivity
    | subst evs; clear Ht ].
  all: (split; [eauto|]).
  all: split;
    [ apply Forall_app; split; [repeat constructor|];
      constructor; [split; reflexivity|];
      apply Forall_app; split; [apply logged_plain, Hrd|];
      constructor; [split; reflexivity|];
      constructor; [split; reflexivity|];
      eapply Forall_impl; [|exact Hcl]; apply closing_plain
    | ].
  all: split;
    [ intros log_id' t status n err Hin;
      apply in_app_or in Hin; destruct Hin as [Hin|Hin];
      [ repeat (destruct Hin as [Hin|Hin]; [discriminate Hin|]); destruct Hin |];
      destruct Hin as [Hin|Hin]; [discriminate Hin|];
      apply in_app_or in Hin; destruct Hin as [Hin|Hin];
      [ rewrite Forall_forall in Hrd; destruct (Hrd _ Hin) as [l [m X]];
        discriminate X |];
      destruct Hin as [Hin|[Hin|Hin]];
      [ discriminate Hin
      | injection Hin as <- <- <- <- <-; rewrite Hid; auto
      | rewrite Forall_forall in Hcl; specialize (Hcl _ Hin); discriminate Hcl ]
    | ].
  - intros _. split; [reflexivity|].
    rewrite log_etl_end_unfold in E3.
    match type of E3 with
    | context [execute_sql W ?q ?ps ?s] =>
        pose proof (execute_sql_cases W q ps s) as C3;
        destruct (execute_sql W q ps s) as [[b|e4] s4]
    end; [|discriminate E3].
    injection E3 as _ <-. destruct C3 as [_ [_ [Hc3 Hw3]]].
    split; [|split; [|split; [exact Hw3|]]].
    + rewrite Hc3. subst log_id. cbn [param_of_error].
      rewrite run_statement_log_end. subst s2.
      cbn [fst journal etl_logs working record record_all set_error_msg snd
           reset_locals].
      rewrite Hw1, Hc1. reflexivity.
    + rewrite Hc3. subst log_id. cbn [param_of_error].
      rewrite run_statement_log_end. subst s2.
      cbn [fst journal etl_logs working record record_all set_error_msg snd
           reset_locals].
      rewrite Hw1, Hc1. cbn [journal etl_logs].
      rewrite map_app. cbn [map]. rewrite update_record_own.
      do 2 eexists. reflexivity.
    + cbn [app end_reports]. rewrite end_reports_app. cbn [end_reports].
      rewrite (end_reports_none reading), (end_reports_none closing).
      * reflexivity.
      * eapply Forall_impl; [|exact Hcl]. apply closing_not_end.
      * eapply Forall_impl; [|exact Hrd]. intros ev [l [m ->]]. reflexivity.
  - intros Hnr. exfalso. destruct Hres as [Hex _].
    apply Forall_app in Hnr. destruct Hnr as [_ Hnr].
    inversion Hnr as [|? ? _ Hnr1]; subst.
    apply Forall_app in Hnr1. destruct Hnr1 as [_ Hnr2].
    inversion Hnr2 as [|? ? _ Hnr3]; subst.
    inversion Hnr3 as [|? ? _ Hnr4]; subst.
    rewrite Forall_forall in Hnr4. apply Exists_exists in Hex.
    destruct Hex as [ev [Hin Hev]]. rewrite (Hnr4 _ Hin) in Hev.
    discriminate Hev.
Qed.


(** X11. A load that fails before its first statement.  When the file
    cannot be read in any encoding, or the frame cannot be normalised, the
    load raises, whatever the database does; it sends no TRUNCATE and
    begins no batch; and [log_etl_end] can only be called for the id of
    this attempt with status failed, zero rows and the text of that error.
    When in addition no database call raises, the load raises that very
    error, the tables are untouched, and the committed audit row of the
    attempt carries an end time, status failed, zero rows and the text. *)
Theorem early_failure_recorded PK W table_name file_path st e r st' evs :
  early_failure W table_name file_path = Some e ->
  load_data_from_csv PK W table_name file_path st = (r, st') ->
  trace st' = trace st ++ evs ->
  (exists e', r = Raise e')
  /\ Forall (fun ev => is_truncate ev = false /\ in_batch_transaction ev = false)
            evs
  /\ (forall log_id t status n err,
        In (Enter (call_log_etl_end log_id t status n err)) evs ->
        log_id = VInt (next_log_id st) /\ t = table_name
        /\ status = "failed" /\ n = 0%Z /\ err = Some (exn_str e))
  /\ (Forall (fun ev => raised ev = false) evs ->
      r = Raise e
      /\ journal (committed st') = journal (working st)
      /\ exists t0 t1,
           etl_logs (committed st')
           = map (update_record t1 "failed" 0 (VStr (exn_str e)) (next_log_id st))
                 (etl_logs (working st))
             ++ [mkRunRecord (next_log_id st) table_name t0 (Some t1)
                             "failed" 0 (VStr (exn_str e))]).
Proof.
  intros He H Ht.
  destruct (early_failure_facts PK W table_name file_path st e r st' evs He H Ht)
    as [H1 [H2 [H3 H4]]].
  split; [exact H1|]. split; [exact H2|]. split; [exact H3|].
  intros Hnr. destruct (H4 Hnr) as [Hr [Hj [Hl _]]]. auto.
Qed.

Lemma early_failure_recorded_witness :
  fst balance_without_date_run = Raise (KeyError "on_date")
  /\ exists t0 t1,
       etl_logs (committed (snd balance_without_date_run))
       = [mkRunRecord 1 "ds.ft_balance_f" t0 (Some t1) "failed" 0
                      (VStr (exn_str (KeyError "on_date")))].
Proof.
  assert (Hnr : Forall (fun ev => raised ev = false)
                       (trace (snd balance_without_date_run))).
  { vm_compute. repeat constructor. }
  destruct (early_failure_recorded Config.PRIMARY_KEYS
              (world_of latin1_only no_faults) "ds.ft_balance_f"
              "ft_balance_f.csv" initial_state (KeyError "on_date")
              (fst balance_without_date_run) (snd balance_without_date_run)
              (trace (snd balance_without_date_run))
              eq_refl balance_without_date_run_pair (from_initial_state _))
    as [_ [_ [_ Hfin]]].
  destruct (Hfin Hnr) as [Hr [_ [t0 [t1 Hl]]]].
  split; [exact Hr|]. exists t0, t1. exact Hl.
Defined.
(** ** The shape of the normalised frame *)

Lemma map_labelled_length {A} col (f : A -> A) labels (row : list A) :
  length (map_labelled col f labels row) = length row.
Proof.
  revert row. induction labels as [|l ls IH]; intros [|x xs]; cbn; auto.
Qed.

Lemma map_column_shape col f df :
  columns (map_column col f df) = columns df
  /\ Forall2 (fun row row' => length row' = length row)
             (rows df) (rows (map_column col f df)).
Proof.
  split; [reflexivity|]. unfold map_column. cbn [rows].
  induction (rows df) as [|row rs IH]; cbn; constructor; auto.
  apply map_labelled_length.
Qed.

Lemma same_widths_refl (rs : list (list Value)) :
  Forall2 (fun row row' : list Value => length row' = length row) rs rs.
Proof. induction rs; constructor; auto. Qed.

Lemma same_widths_trans (a b c : list (list Value)) :
  Forall2 (fun row row' => length row' = length row) a b ->
  Forall2 (fun row row' => length row' = length row) b c ->
  Forall2 (fun row row' => length row' = length row) a c.
Proof.
  intros H. revert c. induction H as [|x y a b Hxy _ IH]; intros c Hc.
  - inversion Hc. constructor.
  - inversion Hc as [|y' z b' c' Hyz Hbc]; subst. constructor.
    + congruence.
    + apply IH, Hbc.
Qed.

Lemma clean_str_col_shape fs df col :
  Forall2 (fun row row' => length row' = length row)
          (rows df) (rows (clean_str_col fs df col)).
Proof.
  unfold clean_str_col. destruct (occurrences col (columns df)) as [|[|n]].
  - apply same_widths_refl.
  - eapply same_widths_trans; apply map_column_shape.
  - apply map_column_shape.
Qed.

Lemma same_widths_map (f : Value -> Value) (rs : list (list Value)) :
  Forall2 (fun row row' => length row' = length row) rs (map (map f) rs).
Proof.
  induction rs as [|row rs IH]; cbn; constructor; auto. apply length_map.
Qed.

Lemma to_numpy_shape df :
  Forall2 (fun row row' => length row' = length row) (rows df) (to_numpy df).
Proof.
  unfold to_numpy. destruct (upcasts df);
    [apply same_widths_map | apply same_widths_refl].
Qed.

Lemma data_tuples_shape df :
  Forall2 (fun row tuple => length tuple = length row) (rows df) (data_tuples df).
Proof.
  eapply same_widths_trans; [apply to_numpy_shape|].
  unfold data_tuples. apply same_widths_map.
Qed.

Lemma normalize_frame_shape fs tb table_name df df' :
  normalize_frame fs tb table_name df = Ok df' ->
  columns df' = columns (normalize_columns df)
  /\ Forall2 (fun row row' => length row' = length row) (rows df) (rows df').
Proof.
  unfold normalize_frame. cbv zeta. intros H.
  assert (G : forall d,
             columns d = columns (normalize_columns df) ->
             Forall2 (fun row row' => length row' = length row) (rows df) (rows d) ->
             Ok (if String.eqb table_name "ds.md_currency_d"
                 then fold_left (clean_str_col fs) str_cols d
                 else d) = Ok df' ->
             columns df' = columns (normalize_columns df)
             /\ Forall2 (fun row row' => length row' = length row)
                        (rows df) (rows df')).
  { intros d Hc Hr E. injection E as <-.
    destruct (String.eqb table_name "ds.md_currency_d"); [|auto].
    cbn [fold_left str_cols]. rewrite !clean_str_col_columns. split; [exact Hc|].
    eapply same_widths_trans; [|apply clean_str_col_shape].
    eapply same_widths_trans; [exact Hr|apply clean_str_col_shape]. }
  destruct (String.eqb table_name "ds.ft_balance_f").
  - unfold reformat_dates in H.
    destruct (occurrences "on_date" (columns (normalize_columns df)))
      as [|[|n]]; [discriminate H| |discriminate H].
    refine (G _ _ _ H); [reflexivity|].
    apply (map_column_shape "on_date" (reformat_on_date fs tb)
             (normalize_columns df)).
  - refine (G _ _ _ H); [reflexivity | apply same_widths_refl].
Qed.

(** X12. One tuple per row.  Whatever the table, a frame that is
    normalised keeps its labels, stripped and lower-cased, in their order,
    so the statement has one placeholder per label of the file; the tuples
    sent to the database are as many as the rows read, in their order, each
    as wide as its row; and when every row is as wide as the header, every
    tuple has one value per placeholder. *)
Theorem one_tuple_per_row fs tb table_name df df' :
  normalize_frame fs tb table_name df = Ok df' ->
  columns df' = map (fun c => Py.lower (Py.strip c)) (columns df)
  /\ placeholders (columns df')
     = Py.join ", " (repeat "%s" (length (columns df)))
  /\ Forall2 (fun row tuple => length tuple = length row)
             (rows df) (data_tuples df')
  /\ (Forall (fun row => length row = length (columns df)) (rows df) ->
      Forall (fun tuple => length tuple = length (columns df'))
             (data_tuples df')).
Proof.
  intros H. destruct (normalize_frame_shape _ _ _ _ _ H) as [Hc Hr].
  assert (Ht : Forall2 (fun row tuple => length tuple = length row)
                       (rows df) (data_tuples df')).
  { eapply same_widths_trans; [exact Hr | apply data_tuples_shape]. }
  assert (Hl : length (columns df') = length (columns df)).
  { rewrite Hc. cbn [columns normalize_columns]. apply length_map. }
  split; [exact Hc|]. split; [unfold placeholders; rewrite Hl; reflexivity|].
  split; [exact Ht|].
  intros Hrect. rewrite Hl. clear H Hc Hr Hl.
  induction Ht as [|row tuple rs ts Hw _ IH]; [constructor|].
  inversion Hrect as [|? ? Hrow Hrest]; subst.
  constructor; [congruence | apply IH, Hrest].
Qed.

Lemma one_tuple_per_row_witness :
  Forall (fun tuple => length tuple = 3)
         (data_tuples
            (match normalize_frame decimal_float_str Dates.in_bounds
                     "ds.md_currency_d" currency_sample with
             | Ok df' => df'
             | Raise _ => currency_sample
             end)).
Proof.
  apply (one_tuple_per_row decimal_float_str Dates.in_bounds
           "ds.md_currency_d" currency_sample
           (match normalize_frame decimal_float_str Dates.in_bounds
                    "ds.md_currency_d" currency_sample with
            | Ok df' => df'
            | Raise _ => currency_sample
            end) eq_refl).
  repeat constructor.
Defined.

(** ** Cells the normalisation leaves alone *)

Lemma label_is_nth labels j col :
  label_is labels j col = true -> nth_error labels j = Some col.
Proof.
  unfold label_is. destruct (nth_error labels j) as [l|]; [|discriminate].
  intros H. apply String.eqb_eq in H. subst. reflexivity.
Qed.

(** X13. The normalisation rewrites designated columns only.  A cell of
    the normalised frame that does not stand under [on_date] in the balance
    table, nor under [currency_code] or [code_iso_char] in the currency
    table, is the cell the file had at that place; in particular the frames
    of the other four tables keep every cell.  The label is the one of the
    file, stripped and lower-cased. *)
Theorem normalization_keeps_other_cells fs tb table_name df df' i j row' y :
  normalize_frame fs tb table_name df = Ok df' ->
  nth_error (rows df') i = Some row' ->
  nth_error row' j = Some y ->
  (forall label,
     nth_error (columns df) j = Some label ->
     (table_name = "ds.ft_balance_f"
      -> Py.lower (Py.strip label) <> "on_date")
     /\ (table_name = "ds.md_currency_d"
         -> Py.lower (Py.strip label) <> "currency_code"
            /\ Py.lower (Py.strip label) <> "code_iso_char")) ->
  exists row, nth_error (rows df) i = Some row /\ nth_error row j = Some y.
Proof.
  intros H Hrow Hy Hd0.
  assert (Hd : forall col,
             nth_error (columns (normalize_columns df)) j = Some col ->
             designated table_name col = false).
  { intros col Hcol. cbn [columns normalize_columns] in Hcol.
    rewrite nth_error_map in Hcol.
    destruct (nth_error (columns df) j) as [label|]; [|discriminate Hcol].
    injection Hcol as <-. destruct (Hd0 _ eq_refl) as [Hb Hc].
    unfold designated.
    destruct (String.eqb_spec table_name "ds.ft_balance_f") as [E|_].
    - destruct (String.eqb_spec (Py.lower (Py.strip label)) "on_date") as [X|_];
        [destruct (Hb E X)|].
      subst table_name. reflexivity.
    - cbn [andb orb].
      destruct (String.eqb_spec table_name "ds.md_currency_d") as [E|_];
        [|reflexivity].
      destruct (Hc E) as [N1 N2]. cbn [andb Py.mem str_cols].
      destruct (String.eqb_spec (Py.lower (Py.strip label)) "currency_code")
        as [X|_]; [destruct (N1 X)|].
      destruct (String.eqb_spec (Py.lower (Py.strip label)) "code_iso_char")
        as [X|_]; [destruct (N2 X)|].
      reflexivity. }
  clear Hd0.
  revert H. unfold normalize_frame. cbv zeta.
  assert (G : forall d,
             columns d = columns (normalize_columns df) ->
             (String.eqb table_name "ds.md_currency_d" = true ->
              rows d = rows df) ->
             (forall r, nth_error (rows d) i = Some r -> nth_error r j = Some y ->
                exists row, nth_error (rows df) i = Some row
                            /\ nth_error row j = Some y) ->
             Ok (if String.eqb table_name "ds.md_currency_d"
                 then fold_left (clean_str_col fs) str_cols d
                 else d) = Ok df' ->
             exists row, nth_error (rows df) i = Some row
                         /\ nth_error row j = Some y).
  { intros d Hcd Hsame Hcell E. injection E as <-.
    destruct (String.eqb table_name "ds.md_currency_d") eqn:Ecur;
      [|exact (Hcell _ Hrow Hy)].
    cbn [fold_left str_cols] in Hrow.
    destruct (clean_str_col_cell fs _ _ _ _ _ _ Hrow Hy)
      as [r1 [x1 [Hr1 [Hx1 Hy1]]]].
    destruct (clean_str_col_cell fs _ _ _ _ _ _ Hr1 Hx1)
      as [r0 [x0 [Hr0 [Hx0 Hx1']]]].
    rewrite clean_str_col_columns, Hcd in Hy1. rewrite Hcd in Hx1'.
    assert (N : forall col, Py.mem col str_cols = true ->
                  label_is (columns (normalize_columns df)) j col = false).
    { intros col Hm. destruct (label_is _ j col) eqn:L; [|reflexivity].
      apply label_is_nth in L. specialize (Hd _ L). unfold designated in Hd.
      rewrite Hm, andb_true_r in Hd.
      rewrite Bool.orb_false_iff in Hd. destruct Hd as [_ Hd].
      rewrite Ecur in Hd. discriminate Hd. }
    rewrite (N "code_iso_char" eq_refl) in Hy1.
    rewrite (N "currency_code" eq_refl) in Hx1'. subst y x1.
    rewrite (Hsame eq_refl) in Hr0. eauto. }
  destruct (String.eqb table_name "ds.ft_balance_f") eqn:Ebal.
  - unfold reformat_dates.
    destruct (occurrences "on_date" (columns (normalize_columns df)))
      as [|[|n]]; [intros X; discriminate X| |intros X; discriminate X].
    apply G; [reflexivity| |].
    + intros Ecur. apply String.eqb_eq in Ebal, Ecur. subst table_name.
      discriminate Ecur.
    + intros r Hr Hyr.
      destruct (map_column_cell _ _ _ _ _ _ _ Hr Hyr) as [row [x [Hr0 [Hx ->]]]].
      cbn [columns normalize_columns rows] in Hr0 |- *.
      destruct (label_is _ j "on_date") eqn:L.
      * apply label_is_nth in L. specialize (Hd _ L). unfold designated in Hd.
        rewrite Ebal in Hd. discriminate Hd.
      * eauto.
  - apply G; [reflexivity | reflexivity | eauto].
Qed.

Lemma normalization_keeps_other_cells_witness :
  exists row,
    nth_error (rows currency_sample) 1 = Some row
    /\ nth_error row 0 = Some (VInt 44).
Proof.
  apply (normalization_keeps_other_cells decimal_float_str Dates.in_bounds
           "ds.md_currency_d" currency_sample
           (match normalize_frame decimal_float_str Dates.in_bounds
                    "ds.md_currency_d" currency_sample with
            | Ok df' => df'
            | Raise _ => currency_sample
            end)
           1 0 [VInt 44; VNone; VStr "nan"] (VInt 44) eq_refl eq_refl eq_refl).
  intros label H. injection H as <-.
  split; [intros X; discriminate X|]. intros _. split; intros X; discriminate X.
Defined.

(** X14. The normalisation raises for the balance table only, and there
    in two cases: no label of the file is [on_date] once stripped and
    lower-cased, and the exception is the [KeyError] of that label; or
    several labels are, and it is the [ValueError] of line 157 on
    duplicate keys.  For every other table, and for the currency table
    whether or not it has its designated columns, it returns a frame. *)
Theorem normalize_frame_raises_iff fs tb table_name df e :
  normalize_frame fs tb table_name df = Raise e
  <-> table_name = "ds.ft_balance_f"
      /\ (occurrences "on_date"
            (map (fun c => Py.lower (Py.strip c)) (columns df)) = 0
          /\ e = mkExn "KeyError" "'on_date'"
          \/ 1 < occurrences "on_date"
                   (map (fun c => Py.lower (Py.strip c)) (columns df))
             /\ e = mkExn "ValueError" "cannot assemble with duplicate keys").
Proof.
  unfold normalize_frame. cbv zeta. unfold reformat_dates.
  cbn [columns normalize_columns].
  destruct (String.eqb table_name "ds.ft_balance_f") eqn:Ebal.
  - apply String.eqb_eq in Ebal.
    destruct (occurrences "on_date" _) as [|[|n]].
    + split.
      * intros X. injection X as <-. split; [exact Ebal|]. left. split; reflexivity.
      * intros [_ [[_ ->]|[X _]]]; [reflexivity | inversion X].
    + split; [intros X; discriminate X|].
      intros [_ [[X _]|[X _]]]; [discriminate X | lia].
    + split.
      * intros X. injection X as <-. split; [exact Ebal|]. right.
        split; [lia | reflexivity].
      * intros [_ [[X _]|[_ ->]]]; [discriminate X | reflexivity].
  - split; [intros X; discriminate X|].
    intros [-> _]. discriminate Ebal.
Qed.

(** ** Loads that meet no failure *)

Lemma later_events (P : Event -> Prop) tr evs pre sub :
  tr ++ evs = (tr ++ pre) ++ sub -> Forall P evs -> Forall P sub.
Proof.
  rewrite <- app_assoc. intros H. apply app_inv_head in H. subst evs.
  intros F. apply Forall_app in F. apply F.
Qed.

Lemma raised_excluded evs :
  Exists (fun ev => raised ev = true) evs ->
  Forall (fun ev => raised ev = false) evs -> False.
Proof.
  intros Hex Hall. apply Exists_exists in Hex. destruct Hex as [ev [Hin Hev]].
  rewrite Forall_forall in Hall. rewrite (Hall _ Hin) in Hev. discriminate Hev.
Qed.

Lemma execute_sql_clean W query params s :
  match execute_sql W query params s with
  | (r, s') =>
      exists evs,
        trace s' = trace s ++ evs
        /\ match r with
           | Ok _ =>
               committed s'
               = fst (run_statement query params (next_log_id s) (working s))
               /\ working s' = committed s'
               /\ locals s' = locals s
           | Raise _ => Exists (fun ev => raised ev = true) evs
           end
  end.
Proof.
  pose proof (execute_sql_cases W query params s) as C.
  destruct (execute_sql W query params s) as [[b|e] s'] eqn:E.
  - destruct C as [_ [Ht [Hc Hw]]]. eexists. split; [exact Ht|].
    split; [exact Hc|]. split; [exact Hw|].
    apply (execute_sql_returns _ _ _ _ _ _ E).
  - destruct (execute_sql_raises _ _ _ _ _ _ E) as [evs [Ht [Hex _]]].
    eexists. split; [exact Ht|]. apply Exists_cons_tl, Hex.
Qed.

Lemma insert_batch_raises W table_name df query tuples s e s' :
  insert_batch W table_name df query tuples s = (Raise e, s') ->
  exists evs, trace s' = trace s ++ evs
              /\ Exists (fun ev => raised ev = true) evs.
Proof.
  unfold insert_batch, bind, try_except, set_records_processed, set_error_msg,
    logger, emit, db, raise, ret, lift.
  cbn [trace record db_effect db_failure].
  destruct (db_raises W (trace s) cursor) as [e1|].
  { intros H; injection H as _ <-. eexists. split; [reflexivity|].
    apply Exists_cons_hd. reflexivity. }
  cbn.
  match goal with
  | |- context [db_raises W ?t (execute "BEGIN;" [])] =>
      destruct (db_raises W t (execute "BEGIN;" [])) as [e2|]
  end.
  { intros H; injection H as _ <-. cbn. eexists.
    split; [rewrite <- app_assoc; reflexivity|].
    apply Exists_cons_tl, Exists_cons_hd. reflexivity. }
  cbn.
  match goal with
  | |- context [db_raises W ?t (execute_batch query tuples 1000)] =>
      destruct (db_raises W t (execute_batch query tuples 1000)) as [e3|]
  end.
  { cbn.
    match goal with
    | |- context [db_raises W ?t rollback] =>
        destruct (db_raises W t rollback) as [e4|]
    end; cbn;
      [|destruct (String.eqb table_name "ds.md_currency_d"); cbn;
        [destruct (sample_of W df ["currency_code"; "code_iso_char"]) as [x|e5];
         cbn|]];
      intros H; injection H as _ <-; cbn; eexists;
      (split; [repeat rewrite <- app_assoc; reflexivity|]);
      apply Exists_cons_tl, Exists_cons_tl, Exists_cons_hd; reflexivity. }
  cbn.
  match goal with
  | |- context [db_raises W ?t commit] =>
      destruct (db_raises W t commit) as [e6|]
  end; [|intros H; discriminate H].
  cbn.
  match goal with
  | |- context [db_raises W ?t rollback] =>
      destruct (db_raises W t rollback) as [e7|]
  end; cbn;
    [|destruct (String.eqb table_name "ds.md_currency_d"); cbn;
      [destruct (sample_of W df ["currency_code"; "code_iso_char"]) as [x|e5];
       cbn|]];
    intros H; injection H as _ <-; cbn; eexists;
    (split; [repeat rewrite <- app_assoc; reflexivity|]);
    apply Exists_cons_tl, Exists_cons_tl, Exists_cons_tl, Exists_cons_hd;
    reflexivity.
Qed.

Lemma run_truncate n s :
  fst (run_statement truncate_query [] n s)
  = mkStore (etl_logs s) (journal s ++ [Truncated]).
Proof. reflexivity. Qed.

Lemma load_guarded_clean PK W table_name file_path s df :
  loaded_frame W table_name file_path = Some df ->
  match load_guarded PK W table_name file_path s with
  | (r, s2) =>
      exists evs,
        trace s2 = trace s ++ evs
        /\ match r with
           | Ok _ =>
               committed s2
               = mkStore (etl_logs (working s))
                         (journal (working s)
                          ++ truncation table_name
                          ++ [Batch (insert_query PK table_name (columns df))
                                    (data_tuples df)])
               /\ working s2 = committed s2
               /\ records_processed s2 = Z.of_nat (length (data_tuples df))
               /\ error_msg s2 = error_msg s
           | Raise _ => Exists (fun ev => raised ev = true) evs
           end
  end.
Proof.
  unfold loaded_frame. intros Hlf.
  assert (B : forall r s',
             load_body PK W table_name file_path s = (r, s') ->
             exists evs,
               trace s' = trace s ++ evs
               /\ match r with
                  | Ok _ =>
                      committed s'
                      = mkStore (etl_logs (working s))
                          (journal (working s)
                           ++ truncation table_name
                           ++ [Batch (insert_query PK table_name (columns df))
                                     (data_tuples df)])
                      /\ working s' = committed s'
                      /\ records_processed s' = Z.of_nat (length (data_tuples df))
                      /\ error_msg s' = error_msg s
                  | Raise _ => Exists (fun ev => raised ev = true) evs
                  end).
  { intros r s' E. pose proof (load_body_stages _ _ _ _ _ _ _ E) as S. clear E.
    destruct (first_success W file_path encodings) as [[[failed enc] df0]|];
      [|discriminate Hlf].
    cbv zeta in S.
    destruct (normalize_frame (float_str W) (timestamp_bounds W) table_name df0) as [d|e1];
      [|discriminate Hlf].
    injection Hlf as ->.
    set (st1 := record_all _ s) in S.
    assert (T1 : exists pre, trace st1 = trace s ++ pre).
    { eexists. apply trace_record_all. }
    destruct T1 as [pre T1].
    assert (I : forall sx,
               (exists more, trace sx = trace s ++ more) ->
               insert_batch W table_name df
                 (insert_query PK table_name (columns df)) (data_tuples df) sx
               = (r, s') ->
               exists evs,
                 trace s' = trace s ++ evs
                 /\ match r with
                    | Ok _ =>
                        committed s'
                        = mkStore (etl_logs (working sx))
                            (journal (working sx)
                             ++ [Batch (insert_query PK table_name (columns df))
                                       (data_tuples df)])
                        /\ working s' = committed s'
                        /\ records_processed s'
                           = Z.of_nat (length (data_tuples df))
                        /\ error_msg s' = error_msg sx
                    | Raise _ => Exists (fun ev => raised ev = true) evs
                    end).
    { intros sx [more Hm] E.
      pose proof (insert_batch_cases W table_name df
                    (insert_query PK table_name (columns df)) (data_tuples df) sx)
        as C.
      destruct r as [u|e].
      - rewrite E in C. destruct C as [Ht [Hc [Hw [Hn He]]]].
        eexists. split; [rewrite Ht, Hm, <- app_assoc; reflexivity|]. auto.
      - destruct (insert_batch_raises _ _ _ _ _ _ _ _ E) as [evs [Ht Hex]].
        eexists. split; [rewrite Ht, Hm, <- app_assoc; reflexivity|].
        apply Exists_app. right. exact Hex. }
    unfold truncation.
    destruct (String.eqb table_name "ds.ft_posting_f").
    - pose proof (execute_sql_clean W truncate_query [] st1) as C.
      destruct (execute_sql W truncate_query [] st1) as [[b|e2] st2].
      + destruct C as [evs2 [Ht2 [Hc2 [Hw2 Hl2]]]].
        apply I in S.
        * destruct S as [evs [Ht Hr]]. exists evs. split; [exact Ht|].
          destruct r as [u|e]; [|exact Hr].
          destruct Hr as [Hc [Hw [Hn He]]]. cbn [working record error_msg] in Hc, He.
          rewrite Hw2, Hc2, run_truncate in Hc. cbn [etl_logs journal] in Hc.
          rewrite <- app_assoc in Hc.
          split; [exact Hc|]. split; [exact Hw|]. split; [exact Hn|].
          rewrite He. injection Hl2 as Hl2 _. exact Hl2.
        * eexists. cbn [trace record]. rewrite Ht2, T1, <- !app_assoc.
          reflexivity.
      + destruct S as [-> ->]. destruct C as [evs2 [Ht2 Hex]].
        eexists. split; [rewrite Ht2, T1, <- app_assoc; reflexivity|].
        apply Exists_app. right. exact Hex.
    - apply I in S; [|eauto]. exact S. }
  unfold load_guarded, try_except.
  destruct (load_body PK W table_name file_path s) as [[u|e] s'] eqn:E;
    destruct (B _ _ eq_refl) as [evs [Ht Hr]].
  - exists evs. split; [exact Ht | exact Hr].
  - unfold bind, set_error_msg, logger, emit, raise. cbn [trace].
    eexists. split; [rewrite Ht, <- app_assoc; reflexivity|].
    apply Exists_app. left. exact Hr.
Qed.

Lemma data_tuples_length df : length (data_tuples df) = length (rows df).
Proof.
  unfold data_tuples, to_numpy. rewrite length_map.
  destruct (upcasts df); [apply length_map | reflexivity].
Qed.

Lemma successful_load_facts PK W table_name file_path st df r st' evs :
  loaded_frame W table_name file_path = Some df ->
  load_data_from_csv PK W table_name file_path st = (r, st') ->
  trace st' = trace st ++ evs ->
  Forall (fun ev => raised ev = false) evs ->
  r = Ok (Z.of_nat (length (rows df)))
  /\ journal (committed st')
     = journal (working st)
       ++ truncation table_name
       ++ [Batch (insert_query PK table_name (columns df)) (data_tuples df)]
  /\ (exists t0 t1,
        etl_logs (committed st')
        = map (update_record t1 "completed" (Z.of_nat (length (rows df))) VNone
                 (next_log_id st))
              (etl_logs (working st))
          ++ [mkRunRecord (next_log_id st) table_name t0 (Some t1) "completed"
                          (Z.of_nat (length (rows df))) VNone])
  /\ working st' = committed st'
  /\ end_reports evs
     = [(table_name, "completed", Z.of_nat (length (rows df)))].
Proof.
  intros Hlf H Ht Hnr. rewrite <- data_tuples_length.
  rewrite load_data_from_csv_unfold in H.
  pose proof (log_etl_start_cases W table_name
                (record (Logged INFO (msg_load_begin table_name file_path))
                   (record (Enter (call_load_data_from_csv table_name file_path))
                      st))) as C1.
  cbv zeta in C1. cbn [trace record next_log_id working committed] in C1.
  destruct (log_etl_start W table_name _) as [[log_id|e1] st1].
  2: { exfalso. injection H as _ <-.
       destruct C1 as [_ [evs1 [Ht1 [Hex _]]]].
       rewrite Ht1 in Ht. repeat rewrite <- app_assoc in Ht.
       apply app_inv_head in Ht. subst evs. cbn [app] in Hnr.
       repeat apply Forall_inv_tail in Hnr.
       exact (raised_excluded _ Hex Hnr). }
  destruct C1 as [Hid [_ [Hc1 [Hw1 [_ Ht1]]]]].
  pose proof (load_guarded_clean PK W table_name file_path (reset_locals st1) df
                Hlf) as G.
  destruct (load_guarded PK W table_name file_path (reset_locals st1))
    as [r1 s2] eqn:LG.
  destruct G as [evs2 [Ht2 G]].
  assert (Hb2 : Forall (fun ev => is_end_call ev = false) evs2).
  { destruct (load_guarded_events _ _ _ _ _ _ _ LG) as [evs2' [Ht2' Hb]].
    rewrite Ht2 in Ht2'. apply app_inv_head in Ht2'. subst evs2'.
    eapply Forall_impl; [|exact Hb]. intros ev [Hev _].
    eapply body_not_end, Hev. }
  clear LG. cbn [trace reset_locals] in Ht2.
  assert (T2 : exists pre, trace s2 = trace st ++ pre ++ evs2
                           /\ end_reports pre = []).
  { repeat rewrite <- app_assoc in Ht1.
    match type of Ht1 with _ = trace st ++ ?p => exists p end.
    split; [|reflexivity].
    rewrite Ht2, Ht1. repeat rewrite <- app_assoc. reflexivity. }
  destruct T2 as [pre2 [T2 Hp2]].
  destruct (log_etl_end W log_id table_name (status_of (error_msg s2))
              (records_processed s2) (error_msg s2) s2) as [[u|e3] st3] eqn:E3.
  all: destruct (log_etl_end_outcome _ _ _ _ _ _ _ _ _ E3)
         as [closing [Ht3 [Hcl Hres]]].
  all: assert (X : st' = st3) by (destruct r1; injection H as _ <-; reflexivity).
  all: rewrite X, Ht3, T2 in Ht; repeat rewrite <- app_assoc in Ht;
    apply app_inv_head in Ht; subst evs.
  all: apply Forall_app in Hnr; destruct Hnr as [_ Hnr];
    apply Forall_app in Hnr; destruct Hnr as [Hnr2 Hnrc];
    apply Forall_inv_tail in Hnrc.
  2: { exfalso. destruct Hres as [Hex _]. exact (raised_excluded _ Hex Hnrc). }
  destruct r1 as [u1|e2]; [|exfalso; exact (raised_excluded _ G Hnr2)].
  clear X.
  destruct G as [Hc2 [Hw2 [Hn2 He2]]]. cbn [error_msg reset_locals] in He2.
  cbn [working reset_locals] in Hc2.
  rewrite He2, Hn2 in E3. change (status_of None) with "completed" in E3.
  rewrite log_etl_end_unfold in E3.
  match type of E3 with
  | context [execute_sql W ?q ?ps ?s] =>
      pose proof (execute_sql_clean W q ps s) as C3;
      destruct (execute_sql W q ps s) as [[b|e4] s4]
  end; [|discriminate E3].
  injection E3 as _ <-. injection H as <- <-.
  destruct C3 as [evs3 [_ [Hc3 [Hw3 Hl3]]]].
  injection Hl3 as _ Hrp. cbn [records_processed record] in Hrp.
  rewrite Hrp, Hn2. split; [reflexivity|].
  split; [|split; [|split; [exact Hw3|]]].
  - rewrite Hc3. subst log_id. cbn [param_of_error].
    rewrite run_statement_log_end. cbn [fst journal etl_logs working record].
    rewrite Hw2, Hc2, Hw1, Hc1. reflexivity.
  - rewrite Hc3. subst log_id. cbn [param_of_error].
    rewrite run_statement_log_end. cbn [fst journal etl_logs working record].
    rewrite Hw2, Hc2, Hw1, Hc1. cbn [journal etl_logs].
    rewrite map_app. cbn [map]. rewrite update_record_own.
    do 2 eexists. reflexivity.
  - rewrite !end_reports_app, Hp2, (end_reports_none evs2 Hb2).
    cbn [end_reports app]. rewrite He2, (end_reports_none closing).
    + reflexivity.
    + eapply Forall_impl; [|exact Hcl]. apply closing_not_end.
Qed.

(** X16. A load that meets no failure.  When the file is readable, the
    frame can be normalised and no database call raises, the load returns
    the number of rows of the file; the committed tables hold what the
    open transaction held, then the truncation if the table is the posting
    table, then the one batch of the tuples of the normalised frame under
    the statement planned for its labels; and the committed audit row of
    the attempt carries an end time, status completed, that number of rows
    and no error.  No uncommitted work is left. *)
Theorem successful_load_recorded PK W table_name file_path st df r st' evs :
  loaded_frame W table_name file_path = Some df ->
  load_data_from_csv PK W table_name file_path st = (r, st') ->
  trace st' = trace st ++ evs ->
  Forall (fun ev => raised ev = false) evs ->
  r = Ok (Z.of_nat (length (rows df)))
  /\ journal (committed st')
     = journal (working st)
       ++ truncation table_name
       ++ [Batch (insert_query PK table_name (columns df)) (data_tuples df)]
  /\ (exists t0 t1,
        etl_logs (committed st')
        = map (update_record t1 "completed" (Z.of_nat (length (rows df))) VNone
                 (next_log_id st))
              (etl_logs (working st))
          ++ [mkRunRecord (next_log_id st) table_name t0 (Some t1) "completed"
                          (Z.of_nat (length (rows df))) VNone])
  /\ working st' = committed st'.
Proof.
  intros Hlf H Ht Hnr.
  destruct (successful_load_facts PK W table_name file_path st df r st' evs
              Hlf H Ht Hnr) as [Hr [Hj [Hl [Hw _]]]].
  auto.
Qed.

Lemma successful_load_recorded_witness :
  fst (accounts_run no_faults) = Ok 2%Z
  /\ journal (committed (snd (accounts_run no_faults)))
     = [Batch (insert_query Config.PRIMARY_KEYS "ds.md_account_d"
                 ["account_rk"; "currency_code"])
              [[VInt 36237725; VNone]; [VInt 24656; VStr "810"]]].
Proof.
  assert (Hnr : Forall (fun ev => raised ev = false)
                       (trace (snd (accounts_run no_faults)))).
  { vm_compute. repeat constructor. }
  destruct (successful_load_recorded Config.PRIMARY_KEYS
              (world_of latin1_only no_faults) "ds.md_account_d"
              "md_account_d.csv" initial_state (normalize_columns accounts_frame)
              (fst (accounts_run no_faults)) (snd (accounts_run no_faults))
              (trace (snd (accounts_run no_faults)))
              eq_refl (accounts_run_pair no_faults) (from_initial_state _) Hnr)
    as [Hr [Hj _]].
  split; [exact Hr | exact Hj].
Defined.

(** ** A whole run *)

Lemma loaded_or_early W table_name file_path :
  match loaded_frame W table_name file_path with
  | Some _ => early_failure W table_name file_path = None
  | None => exists e, early_failure W table_name file_path = Some e
  end.
Proof.
  unfold loaded_frame, early_failure.
  destruct (first_success W file_path encodings) as [[[failed enc] df0]|];
    [|eauto].
  destruct (normalize_frame (float_str W) (timestamp_bounds W) table_name df0); eauto.
Qed.

Lemma load_summary PK W table_name file_path st r st' evs :
  load_data_from_csv PK W table_name file_path st = (r, st') ->
  trace st' = trace st ++ evs ->
  Forall (fun ev => raised ev = false) evs ->
  journal (committed st')
  = journal (working st) ++ effects_of PK W (table_name, file_path)
  /\ working st' = committed st'
  /\ end_reports evs = [report_of W (table_name, file_path)].
Proof.
  intros H Ht Hnr. unfold effects_of, report_of. cbn [fst snd].
  pose proof (loaded_or_early W table_name file_path) as E.
  destruct (loaded_frame W table_name file_path) as [df|] eqn:L.
  - destruct (successful_load_facts _ _ _ _ _ _ _ _ _ L H Ht Hnr)
      as [_ [Hj [_ [Hw Hr]]]]. auto.
  - destruct E as [e E].
    destruct (early_failure_facts _ _ _ _ _ _ _ _ _ E H Ht) as [_ [_ [_ H4]]].
    destruct (H4 Hnr) as [_ [Hj [_ [Hw Hr]]]].
    rewrite app_nil_r. auto.
Qed.

Lemma two_tables_run_pair :
  load_tables Config.PRIMARY_KEYS (world_of account_file_only no_faults)
    two_tables initial_state
  = (Ok tt, snd two_tables_run).
Proof. vm_compute. reflexivity. Qed.

Lemma pipeline_facts PK W items st st' evs :
  working st = committed st ->
  load_tables PK W items st = (Ok tt, st') ->
  trace st' = trace st ++ evs ->
  Forall (fun ev => raised ev = false) evs ->
  journal (committed st')
  = journal (committed st) ++ flat_map (effects_of PK W) items
  /\ end_reports evs = map (report_of W) items
  /\ working st' = committed st'.
Proof.
  revert st evs. induction items as [|[table_name file_path] rest IH];
    intros st evs Hw H Ht Hnr.
  - injection H as <-. rewrite <- (app_nil_r (trace st)) in Ht at 1.
    apply app_inv_head in Ht. subst evs. cbn. rewrite app_nil_r. auto.
  - cbn [load_tables] in H. unfold bind at 1, try_except, bind at 1 in H.
    destruct (load_data_from_csv PK W table_name file_path st)
      as [[n|e] s1] eqn:L;
      destruct (load_enters_once _ _ _ _ _ _ _ L) as [evs1 [Ht1 _]].
    + unfold ret in H.
      destruct (load_tables_run PK W rest s1) as [s2 [evsr [Hrun [Htr _]]]].
      rewrite Hrun in H. injection H as <-.
      rewrite Htr, Ht1, <- app_assoc in Ht. apply app_inv_head in Ht.
      subst evs. apply Forall_app in Hnr. destruct Hnr as [Hnr1 Hnrr].
      destruct (load_summary _ _ _ _ _ _ _ _ L Ht1 Hnr1) as [Hj1 [Hw1 Hr1]].
      destruct (IH s1 evsr Hw1 Hrun Htr Hnrr) as [Hj [Hr Hw2]].
      cbn [flat_map map]. rewrite end_reports_app, Hr1, Hr, Hj, Hj1, Hw.
      rewrite <- app_assoc. auto.
    + unfold logger, emit in H.
      change (mkState _ _ _ _ (trace s1 ++ [?ev]) _ _ _) with (record ev s1) in H.
      destruct (load_tables_run PK W rest
                  (record (Logged ERROR (msg_table_aborted table_name (exn_str e)))
                     s1))
        as [s2 [evsr [Hrun [Htr _]]]].
      rewrite Hrun in H. injection H as <-.
      rewrite Htr, trace_record, Ht1, <- !app_assoc in Ht.
      apply app_inv_head in Ht. subst evs.
      apply Forall_app in Hnr. destruct Hnr as [Hnr1 Hnrr].
      apply Forall_inv_tail in Hnrr.
      destruct (load_summary _ _ _ _ _ _ _ _ L Ht1 Hnr1) as [Hj1 [Hw1 Hr1]].
      destruct (IH (record (Logged ERROR
                              (msg_table_aborted table_name (exn_str e))) s1)
                  evsr Hw1 Hrun Htr Hnrr) as [Hj [Hr Hw2]].
      cbn [committed record] in Hj.
      cbn [flat_map map]. rewrite end_reports_app, Hr1. cbn [app end_reports].
      rewrite Hr, Hj, Hj1, Hw. rewrite <- app_assoc. auto.
Qed.


(** X17. What a run leaves behind.  When the loop of [main] starts with no
    transaction open and no database call raises, then after it the
    committed tables hold, in the order of the mapping, for each table
    whose file is readable and whose frame can be normalised, the
    truncation if it is the posting table followed by the one batch of its
    tuples, and nothing for the other tables; [log_etl_end] was called once
    per table, in that order, with status completed and the number of rows
    of the file for the former, and with status failed and zero rows for
    the latter; and no transaction is left open.  A table that fails takes
    nothing from the tables after it. *)
Theorem pipeline_effects PK W items st st' evs :
  working st = committed st ->
  load_tables PK W items st = (Ok tt, st') ->
  trace st' = trace st ++ evs ->
  Forall (fun ev => raised ev = false) evs ->
  journal (committed st')
  = journal (committed st) ++ flat_map (effects_of PK W) items
  /\ end_reports evs = map (report_of W) items
  /\ working st' = committed st'.
Proof. apply pipeline_facts. Qed.

Lemma pipeline_effects_witness :
  journal (committed (snd two_tables_run))
  = [Batch (insert_query Config.PRIMARY_KEYS "ds.md_account_d"
              ["account_rk"; "currency_code"])
           [[VInt 36237725; VNone]; [VInt 24656; VStr "810"]]]
  /\ end_reports (trace (snd two_tables_run))
     = [ ("ds.ft_posting_f", "failed", 0%Z);
         ("ds.md_account_d", "completed", 2%Z) ].
Proof.
  assert (Hnr : Forall (fun ev => raised ev = false)
                       (trace (snd two_tables_run))).
  { vm_compute. repeat constructor. }
  destruct (pipeline_effects Config.PRIMARY_KEYS
              (world_of account_file_only no_faults) two_tables initial_state
              (snd two_tables_run) (trace (snd two_tables_run))
              eq_refl two_tables_run_pair (from_initial_state _) Hnr)
    as [Hj [Hr _]].
  split; [rewrite Hj | rewrite Hr]; vm_compute; reflexivity.
Defined.

(** ** The entry point, end to end *)

Lemma main_normal_run TABLE_FILE_MAPPING PK W st :
  missing_files TABLE_FILE_MAPPING W = [] ->
  db_raises W (trace st ++ [Logged INFO msg_etl_begin]) connect = None ->
  exists s0 s5 loads r st' closing,
    load_tables PK W TABLE_FILE_MAPPING s0 = (Ok tt, s5)
    /\ trace s0 = trace st
                  ++ [ Logged INFO msg_etl_begin;
                       Db connect None;
                       Logged INFO msg_connected;
                       Logged INFO msg_delay ]
    /\ committed s0 = committed st
    /\ working s0 = working st
    /\ trace s5 = trace s0 ++ loads
    /\ main TABLE_FILE_MAPPING PK W st = (r, st')
    /\ trace st' = trace s5 ++ Logged INFO msg_etl_done :: closing
    /\ committed st' = committed s5
    /\ working st' = working s5
    /\ (closing = [Db close None; Logged INFO msg_closed] /\ r = Ok tt
        \/ exists e, closing = [Db close (Some e)] /\ r = Raise e).
Proof.
  intros M E.
  pose proof (all_exist_iff TABLE_FILE_MAPPING W) as Hiff.
  cbv beta iota zeta delta
    [main bind set_conn try_finally try_except logger emit get_state ret raise
     create_connection].
  rewrite check_files_exist_eval, M.
  rewrite (proj2 Hiff M). unfold missing_log. cbn [map app].
  rewrite record_all_nil.
  cbv beta iota zeta delta [db record db_effect db_failure].
  cbn [trace committed working next_log_id cursor_row conn_is_set error_msg
       records_processed].
  rewrite E. cbv beta iota.
  cbn [trace committed working next_log_id cursor_row conn_is_set error_msg
       records_processed].
  match goal with
  | |- context [load_tables PK W TABLE_FILE_MAPPING ?s] =>
      set (s0 := s);
      destruct (load_tables_run PK W TABLE_FILE_MAPPING s0)
        as [s5 [loads [Hrun [Ht [_ [_ Hc]]]]]]
  end.
  exists s0, s5, loads. rewrite Hrun. cbv beta iota.
  destruct s5 as [c5 w5 n5 cr5 tr5 cs5 em5 rp5].
  cbn [conn_is_set trace] in Hc, Ht. subst cs5. cbn [conn_is_set s0].
  cbv beta iota.
  cbn [trace committed working next_log_id cursor_row conn_is_set error_msg
       records_processed].
  match goal with
  | |- context [db_raises W ?t close] => destruct (db_raises W t close) as [e|]
  end.
  - exists (Raise e). eexists. exists [Db close (Some e)].
    split; [reflexivity|]. split.
    { subst s0. cbn [trace]. rewrite <- !app_assoc. reflexivity. }
    split; [reflexivity|]. split; [reflexivity|]. split; [exact Ht|].
    split; [reflexivity|]. cbn [trace committed working].
    split; [rewrite <- !app_assoc; reflexivity|].
    split; [reflexivity|]. split; [reflexivity|]. right. eauto.
  - exists (Ok tt). eexists. exists [Db close None; Logged INFO msg_closed].
    split; [reflexivity|]. split.
    { subst s0. cbn [trace]. rewrite <- !app_assoc. reflexivity. }
    split; [reflexivity|]. split; [reflexivity|]. split; [exact Ht|].
    split; [reflexivity|]. cbn [trace committed working].
    split; [rewrite <- !app_assoc; reflexivity|].
    split; [reflexivity|]. split; [reflexivity|]. left. auto.
Qed.
Lemma full_run_pair :
  main (Config.TABLE_FILE_MAPPING "data") Config.PRIMARY_KEYS
       (world_of latin1_only no_faults) initial_state
  = (fst full_run, snd full_run).
Proof. unfold full_run. apply surjective_pairing. Qed.

(** X18. A run of [main] that meets no failure of the database.  When no
    transaction is open at the start, every mapped file exists and no
    database call raises, [main] returns; the committed tables hold, in the
    order of the mapping, the truncation and the batch of every table
    whose file could be read and normalised; and [log_etl_end] was called
    once per mapped table, in that order, with completed and the number of
    rows for these tables and with failed and zero for the others. *)
Theorem main_run_effects TABLE_FILE_MAPPING PK W st r st' evs :
  working st = committed st ->
  missing_files TABLE_FILE_MAPPING W = [] ->
  main TABLE_FILE_MAPPING PK W st = (r, st') ->
  trace st' = trace st ++ evs ->
  Forall (fun ev => raised ev = false) evs ->
  r = Ok tt
  /\ journal (committed st')
     = journal (committed st) ++ flat_map (effects_of PK W) TABLE_FILE_MAPPING
  /\ end_reports evs = map (report_of W) TABLE_FILE_MAPPING
  /\ working st' = committed st'.
Proof.
  intros Hw M H Ht Hnr.
  destruct (db_raises W (trace st ++ [Logged INFO msg_etl_begin]) connect)
    as [e|] eqn:E.
  { exfalso. pose proof (main_cases TABLE_FILE_MAPPING PK W st) as C.
    rewrite M, E, H in C. destruct C as [s [X [Hs _]]].
    injection X as _ <-. rewrite Hs in Ht. apply app_inv_head in Ht. subst evs.
    apply Forall_inv_tail, Forall_inv in Hnr. discriminate Hnr. }
  destruct (main_normal_run TABLE_FILE_MAPPING PK W st M E)
    as [s0 [s5 [loads [r0 [s6 [closing
         [Hrun [Ht0 [Hc0 [Hw0 [Ht5 [Hmain [Ht6 [Hc6 [Hw6 Hcl]]]]]]]]]]]]]]].
  rewrite H in Hmain. injection Hmain as <- <-.
  rewrite Ht6, Ht5, Ht0 in Ht. repeat rewrite <- app_assoc in Ht.
  apply app_inv_head in Ht. subst evs. cbn [app] in Hnr.
  do 4 apply Forall_inv_tail in Hnr.
  apply Forall_app in Hnr. destruct Hnr as [Hnr5 Hnrc].
  apply Forall_inv_tail in Hnrc.
  assert (Hw0' : working s0 = committed s0) by congruence.
  destruct (pipeline_facts PK W TABLE_FILE_MAPPING s0 s5 loads Hw0' Hrun Ht5 Hnr5)
    as [Hj [Hr Hw5]].
  destruct Hcl as [[-> ->]|[e [-> _]]].
  - split; [reflexivity|]. rewrite Hc6, Hw6, Hj, Hc0.
    split; [reflexivity|]. split; [|exact Hw5].
    cbn [app end_reports]. rewrite end_reports_app, Hr. cbn [end_reports].
    apply app_nil_r.
  - exfalso. apply Forall_inv in Hnrc. discriminate Hnrc.
Qed.

Lemma main_run_effects_witness :
  fst full_run = Ok tt
  /\ end_reports (trace (snd full_run))
     = [ ("ds.ft_balance_f", "failed", 0%Z);
         ("ds.ft_posting_f", "completed", 2%Z);
         ("ds.md_account_d", "completed", 2%Z);
         ("ds.md_currency_d", "completed", 2%Z);
         ("ds.md_exchange_rate_d", "completed", 2%Z);
         ("ds.md_ledger_account_s", "completed", 2%Z) ].
Proof.
  assert (Hnr : Forall (fun ev => raised ev = false) (trace (snd full_run))).
  { vm_compute. repeat constructor. }
  destruct (main_run_effects (Config.TABLE_FILE_MAPPING "data")
              Config.PRIMARY_KEYS (world_of latin1_only no_faults) initial_state
              (fst full_run) (snd full_run) (trace (snd full_run))
              eq_refl eq_refl full_run_pair (from_initial_state _) Hnr)
    as [Hr [_ [Hrep _]]].
  split; [exact Hr|]. rewrite Hrep. vm_compute. reflexivity.
Defined.

(** ** The configuration *)

(** X19. The configured tables, their keys and the truncation agree.
    Every table of [TABLE_FILE_MAPPING] has an entry in [PRIMARY_KEYS], so
    the lookups of lines 191 and 194 cannot raise; the entry is empty for
    [ds.ft_posting_f] only; and for a configured table the statement is the
    plain insert, without ON CONFLICT, exactly when the table is the one
    that is truncated before its load. *)
Theorem keyless_iff_truncated DATA_DIR table_name file_path :
  In (table_name, file_path) (Config.TABLE_FILE_MAPPING DATA_DIR) ->
  (exists keys, Py.lookup Config.PRIMARY_KEYS table_name = Some keys)
  /\ (truthy (PRIMARY_KEYS_get Config.PRIMARY_KEYS table_name) = false
      <-> table_name = "ds.ft_posting_f")
  /\ (forall cols,
        insert_query Config.PRIMARY_KEYS table_name cols
        = base_insert table_name cols
        <-> truncation table_name = [Truncated]).
Proof.
  intros Hin.
  assert (Hcases : table_name = "ds.ft_balance_f"
                   \/ table_name = "ds.ft_posting_f"
                   \/ table_name = "ds.md_account_d"
                   \/ table_name = "ds.md_currency_d"
                   \/ table_name = "ds.md_exchange_rate_d"
                   \/ table_name = "ds.md_ledger_account_s").
  { cbn in Hin.
    repeat (destruct Hin as [Hin|Hin]; [injection Hin as <- _; tauto|]).
    destruct Hin. }
  clear Hin.
  assert (Hgrow : forall t cols,
             truthy (PRIMARY_KEYS_get Config.PRIMARY_KEYS t) = true ->
             insert_query Config.PRIMARY_KEYS t cols <> base_insert t cols).
  { intros t cols Ht. unfold insert_query. rewrite Ht.
    apply append_grows. destruct (Py.join _ _); discriminate. }
  repeat (destruct Hcases as [->|Hcases]); try subst table_name.
  all: split; [eexists; reflexivity|].
  all: split; [split; intros X; first [discriminate X | reflexivity]|].
  all: intros cols; split; intros X;
    first [ reflexivity
          | exfalso; revert X; apply Hgrow; reflexivity
          | vm_compute in X; discriminate X ].
Qed.

Lemma keyless_iff_truncated_witness :
  truthy (PRIMARY_KEYS_get Config.PRIMARY_KEYS "ds.ft_posting_f") = false
  <-> "ds.ft_posting_f" = "ds.ft_posting_f".
Proof.
  exact (proj1 (proj2 (keyless_iff_truncated "data" "ds.ft_posting_f"
                         (Config.path_join "data" "ft_posting_f.csv")
                         (or_intror (or_introl eq_refl))))).
Defined.

(** ** The audit row of an attempt *)

Lemma load_body_keeps_logs PK W table_name file_path st r st' L :
  etl_logs (committed st) = L -> etl_logs (working st) = L ->
  load_body PK W table_name file_path st = (r, st') ->
  etl_logs (committed st') = L /\ etl_logs (working st') = L.
Proof.
  intros Hc Hw H.
  pose proof (load_body_stages _ _ _ _ _ _ _ H) as S. clear H.
  destruct (first_success W file_path encodings) as [[[failed enc] df0]|].
  2: { destruct S as [_ ->]. split; assumption. }
  cbv zeta in S.
  destruct (normalize_frame (float_str W) (timestamp_bounds W) table_name df0)
    as [df|e1].
  2: { destruct S as [_ ->]. split; assumption. }
  assert (B : forall s r0 s',
             etl_logs (committed s) = L -> etl_logs (working s) = L ->
             insert_batch W table_name df
               (insert_query PK table_name (columns df)) (data_tuples df) s
             = (r0, s') ->
             etl_logs (committed s') = L /\ etl_logs (working s') = L).
  { intros s r0 s' Hcs Hws E.
    pose proof (insert_batch_cases W table_name df
                  (insert_query PK table_name (columns df)) (data_tuples df) s)
      as C.
    rewrite E in C. destruct r0 as [u|e].
    - destruct C as [_ [Hc' [Hw' _]]]. rewrite Hw', Hc'. cbn [etl_logs].
      split; exact Hws.
    - destruct C as [Hc' [evs [_ [[_ [Hw' _]]|[_ Hw']]]]]; rewrite Hc', Hw';
        split; assumption. }
  destruct (String.eqb table_name "ds.ft_posting_f").
  - match type of S with
    | match execute_sql W truncate_query [] ?s with _ => _ end =>
        pose proof (execute_sql_cases W truncate_query [] s) as C;
        destruct (execute_sql W truncate_query [] s) as [[b|e2] st2]
    end.
    + destruct C as [_ [_ [Hc2 Hw2]]].
      apply (B _ _ _ ) in S; [exact S| |].
      * cbn [committed record]. rewrite Hc2. exact Hw.
      * cbn [working record]. rewrite Hw2, Hc2. exact Hw.
    + destruct S as [_ ->]. destruct C as [Hc2 [[_ Hw2]|[Hw2 _]]];
        rewrite Hc2, Hw2; split; assumption.
  - refine (B _ _ _ _ _ S); assumption.
Qed.

Lemma load_guarded_keeps_logs PK W table_name file_path st r st' L :
  etl_logs (committed st) = L -> etl_logs (working st) = L ->
  load_guarded PK W table_name file_path st = (r, st') ->
  etl_logs (committed st') = L /\ etl_logs (working st') = L.
Proof.
  intros Hc Hw. unfold load_guarded, try_except.
  destruct (load_body PK W table_name file_path st) as [[u|e] s1] eqn:B;
    pose proof (load_body_keeps_logs _ _ _ _ _ _ _ _ Hc Hw B) as K.
  - intros H. injection H as _ <-. exact K.
  - unfold bind, set_error_msg, logger, emit, raise.
    intros H. injection H as _ <-. exact K.
Qed.

(** C3, as the code has it. A load whose audit record could not be opened
    raises what [log_etl_start] raised, without calling [log_etl_end], and
    commits nothing.  Every other load has inserted a row with status
    started under the id [log_etl_start] returned, and calls [log_etl_end]
    exactly once with that id, whatever parsing, normalisation, truncation
    and insertion did, with status completed when no error was captured and
    failed otherwise.  If no call of that update raises, the load returns
    exactly when no error was captured and the row of the attempt holds
    that status, the count and the error; if one raises, the load raises
    and the row is left with status started. *)
Theorem audit_record_closed_once
    (PK : Py.dict (option (list string))) (W : World)
    (table_name file_path : string) (st : State) (r : result Z) (st' : State) :
  load_data_from_csv PK W table_name file_path st = (r, st') ->
  (exists e opening,
     r = Raise e
     /\ log_etl_start W table_name
          (record (Logged INFO (msg_load_begin table_name file_path))
             (record (Enter (call_load_data_from_csv table_name file_path)) st))
        = (Raise e, st')
     /\ trace st' = trace st ++ opening
     /\ Forall (fun ev => is_end_call ev = false) opening
     /\ committed st' = committed st)
  \/ (exists s1 before after status n err t0,
        log_etl_start W table_name
          (record (Logged INFO (msg_load_begin table_name file_path))
             (record (Enter (call_load_data_from_csv table_name file_path)) st))
        = (Ok (VInt (next_log_id st)), s1)
        /\ etl_logs (committed s1)
           = etl_logs (working st)
             ++ [mkRunRecord (next_log_id st) table_name t0 None "started" 0
                             VNone]
        /\ trace st'
           = trace st ++ before
             ++ Enter (call_log_etl_end (VInt (next_log_id st)) table_name
                         status n err)
             :: after
        /\ Forall (fun ev => is_end_call ev = false) before
        /\ Forall (fun ev => is_end_call ev = false) after
        /\ (err = None /\ status = "completed"
            \/ (exists m, err = Some m) /\ status = "failed")
        /\ (Forall (fun ev => raised ev = false) after ->
            match r with
            | Ok k => err = None /\ k = n
            | Raise e => err = Some (exn_str e)
            end
            /\ exists t1,
                 etl_logs (committed st')
                 = map (update_record t1 status n
                          match err with Some m => VStr m | None => VNone end
                          (next_log_id st))
                       (etl_logs (working st))
                   ++ [mkRunRecord (next_log_id st) table_name t0 (Some t1)
                         status n
                         match err with Some m => VStr m | None => VNone end])
        /\ (Exists (fun ev => raised ev = true) after ->
            (exists e, r = Raise e)
            /\ etl_logs (committed st')
               = etl_logs (working st)
                 ++ [mkRunRecord (next_log_id st) table_name t0 None "started" 0
                                 VNone])).
Proof.
  intros H. rewrite load_data_from_csv_unfold in H.
  pose proof (log_etl_start_cases W table_name
                (record (Logged INFO (msg_load_begin table_name file_path))
                   (record (Enter (call_load_data_from_csv table_name file_path))
                      st))) as C1.
  cbv zeta in C1.
  destruct (log_etl_start W table_name
              (record (Logged INFO (msg_load_begin table_name file_path))
                 (record (Enter (call_load_data_from_csv table_name file_path))
                    st))) as [[log_id|e1] st1] eqn:S0.
  2: { left. injection H as <- <-.
       destruct C1 as [Hc [evs [Ht [_ [Hop _]]]]].
       exists e1. eexists. split; [reflexivity|]. split; [reflexivity|].
       split; [rewrite Ht; rewrite !trace_record, <- !app_assoc; reflexivity|].
       split; [|exact Hc].
       cbn [app]. constructor; [reflexivity|]. constructor; [reflexivity|].
       constructor; [reflexivity|].
       eapply Forall_impl; [|exact Hop]. apply opening_not_end. }
  right.
  destruct C1 as [Hid [_ [Hc1 [Hw1 [_ Ht1]]]]].
  cbn [trace record next_log_id working committed] in Hid, Hc1, Ht1.
  subst log_id.
  destruct (load_guarded PK W table_name file_path (reset_locals st1))
    as [r1 s2] eqn:LG.
  destruct (load_guarded_outcome _ _ _ _ _ _ _ LG eq_refl)
    as [body [Ht2 [_ [Hg _]]]].
  assert (Hb2 : Forall (fun ev => is_end_call ev = false) body).
  { destruct (load_guarded_events _ _ _ _ _ _ _ LG) as [evs2' [Ht2' Hb]].
    rewrite Ht2 in Ht2'. apply app_inv_head in Ht2'. subst evs2'.
    eapply Forall_impl; [|exact Hb]. intros ev [Hev _].
    eapply body_not_end, Hev. }
  destruct (load_guarded_keeps_logs PK W table_name file_path
              (reset_locals st1) r1 s2 _
              (f_equal etl_logs Hc1)
              (eq_trans (f_equal etl_logs Hw1) (f_equal etl_logs Hc1)) LG)
    as [Hk2 Hkw2].
  cbn [etl_logs] in Hk2, Hkw2.
  clear LG. cbn [trace reset_locals] in Ht2.
  destruct (log_etl_end W (VInt (next_log_id st)) table_name
              (status_of (error_msg s2))
              (records_processed s2) (error_msg s2) s2) as [r3 st3] eqn:E3.
  destruct (log_etl_end_outcome _ _ _ _ _ _ _ _ _ E3)
    as [closing [Ht3 [Hcl Hres]]].
  pose proof (keeps_log_etl_end (locals s2) W _ _ _ _ _ _ _ _ eq_refl E3) as Hl.
  unfold locals in Hl. injection Hl as _ Hrp.
  assert (X : st' = st3) by (destruct r3; injection H as _ <-; reflexivity).
  subst st3.
  rewrite log_etl_end_unfold in E3.
  match type of E3 with
  | context [execute_sql W ?q ?ps ?s] =>
      pose proof (execute_sql_cases W q ps s) as C3;
      destruct (execute_sql W q ps s) as [[b|e4] s4]
  end; injection E3 as <- <-.
  - destruct Hres as [Hnr _].
    destruct C3 as [_ [_ [Hc3 _]]].
    exists st1.
    match type of Ht1 with
    | _ = _ ++ ?op => exists ((Enter (call_load_data_from_csv table_name file_path)
                               :: Logged INFO (msg_load_begin table_name file_path)
                               :: op) ++ body)
    end.
    exists closing, (status_of (error_msg s2)), (records_processed s2),
      (error_msg s2).
    eexists.
    split; [reflexivity|].
    split; [rewrite Hc1; reflexivity|].
    split; [rewrite Ht3, Ht2, Ht1; rewrite <- !app_assoc; reflexivity|].
    split.
    { apply Forall_app. split; [|exact Hb2]. repeat constructor. }
    split; [eapply Forall_impl; [|exact Hcl]; apply closing_not_end|].
    split; [apply status_of_cases|].
    split.
    + intros _. split.
      * destruct r1; injection H as <-; [split; [exact Hg|exact Hrp]|exact Hg].
      * rewrite Hc3. cbn [working record].
        destruct (error_msg s2) as [m|]; cbn [param_of_error];
          rewrite run_statement_log_end; cbn [fst etl_logs];
          rewrite Hkw2, map_app; cbn [map]; rewrite update_record_own;
          eexists; reflexivity.
    + intros Hex. exfalso. exact (raised_excluded _ Hex Hnr).
  - destruct Hres as [Hex _].
    destruct C3 as [Hc3 _].
    exists st1.
    match type of Ht1 with
    | _ = _ ++ ?op => exists ((Enter (call_load_data_from_csv table_name file_path)
                               :: Logged INFO (msg_load_begin table_name file_path)
                               :: op) ++ body)
    end.
    exists closing, (status_of (error_msg s2)), (records_processed s2),
      (error_msg s2).
    eexists.
    split; [reflexivity|].
    split; [rewrite Hc1; reflexivity|].
    split; [rewrite Ht3, Ht2, Ht1; rewrite <- !app_assoc; reflexivity|].
    split.
    { apply Forall_app. split; [|exact Hb2]. repeat constructor. }
    split; [eapply Forall_impl; [|exact Hcl]; apply closing_not_end|].
    split; [apply status_of_cases|].
    split.
    + intros Hnr. exfalso. exact (raised_excluded _ Hex Hnr).
    + intros _. split; [injection H as <-; eauto|].
      rewrite Hc3. cbn [committed record]. exact Hk2.
Qed.

Lemma audit_record_closed_once_witness :
  exists z before after status n err,
    trace (snd (accounts_run no_faults))
    = before ++ Enter (call_log_etl_end (VInt z) "ds.md_account_d" status n err)
      :: after
    /\ Forall (fun ev => is_end_call ev = false) before
    /\ Forall (fun ev => is_end_call ev = false) after.
Proof.
  destruct (audit_record_closed_once Config.PRIMARY_KEYS
              (world_of latin1_only no_faults) "ds.md_account_d"
              "md_account_d.csv" initial_state
              (fst (accounts_run no_faults)) (snd (accounts_run no_faults))
              (accounts_run_pair no_faults))
    as [[e [opening [Hr _]]]
       |[s1 [before [after [status [n [err [t0 [_ [_ [Ht [Hb [Ha _]]]]]]]]]]]]].
  - vm_compute in Hr. discriminate Hr.
  - exists (next_log_id initial_state), before, after, status, n, err.
    split; [exact Ht|]. split; assumption.
Defined.


(** ** The batches of a load *)









